(** * Automatic Data Analysis Performer: the insight pipeline

    A shallow embedding of [etl.py], [stats.py], [visuals.py] and the
    processing pipeline of [app.py].

    Conventions of the embedding.
    - A pandas [DataFrame] is a row count together with an ordered list of
      named columns.  A column carries its dtype as its constructor:
      [Numeric] (int64/float64), [Temporal] (datetime64) or [Categorical]
      (object).  A missing cell (NaN, NaT, None) is [None].
    - Floating-point numbers are idealised as rationals ([Q]); quantities
      the code compares are compared with [Qeq], [Qle], [Qlt].  A numeric
      cell is therefore a finite number that float64 holds exactly:
      infinities are outside the model, and so are int64 values beyond
      2^53, which capping changes when it rewrites the column as float64.
    - Python objects that the code mutates live in a [store]; a Python
      variable holds a location.  [df = df.drop_duplicates()] allocates a
      new frame and rebinds the variable, [df[col] = v] writes into the
      frame the variable points to. *)

From Stdlib Require Import String List ZArith QArith Qround Qminmax.
From Stdlib Require Import Bool Arith Lia Lqa Sorted OrderedTypeEx.
Import ListNotations.

Local Open Scope Q_scope.

(** ** Data model *)

Inductive column : Type :=
| Numeric (vs : list (option Q))
| Temporal (vs : list (option Z))
| Categorical (vs : list (option string)).

Record DataFrame : Type := mkDF {
  n_rows : nat;                       (* df.shape[0], len(df) *)
  columns : list (string * column)    (* df.columns with their data *)
}.

Record etl_stats : Type := mkStats {
  duplicates_removed : nat;
  missing_imputed : nat;
  outliers_handled : nat
}.

Definition col_length (c : column) : nat :=
  match c with
  | Numeric vs => length vs
  | Temporal vs => length vs
  | Categorical vs => length vs
  end.

Definition is_numeric_dtype (c : column) : bool :=
  match c with Numeric _ => true | _ => false end.

Definition is_object_dtype (c : column) : bool :=
  match c with Categorical _ => true | _ => false end.

(** [df.columns] *)
Definition column_names (df : DataFrame) : list string :=
  map fst (columns df).

(** [df.shape[1]] *)
Definition n_cols (df : DataFrame) : nat := length (columns df).

(** [df.select_dtypes(include=['number'])]: same index, numeric columns. *)
Definition select_number (df : DataFrame) : DataFrame :=
  mkDF (n_rows df) (filter (fun nc => is_numeric_dtype (snd nc)) (columns df)).

(** [df.select_dtypes(include=['object', 'category'])] *)
Definition select_object (df : DataFrame) : DataFrame :=
  mkDF (n_rows df) (filter (fun nc => is_object_dtype (snd nc)) (columns df)).

(** [df.empty]: some axis has length 0. *)
Definition df_empty (df : DataFrame) : bool :=
  (n_rows df =? 0)%nat || (n_cols df =? 0)%nat.

(** The table invariant: every column has one cell per row and column
    names are unique. *)
Definition well_formed (df : DataFrame) : Prop :=
  Forall (fun nc => col_length (snd nc) = n_rows df) (columns df) /\
  NoDup (column_names df).

(** ** Health scorer ([stats.py], [calculate_health_score]) *)

Definition Qltb (a b : Q) : bool := negb (Qle_bool b a).

(** Python's [max(a, b)]: [b] when [b > a], else [a]. *)
Definition py_max (a b : Q) : Q := if Qltb a b then b else a.

(** Python's [min(a, b)]: [b] when [b < a], else [a]. *)
Definition py_min (a b : Q) : Q := if Qltb b a then b else a.

(** Rounding to the nearest integer, ties to the even neighbour. *)
Definition round_half_even (x : Q) : Z :=
  let f := Qfloor x in
  match Qcompare (x - inject_Z f) (1 # 2) with
  | Lt => f
  | Gt => (f + 1)%Z
  | Eq => if Z.even f then f else (f + 1)%Z
  end.

(** Rounding to one decimal, ties to the even digit, on the exact
    value.  Python's [round(x, 1)] rounds the binary value of the float
    [x]: it agrees with [round1] except at decimal ties that the float
    does not hold exactly, such as 99.55. *)
Definition round1 (x : Q) : Q := inject_Z (round_half_even (x * 10)) / 10.

Definition nQ (n : nat) : Q := inject_Z (Z.of_nat n).

(** The value of the scorer, as a total function with the rounding
    [round1]; [Checked.calculate_health_score] below has Python's
    division and takes the rounding as a parameter. *)
Definition calculate_health_score (df_original df_cleaned : DataFrame)
    (stats : etl_stats) : Q :=
  let total_cells := (n_rows df_original * n_cols df_original)%nat in
  let total_rows := n_rows df_original in
  if (total_cells =? 0)%nat || (total_rows =? 0)%nat then 0
  else
    let missing_penalty := (nQ (missing_imputed stats) / nQ total_cells) * 40 in
    let duplicate_penalty :=
      (nQ (duplicates_removed stats) / nQ total_rows) * 30 in
    let numeric_cells :=
      (n_rows (select_number df_original)
       * n_cols (select_number df_original))%nat in
    let outlier_penalty :=
      if (0 <? numeric_cells)%nat
      then (nQ (outliers_handled stats) / nQ numeric_cells) * 30
      else 0 in
    let score := 100 - (missing_penalty + duplicate_penalty + outlier_penalty) in
    py_max 0 (py_min 100 (round1 score)).

(** The scorer as the specification words it. *)
Module HealthSpec.

Definition penalty (count denom : nat) (weight : Q) : Q :=
  if (denom =? 0)%nat then 0 else (nQ count / nQ denom) * weight.

Definition clamp (x lo hi : Q) : Q := Qmax lo (Qmin hi x).

Definition score_with (round : Q -> Q) (df_original : DataFrame)
    (stats : etl_stats) : Q :=
  let total_cells := (n_rows df_original * n_cols df_original)%nat in
  let total_rows := n_rows df_original in
  let numeric_cells :=
    (n_rows df_original * n_cols (select_number df_original))%nat in
  if (total_cells =? 0)%nat then 0
  else
    let missing_penalty := penalty (missing_imputed stats) total_cells 40 in
    let duplicate_penalty :=
      penalty (duplicates_removed stats) total_rows 30 in
    let outlier_penalty :=
      penalty (outliers_handled stats) numeric_cells 30 in
    round (clamp (100 - (missing_penalty + duplicate_penalty
                         + outlier_penalty)) 0 100).

Definition score (df_original : DataFrame) (stats : etl_stats) : Q :=
  score_with round1 df_original stats.

End HealthSpec.


(** ** The scorer with Python's division and rounding

    [a / b] raises [ZeroDivisionError] for a zero divisor, and
    [round(score, 1)] is Python's built-in, which rounds the binary
    value of its argument: the rounding is a parameter. *)
Module Checked.

(** [a / b]; [None] is a [ZeroDivisionError]. *)
Definition truediv (a b : Q) : option Q :=
  if Qeq_bool b 0 then None else Some (a / b).

Definition calculate_health_score (round : Q -> Q)
    (df_original df_cleaned : DataFrame) (stats : etl_stats) : option Q :=
  let total_cells := (n_rows df_original * n_cols df_original)%nat in
  let total_rows := n_rows df_original in
  if (total_cells =? 0)%nat || (total_rows =? 0)%nat then Some 0
  else
    match truediv (nQ (missing_imputed stats)) (nQ total_cells) with
    | None => None
    | Some missing_ratio =>
    let missing_penalty := missing_ratio * 40 in
    match truediv (nQ (duplicates_removed stats)) (nQ total_rows) with
    | None => None
    | Some duplicate_ratio =>
    let duplicate_penalty := duplicate_ratio * 30 in
    let numeric_cells :=
      (n_rows (select_number df_original)
       * n_cols (select_number df_original))%nat in
    match
      (if (0 <? numeric_cells)%nat
       then match truediv (nQ (outliers_handled stats)) (nQ numeric_cells) with
            | None => None
            | Some outlier_ratio => Some (outlier_ratio * 30)
            end
       else Some 0)
    with
    | None => None
    | Some outlier_penalty =>
    let score := 100 - (missing_penalty + duplicate_penalty + outlier_penalty) in
    Some (py_max 0 (py_min 100 (round score)))
    end
    end
    end.

End Checked.

(** ** pandas and numpy primitives used by the pipeline *)

Definition is_none {A : Type} (v : option A) : bool :=
  match v with None => true | Some _ => false end.

(** [s.isnull().sum()] *)
Definition count_null {A : Type} (vs : list (option A)) : nat :=
  length (filter is_none vs).

Definition isnull_sum (c : column) : nat :=
  match c with
  | Numeric vs => count_null vs
  | Temporal vs => count_null vs
  | Categorical vs => count_null vs
  end.

(** [s.dropna()] *)
Fixpoint dropna {A : Type} (vs : list (option A)) : list A :=
  match vs with
  | [] => []
  | None :: vs' => dropna vs'
  | Some x :: vs' => x :: dropna vs'
  end.

(** [s.fillna(value)]; filling with a missing value changes nothing. *)
Definition fillna {A : Type} (vs : list (option A)) (value : option A)
    : list (option A) :=
  map (fun v => match v with None => value | Some x => Some x end) vs.

(** Ascending sort (insertion sort, stable). *)
Fixpoint insert_sorted {A : Type} (leb : A -> A -> bool) (x : A) (l : list A)
    : list A :=
  match l with
  | [] => [x]
  | y :: l' => if leb x y then x :: l else y :: insert_sorted leb x l'
  end.

Fixpoint sort_by {A : Type} (leb : A -> A -> bool) (l : list A) : list A :=
  match l with
  | [] => []
  | x :: l' => insert_sorted leb x (sort_by leb l')
  end.

(** [s.median()]: over the non-missing values; NaN when there are none. *)
Definition median (vs : list (option Q)) : option Q :=
  let xs := sort_by Qle_bool (dropna vs) in
  let n := length xs in
  if (n =? 0)%nat then None
  else if Nat.odd n then Some (nth (n / 2) xs 0)
  else Some ((nth (n / 2 - 1) xs 0 + nth (n / 2) xs 0) / 2).

(** Linear interpolation between the two order statistics next to the
    (fractional) position [pos] of the sorted list [xs]. *)
Definition interpolate (xs : list Q) (pos : Q) : Q :=
  let lo := Z.to_nat (Qfloor pos) in
  let hi := Nat.min (lo + 1) (length xs - 1) in
  let frac := pos - inject_Z (Qfloor pos) in
  nth lo xs 0 + (nth hi xs 0 - nth lo xs 0) * frac.

(** [s.quantile(q)], with the default linear interpolation at position
    [q * (n - 1)]; NaN when there is no non-missing value. *)
Definition quantile (vs : list (option Q)) (q : Q) : option Q :=
  let xs := sort_by Qle_bool (dropna vs) in
  let n := length xs in
  if (n =? 0)%nat then None
  else Some (interpolate xs (q * nQ (n - 1))).

(** Number of occurrences of [x] in [xs]. *)
Definition occurrences {A : Type} (eqb : A -> A -> bool) (x : A) (xs : list A)
    : nat :=
  length (filter (eqb x) xs).

(** First occurrences only. *)
Fixpoint unique {A : Type} (eqb : A -> A -> bool) (xs : list A) : list A :=
  match xs with
  | [] => []
  | x :: xs' => x :: filter (fun y => negb (eqb x y)) (unique eqb xs')
  end.

(** [s.mode()]: the most frequent non-missing values, in ascending
    order (pandas sorts the modes); empty when every value is missing. *)
Definition mode {A : Type} (eqb leb : A -> A -> bool) (vs : list (option A))
    : list A :=
  let xs := dropna vs in
  let top := fold_right Nat.max 0%nat (map (fun x => occurrences eqb x xs) xs) in
  sort_by leb
    (unique eqb (filter (fun x => (occurrences eqb x xs =? top)%nat) xs)).

(** [s.mode()[0] if not s.mode().empty else default] *)
Definition mode_or {A : Type} (eqb leb : A -> A -> bool)
    (vs : list (option A)) (default : option A) : option A :=
  match mode eqb leb vs with
  | [] => default
  | m :: _ => Some m
  end.

(** *** Rows and duplicates *)

Inductive cell : Type :=
| CNum (v : option Q)
| CTime (v : option Z)
| CStr (v : option string).

Definition cells (c : column) : list cell :=
  match c with
  | Numeric vs => map CNum vs
  | Temporal vs => map CTime vs
  | Categorical vs => map CStr vs
  end.

Definition opt_eqb {A : Type} (eqb : A -> A -> bool) (a b : option A) : bool :=
  match a, b with
  | None, None => true
  | Some x, Some y => eqb x y
  | _, _ => false
  end.

(** Cell equality of [duplicated]: equal values, and two missing values
    of one column count as equal. *)
Definition cell_eqb (a b : cell) : bool :=
  match a, b with
  | CNum x, CNum y => opt_eqb Qeq_bool x y
  | CTime x, CTime y => opt_eqb Z.eqb x y
  | CStr x, CStr y => opt_eqb String.eqb x y
  | _, _ => false
  end.

Fixpoint row_eqb (r1 r2 : list cell) : bool :=
  match r1, r2 with
  | [], [] => true
  | a :: r1', b :: r2' => cell_eqb a b && row_eqb r1' r2'
  | _, _ => false
  end.

Definition row_at (df : DataFrame) (i : nat) : list cell :=
  map (fun nc => nth i (cells (snd nc)) (CNum None)) (columns df).

Definition rows (df : DataFrame) : list (list cell) :=
  map (row_at df) (seq 0 (n_rows df)).

(** [df.duplicated()]: a row is marked when an earlier row equals it. *)
Fixpoint duplicated_from (seen rs : list (list cell)) : list bool :=
  match rs with
  | [] => []
  | r :: rs' => existsb (row_eqb r) seen :: duplicated_from (r :: seen) rs'
  end.

Definition duplicated (df : DataFrame) : list bool :=
  duplicated_from [] (rows df).

(** Boolean-mask selection: the entries whose mask bit is set. *)
Fixpoint take_mask {A : Type} (mask : list bool) (xs : list A) : list A :=
  match mask, xs with
  | true :: mask', x :: xs' => x :: take_mask mask' xs'
  | false :: mask', _ :: xs' => take_mask mask' xs'
  | _, _ => []
  end.

Definition col_take (mask : list bool) (c : column) : column :=
  match c with
  | Numeric vs => Numeric (take_mask mask vs)
  | Temporal vs => Temporal (take_mask mask vs)
  | Categorical vs => Categorical (take_mask mask vs)
  end.

Definition count_true (mask : list bool) : nat :=
  length (filter (fun b => b) mask).

(** [df.drop_duplicates()]: an empty frame is copied as it is, otherwise
    the rows not marked by [duplicated] are kept, in order.  The result is
    always a new frame. *)
Definition drop_duplicates (df : DataFrame) : DataFrame :=
  if df_empty df then df
  else
    let mask := map negb (duplicated df) in
    mkDF (count_true mask)
         (map (fun nc => (fst nc, col_take mask (snd nc))) (columns df)).

(** *** Column access *)

(** [df[col]] (read); [None] stands for a [KeyError]. *)
Definition getitem (df : DataFrame) (col : string) : option column :=
  option_map snd (find (fun nc => String.eqb (fst nc) col) (columns df)).

(** [df[col] = value]: replaces the column of that name, or appends a new
    column when the name is new. *)
Definition setitem (df : DataFrame) (col : string) (value : column)
    : DataFrame :=
  if existsb (String.eqb col) (column_names df)
  then mkDF (n_rows df)
            (map (fun nc => if String.eqb (fst nc) col
                            then (fst nc, value) else nc) (columns df))
  else mkDF (n_rows df) (columns df ++ [(col, value)]).

(** ** The store of frames *)

Definition loc : Type := nat.
Definition store : Type := list DataFrame.

(** A computation over the store; [None] is a raised exception. *)
Definition M (A : Type) : Type := store -> option (A * store).

Definition ret {A : Type} (a : A) : M A := fun s => Some (a, s).

Definition bind {A B : Type} (m : M A) (k : A -> M B) : M B :=
  fun s => match m s with
           | Some (a, s') => k a s'
           | None => None
           end.

Definition raise {A : Type} : M A := fun _ => None.

Notation "x <- m ;; k" := (bind m (fun x => k))
  (at level 61, m at next level, right associativity).
Notation "m ;;; k" := (bind m (fun _ => k))
  (at level 61, right associativity).

Fixpoint replace_nth {A : Type} (i : nat) (x : A) (l : list A) : list A :=
  match l, i with
  | [], _ => []
  | _ :: l', O => x :: l'
  | y :: l', S i' => y :: replace_nth i' x l'
  end.

(** Dereference a variable. *)
Definition load (l : loc) : M DataFrame :=
  fun s => match nth_error s l with
           | Some d => Some (d, s)
           | None => None
           end.

(** A new object. *)
Definition new (d : DataFrame) : M loc :=
  fun s => Some (length s, s ++ [d]).

(** Overwrite the object a variable points to. *)
Definition assign (l : loc) (d : DataFrame) : M unit :=
  fun s => if (l <? length s)%nat then Some (tt, replace_nth l d s) else None.

(** [df[col]] on the object at [l]. *)
Definition read_col (l : loc) (col : string) : M column :=
  d <- load l ;;
  match getitem d col with
  | Some c => ret c
  | None => raise
  end.

(** [df[col] = value] on the object at [l], in place. *)
Definition write_col (l : loc) (col : string) (value : column) : M unit :=
  d <- load l ;;
  assign l (setitem d col value).

(** [for x in xs: acc = body(x, acc)] *)
Fixpoint for_each {A S : Type} (xs : list A) (body : A -> S -> M S) (acc : S)
    : M S :=
  match xs with
  | [] => ret acc
  | x :: xs' => acc' <- body x acc ;; for_each xs' body acc'
  end.

(** ** Cleansing engine ([etl.py], [perform_etl]) *)

(** A float that may be NaN; arithmetic propagates NaN and every
    comparison with NaN is false. *)
Definition float : Type := option Q.

Definition fsub (a b : float) : float :=
  match a, b with Some x, Some y => Some (x - y) | _, _ => None end.

Definition fadd (a b : float) : float :=
  match a, b with Some x, Some y => Some (x + y) | _, _ => None end.

Definition fmul (a b : float) : float :=
  match a, b with Some x, Some y => Some (x * y) | _, _ => None end.

Definition flt (a b : float) : bool :=
  match a, b with Some x, Some y => Qltb x y | _, _ => false end.

(** [np.where(s < bound, bound, s)] *)
Definition np_where_lt (vs : list float) (bound : float) : list float :=
  map (fun v => if flt v bound then bound else v) vs.

(** [np.where(s > bound, bound, s)] *)
Definition np_where_gt (vs : list float) (bound : float) : list float :=
  map (fun v => if flt bound v then bound else v) vs.

(** [((s < lower) | (s > upper)).sum()] *)
Definition outliers_count (vs : list float) (lower upper : float) : nat :=
  length (filter (fun v => flt v lower || flt upper v) vs).

Definition lower_bound (vs : list float) : float :=
  let q1 := quantile vs (1 # 4) in
  let q3 := quantile vs (3 # 4) in
  let iqr := fsub q3 q1 in
  fsub q1 (fmul (Some (3 # 2)) iqr).

Definition upper_bound (vs : list float) : float :=
  let q1 := quantile vs (1 # 4) in
  let q3 := quantile vs (3 # 4) in
  let iqr := fsub q3 q1 in
  fadd q3 (fmul (Some (3 # 2)) iqr).

(** The three branches of step 3, by dtype. *)
Definition impute_column (c : column) : column :=
  match c with
  | Numeric vs =>
      (* is_numeric_dtype: median *)
      Numeric (fillna vs (median vs))
  | Temporal vs =>
      (* is_datetime64_any_dtype: mode, or NaT *)
      Temporal (fillna vs (mode_or Z.eqb Z.leb vs None))
  | Categorical vs =>
      (* otherwise: mode, or the placeholder *)
      Categorical (fillna vs (mode_or String.eqb String.leb vs
                                      (Some "Missing"%string)))
  end.

Section Cleansing.

(** The date parser behind [pd.to_datetime], on one string: [None] when
    the string is not a date (the call raises), [Some None] when pandas
    reads the string as a missing date (["NaT"], ["nan"], the empty
    string), and [Some (Some t)] for the timestamp [t]. *)
Variable parse_datetime : string -> option (option Z).

Fixpoint parse_all (vs : list (option string)) : option (list (option Z)) :=
  match vs with
  | [] => Some []
  | None :: vs' => option_map (cons None) (parse_all vs')
  | Some s :: vs' =>
      match parse_datetime s, parse_all vs' with
      | Some t, Some ts => Some (t :: ts)
      | _, _ => None
      end
  end.

(** [pd.to_datetime(s, errors='ignore')]: the parsed column when every
    non-missing value parses (missing values become NaT), and the input
    as it is otherwise. *)
Definition to_datetime_ignore (c : column) : column :=
  match c with
  | Categorical vs =>
      match parse_all vs with
      | Some ts => Temporal ts
      | None => c
      end
  | _ => c
  end.

(** Loop body of step 2. *)
Definition convert_body (df : loc) (col : string) (_ : unit) : M unit :=
  c <- read_col df col ;;
  if is_object_dtype c
  then write_col df col (to_datetime_ignore c)
  else ret tt.

(** Loop body of step 3. *)
Definition impute_body (df : loc) (col : string) (missing_imputed : nat)
    : M nat :=
  c <- read_col df col ;;
  if (0 <? isnull_sum c)%nat
  then
    let missing_imputed := (missing_imputed + isnull_sum c)%nat in
    write_col df col (impute_column c) ;;;
    ret missing_imputed
  else ret missing_imputed.

(** Loop body of step 4; comparing a non-numeric column with a float
    bound is a [TypeError]. *)
Definition cap_body (df : loc) (col : string) (outliers_handled : nat)
    : M nat :=
  c <- read_col df col ;;
  match c with
  | Numeric vs =>
      let lower := lower_bound vs in
      let upper := upper_bound vs in
      let outliers_handled :=
        (outliers_handled + outliers_count vs lower upper)%nat in
      write_col df col (Numeric (np_where_lt vs lower)) ;;;
      c' <- read_col df col ;;
      match c' with
      | Numeric vs' =>
          write_col df col (Numeric (np_where_gt vs' upper)) ;;;
          ret outliers_handled
      | _ => raise
      end
  | _ => raise
  end.

Definition perform_etl (df : loc) : M (loc * etl_stats) :=
  (* 1. Remove duplicates *)
  d <- load df ;;
  let initial_rows := n_rows d in
  df <- new (drop_duplicates d) ;;
  d <- load df ;;
  let duplicates_removed := (initial_rows - n_rows d)%nat in
  (* 2. Convert to datetime if applicable *)
  for_each (column_names d) (convert_body df) tt ;;;
  (* 3. Impute missing values *)
  d <- load df ;;
  missing_imputed <- for_each (column_names d) (impute_body df) 0%nat ;;
  (* 4. Cap outliers of the numeric columns *)
  d <- load df ;;
  outliers_handled <-
    for_each (column_names (select_number d)) (cap_body df) 0%nat ;;
  ret (df, mkStats duplicates_removed missing_imputed outliers_handled).

(** The cleansing engine run on a caller's table: the caller holds the
    raw table at location 0 of a store of its own. *)
Definition cleanse (raw : DataFrame) : option (DataFrame * etl_stats) :=
  match perform_etl 0%nat [raw] with
  | Some ((l, stats), s) =>
      match nth_error s l with
      | Some cleaned => Some (cleaned, stats)
      | None => None
      end
  | None => None
  end.

(** *** The same steps as functions on frames *)

(** One iteration that reads column [col], possibly writes it back, and
    adds to a counter. *)
Definition step_col (f : column -> option column * nat) (col : string)
    (st : DataFrame * nat) : DataFrame * nat :=
  match getitem (fst st) col with
  | Some c =>
      (match fst (f c) with
       | Some c' => setitem (fst st) col c'
       | None => fst st
       end, (snd st + snd (f c))%nat)
  | None => st
  end.

Definition convert_action (c : column) : option column * nat :=
  (if is_object_dtype c then Some (to_datetime_ignore c) else None, 0%nat).

Definition impute_action (c : column) : option column * nat :=
  if (0 <? isnull_sum c)%nat
  then (Some (impute_column c), isnull_sum c)
  else (None, 0%nat).

Definition cap_column (c : column) : column :=
  match c with
  | Numeric vs =>
      Numeric (np_where_gt (np_where_lt vs (lower_bound vs)) (upper_bound vs))
  | _ => c
  end.

Definition column_outliers (c : column) : nat :=
  match c with
  | Numeric vs => outliers_count vs (lower_bound vs) (upper_bound vs)
  | _ => 0%nat
  end.

Definition cap_action (c : column) : option column * nat :=
  (Some (cap_column c), column_outliers c).

Definition loop_cols (f : column -> option column * nat) (names : list string)
    (st : DataFrame * nat) : DataFrame * nat :=
  fold_left (fun st col => step_col f col st) names st.

Definition etl_by_name (raw : DataFrame) : DataFrame * etl_stats :=
  let d1 := drop_duplicates raw in
  let s2 := loop_cols convert_action (column_names d1) (d1, 0%nat) in
  let s3 := loop_cols impute_action (column_names (fst s2)) (fst s2, 0%nat) in
  let s4 := loop_cols cap_action (column_names (select_number (fst s3)))
                      (fst s3, 0%nat) in
  (fst s4, mkStats (n_rows raw - n_rows d1) (snd s3) (snd s4)).

(** The steps column by column, for frames with unique column names. *)
Definition map_columns (f : column -> column) (df : DataFrame) : DataFrame :=
  mkDF (n_rows df) (map (fun nc => (fst nc, f (snd nc))) (columns df)).

Definition sum_columns (g : column -> nat) (df : DataFrame) : nat :=
  fold_right Nat.add 0%nat (map (fun nc => g (snd nc)) (columns df)).

Definition convert_column (c : column) : column :=
  if is_object_dtype c then to_datetime_ignore c else c.

Definition fill_column (c : column) : column :=
  if (0 <? isnull_sum c)%nat then impute_column c else c.

Definition converted (raw : DataFrame) : DataFrame :=
  map_columns convert_column (drop_duplicates raw).

Definition imputed (raw : DataFrame) : DataFrame :=
  map_columns fill_column (converted raw).

Definition etl (raw : DataFrame) : DataFrame * etl_stats :=
  (map_columns cap_column (imputed raw),
   mkStats (n_rows raw - n_rows (drop_duplicates raw))
           (sum_columns isnull_sum (converted raw))
           (sum_columns column_outliers (imputed raw))).

End Cleansing.

(** Every name of [names] is a numeric column of [d]. *)
Definition numeric_at (names : list string) (d : DataFrame) : Prop :=
  forall col, In col names -> exists vs, getitem d col = Some (Numeric vs).

(** The column an iteration leaves: the written one, or the old one. *)
Definition apply_action (f : column -> option column * nat) (c : column)
    : column :=
  match fst (f c) with
  | Some c' => c'
  | None => c
  end.

(** ** Statistics engine ([stats.py], [generate_descriptive_stats]) *)

Definition Qsum (xs : list Q) : Q := fold_right Qplus 0 xs.

(** Mean of a list; NaN for the empty list. *)
Definition mean_of (xs : list Q) : float :=
  if (length xs =? 0)%nat then None else Some (Qsum xs / nQ (length xs)).

(** Sum of the [k]-th powers of the deviations from [m]. *)
Definition dev_pow_sum (k : positive) (m : Q) (xs : list Q) : Q :=
  Qsum (map (fun x => Qpower_positive (x - m) k) xs).

(** [k]-th central moment (biased), as scipy's [moment]. *)
Definition central_moment (k : positive) (xs : list Q) : float :=
  match mean_of xs with
  | Some m => Some (dev_pow_sum k m xs / nQ (length xs))
  | None => None
  end.

(** [s.mean()], [s.median()], [s.min()], [s.max()], [s.var()]; missing
    values are skipped. *)
Definition series_mean (vs : list float) : float := mean_of (dropna vs).

Definition series_min (vs : list float) : float :=
  match sort_by Qle_bool (dropna vs) with
  | [] => None
  | x :: _ => Some x
  end.

Definition series_max (vs : list float) : float :=
  match rev (sort_by Qle_bool (dropna vs)) with
  | [] => None
  | x :: _ => Some x
  end.

(** Sample variance (ddof = 1): NaN with fewer than two values. *)
Definition series_var (vs : list float) : float :=
  let xs := dropna vs in
  match mean_of xs with
  | Some m =>
      if (length xs <? 2)%nat then None
      else Some (dev_pow_sum 2 m xs / nQ (length xs - 1))
  | None => None
  end.

Record stats_row : Type := mkRow {
  Column : string;
  Mean : float;
  Median : float;
  Std_Dev : float;
  Min : float;
  Max : float;
  Skewness : float;
  Kurtosis : float
}.

(** What the engine returns: Python's [None], or the frame of rows. *)
Inductive stats_result : Type :=
| NoNumericData
| StatsFrame (rows : list stats_row).

Section Statistics.

(** Floating-point square root and [x ** 1.5]. *)
Variable fsqrt : Q -> Q.
Variable fpow15 : Q -> Q.

(** [s.std()] *)
Definition series_std (vs : list float) : float :=
  option_map fsqrt (series_var vs).

(** [scipy.stats.skew(s, nan_policy='omit')]: m3 / m2 ** 1.5, NaN when
    the second moment vanishes or there is no data. *)
Definition skew (vs : list float) : float :=
  let xs := dropna vs in
  match central_moment 2 xs, central_moment 3 xs with
  | Some m2, Some m3 =>
      if Qeq_bool m2 0 then None else Some (m3 / fpow15 m2)
  | _, _ => None
  end.

(** [scipy.stats.kurtosis(s, nan_policy='omit')]: m4 / m2 ** 2 - 3. *)
Definition kurtosis (vs : list float) : float :=
  let xs := dropna vs in
  match central_moment 2 xs, central_moment 4 xs with
  | Some m2, Some m4 =>
      if Qeq_bool m2 0 then None else Some (m4 / (m2 * m2) - 3)
  | _, _ => None
  end.

(** One dictionary of [stats_list]. *)
Definition describe_numeric (col : string) (col_data : list float)
    : stats_row :=
  mkRow col (series_mean col_data) (median col_data)
        (series_std col_data) (series_min col_data)
        (series_max col_data) (skew col_data) (kurtosis col_data).

(** One iteration: [col_data = df[col]] and the dictionary; the
    reductions are defined on numeric data, anything else raises. *)
Definition describe_column (df : DataFrame) (col : string)
    : option stats_row :=
  match getitem df col with
  | Some (Numeric col_data) => Some (describe_numeric col col_data)
  | _ => None
  end.

(** [stats_list] after the loop; [None] when an iteration raises. *)
Fixpoint describe_all (df : DataFrame) (numerical_cols : list string)
    : option (list stats_row) :=
  match numerical_cols with
  | [] => Some []
  | col :: rest =>
      match describe_column df col, describe_all df rest with
      | Some row, Some rows => Some (row :: rows)
      | _, _ => None
      end
  end.

Definition generate_descriptive_stats (df : DataFrame) : option stats_result :=
  let numerical_cols := column_names (select_number df) in
  if (length numerical_cols =? 0)%nat then Some NoNumericData
  else option_map StatsFrame (describe_all df numerical_cols).

End Statistics.

(** ** Visualization selector ([visuals.py], [generate_visuals]) *)

Inductive chart_kind : Type :=
| Heatmap | Histogram | Scatter | Box | Bar | Pie | Violin | Line | Contour.

(** An entry of [figures]: the chart type and the columns the figure and
    its interpretation text are built from. *)
Record figure : Type := mkFigure {
  fig_type : chart_kind;
  fig_columns : list string
}.

(** The numeric data of a column (of a numeric frame). *)
Definition numeric_values (c : column) : list float :=
  match c with Numeric vs => vs | _ => [] end.

(** The rows on which both series have a value. *)
Fixpoint complete_pairs (xs ys : list float) : list (Q * Q) :=
  match xs, ys with
  | Some x :: xs', Some y :: ys' => (x, y) :: complete_pairs xs' ys'
  | _ :: xs', _ :: ys' => complete_pairs xs' ys'
  | _, _ => []
  end.

(** Square of the Pearson correlation of two series over their complete
    pairs; NaN when there is no pair or a variance vanishes.  The
    selector only compares absolute correlations with each other and
    with 1, and [abs r < abs r'] iff [r * r < r' * r'], so the square
    stands for [corr.abs()] without a square root. *)
Definition corr_sq (xs ys : list float) : float :=
  let ps := complete_pairs xs ys in
  match mean_of (map fst ps), mean_of (map snd ps) with
  | Some mx, Some my =>
      let sxx := Qsum (map (fun p => (fst p - mx) * (fst p - mx)) ps) in
      let syy := Qsum (map (fun p => (snd p - my) * (snd p - my)) ps) in
      let sxy := Qsum (map (fun p => (fst p - mx) * (snd p - my)) ps) in
      if Qeq_bool (sxx * syy) 0 then None
      else Some (sxy * sxy / (sxx * syy))
  | _, _ => None
  end.

(** [corr.abs().unstack()]: one entry per (column, row) label pair,
    column by column. *)
Definition corr_abs_unstack (numeric_df : DataFrame)
    : list ((string * string) * float) :=
  flat_map (fun c1 =>
    map (fun c2 => ((fst c1, fst c2),
                    corr_sq (numeric_values (snd c2)) (numeric_values (snd c1))))
        (columns numeric_df))
    (columns numeric_df).

(** [s[s < 1]] *)
Definition below_one {K : Type} (s : list (K * float)) : list (K * float) :=
  filter (fun kv => flt (snd kv) (Some 1)) s.

(** [s.idxmax()]: the label of the first largest non-missing value; NaN
    ([None]) when every value is missing. *)
Fixpoint idxmax_from {K : Type} (best : option (K * Q)) (s : list (K * float))
    : option K :=
  match s with
  | [] => option_map fst best
  | (k, Some v) :: s' =>
      match best with
      | Some (_, b) =>
          if Qltb b v then idxmax_from (Some (k, v)) s' else idxmax_from best s'
      | None => idxmax_from (Some (k, v)) s'
      end
  | (_, None) :: s' => idxmax_from best s'
  end.

Definition idxmax {K : Type} (s : list (K * float)) : option K :=
  idxmax_from None s.

(** [s.idxmin()] *)
Fixpoint idxmin_from {K : Type} (best : option (K * Q)) (s : list (K * float))
    : option K :=
  match s with
  | [] => option_map fst best
  | (k, Some v) :: s' =>
      match best with
      | Some (_, b) =>
          if Qltb v b then idxmin_from (Some (k, v)) s' else idxmin_from best s'
      | None => idxmin_from (Some (k, v)) s'
      end
  | (_, None) :: s' => idxmin_from best s'
  end.

Definition idxmin {K : Type} (s : list (K * float)) : option K :=
  idxmin_from None s.

(** [numeric_df.var()] *)
Definition frame_var (numeric_df : DataFrame) : list (string * float) :=
  map (fun nc => (fst nc, series_var (numeric_values (snd nc))))
      (columns numeric_df).

(** [s.nunique()] of an object column: distinct non-missing values. *)
Definition nunique (c : column) : nat :=
  match c with
  | Categorical vs => length (unique String.eqb (dropna vs))
  | Temporal vs => length (unique Z.eqb (dropna vs))
  | Numeric vs => length (unique Qeq_bool (dropna vs))
  end.

(** [cat_df.nunique()] *)
Definition frame_nunique (cat_df : DataFrame) : list (string * nat) :=
  map (fun nc => (fst nc, nunique (snd nc))) (columns cat_df).

Definition as_floats {K : Type} (s : list (K * nat)) : list (K * float) :=
  map (fun kv => (fst kv, Some (nQ (snd kv)))) s.

(** The selector.  [None] is a raised exception: plotly raises a
    [ValueError] for a column argument that is not a column name, which
    is what [idxmax] hands over when every variance is NaN.  Column names
    are taken not to collide with the names the plotting code adds: with
    a numeric column called [value] the box rule raises in [pd.melt], and
    with a text column called [Count] or [count] the bar rule raises;
    the selector below returns on such tables when the histogram rule
    does. *)
Definition generate_visuals (df : DataFrame) : option (list figure) :=
  let figures := [] in
  let numeric_df := select_number df in
  let cat_df := select_object df in
  (* 1. Correlation heatmap; corr_unstacked is bound only here *)
  let figures :=
    if (1 <? n_cols numeric_df)%nat
    then figures ++ [mkFigure Heatmap (column_names numeric_df)]
    else figures in
  let corr_unstacked :=
    if (1 <? n_cols numeric_df)%nat
    then Some (below_one (corr_abs_unstack numeric_df))
    else None in
  (* 2. Histogram *)
  let histogram :=
    if negb (df_empty numeric_df)
    then match idxmax (frame_var numeric_df) with
         | Some target_col => Some [mkFigure Histogram [target_col]]
         | None => None
         end
    else Some [] in
  match histogram with
  | None => None
  | Some hist =>
    let figures := figures ++ hist in
    (* the pair of rules 3 and 9 *)
    let pair :=
      if (1 <? n_cols numeric_df)%nat
      then match corr_unstacked with
           | Some (e :: es) => idxmax (e :: es)
           | _ => None
           end
      else None in
    (* 3. Scatter plot *)
    let figures :=
      match pair with
      | Some (col1, col2) => figures ++ [mkFigure Scatter [col1; col2]]
      | None => figures
      end in
    (* 4. Box plot *)
    let figures :=
      if (0 <? n_cols numeric_df)%nat
      then figures ++ [mkFigure Box (firstn 5 (column_names numeric_df))]
      else figures in
    (* 5. Bar chart *)
    let figures :=
      if negb (df_empty cat_df)
      then
        let valid_cat_cols :=
          filter (fun kv => (1 <? snd kv)%nat && (snd kv <=? 20)%nat)
                 (frame_nunique cat_df) in
        match idxmax (as_floats valid_cat_cols) with
        | Some target_cat => figures ++ [mkFigure Bar [target_cat]]
        | None => figures
        end
      else figures in
    (* 6. Pie chart *)
    let figures :=
      if negb (df_empty cat_df)
      then
        let valid_pie_cols :=
          filter (fun kv => (1 <? snd kv)%nat && (snd kv <=? 5)%nat)
                 (frame_nunique cat_df) in
        match idxmin (as_floats valid_pie_cols) with
        | Some pie_cat => figures ++ [mkFigure Pie [pie_cat]]
        | None => figures
        end
      else figures in
    (* 7. Violin plot *)
    let figures :=
      if (0 <? n_cols numeric_df)%nat
      then match nth_error (column_names numeric_df)
                           (Nat.min 1 (n_cols numeric_df - 1)) with
           | Some target_col_violin =>
               figures ++ [mkFigure Violin [target_col_violin]]
           | None => figures
           end
      else figures in
    (* 8. Line chart *)
    let figures :=
      if (0 <? n_cols numeric_df)%nat
      then match nth_error (column_names numeric_df) 0 with
           | Some target_col_line => figures ++ [mkFigure Line [target_col_line]]
           | None => figures
           end
      else figures in
    (* 9. Density contour *)
    let figures :=
      match pair with
      | Some (col1, col2) => figures ++ [mkFigure Contour [col1; col2]]
      | None => figures
      end in
    Some figures
  end.

(** ** Checks and sample tables *)

Fixpoint distinct_names (names : list string) : bool :=
  match names with
  | [] => true
  | a :: names' => negb (existsb (String.eqb a) names') && distinct_names names'
  end.

(** [well_formed] as a computation. *)
Definition well_formed_b (df : DataFrame) : bool :=
  forallb (fun nc => (col_length (snd nc) =? n_rows df)%nat) (columns df)
  && distinct_names (column_names df).

(** A parser for tables whose text holds no dates: no string parses. *)
Definition no_dates (s : string) : option (option Z) := None.

(** The 4 x 2 example of the specification. *)
Definition sample_table : DataFrame :=
  mkDF 4 [("A"%string, Numeric [Some 1; Some 2; Some 2; Some 100]);
          ("B"%string, Categorical [Some "x"; Some "y"; Some "y"; Some "z"]%string)].

(** What the engine makes of a column without rows: an empty text column
    parses as dates. *)
Definition empty_retype (c : column) : column :=
  match c with
  | Categorical _ => Temporal []
  | _ => c
  end.

(** A header-only table with one text column. *)
Definition empty_text_table : DataFrame :=
  mkDF 0 [("C"%string, Categorical [])].

(** A numeric column without a single value next to a complete one. *)
Definition blank_column_table : DataFrame :=
  mkDF 3 [("id"%string, Numeric [Some 1; Some 2; Some 3]);
          ("score"%string, Numeric [None; None; None])].

(** One row, one numeric column. *)
Definition single_row_table : DataFrame :=
  mkDF 1 [("A"%string, Numeric [Some 5])].

(** [B] is twice [A]; [C] follows neither exactly. *)
Definition doubled_column_table : DataFrame :=
  mkDF 4 [("A"%string, Numeric [Some 1; Some 3; Some 2; Some 6]);
          ("B"%string, Numeric [Some 2; Some 6; Some 4; Some 12]);
          ("C"%string, Numeric [Some 1; Some 3; Some 2; Some 5])].

(** Two columns, the second twice the first. *)
Definition two_column_table : DataFrame :=
  mkDF 3 [("A"%string, Numeric [Some 1; Some 3; Some 2]);
          ("B"%string, Numeric [Some 2; Some 6; Some 4])].

(** The mode as the specification words its tie-break: among the most
    frequent values, the first one met in row order. *)
Module ModeSpec.

Definition first_mode {A : Type} (eqb : A -> A -> bool) (vs : list (option A))
    : option A :=
  let xs := dropna vs in
  let top := fold_right Nat.max 0%nat (map (fun x => occurrences eqb x xs) xs) in
  find (fun x => (occurrences eqb x xs =? top)%nat) xs.

End ModeSpec.

(** A text column whose two values tie, the larger one first. *)
Definition tie_table : DataFrame :=
  mkDF 3 [("C"%string, Categorical [Some "b"; Some "a"; None]%string)].

(** A series whose non-missing values are all the same number. *)
Definition constant_series (vs : list float) : Prop :=
  forall x y, In x (dropna vs) -> In y (dropna vs) -> x == y.

(** Stand-ins for the two floating-point functions of the statistics. *)
Definition sample_sqrt (x : Q) : Q := x.
Definition sample_pow15 (x : Q) : Q := x.

(** A constant numeric column. *)
Definition constant_table : DataFrame :=
  mkDF 2 [("A"%string, Numeric [Some 5; Some 5])].

(** ** Missing and present values *)

Definition cell_missing (x : cell) : bool :=
  match x with
  | CNum v => is_none v
  | CTime v => is_none v
  | CStr v => is_none v
  end.

(** The column has at least one non-missing value. *)
Definition column_has_value (c : column) : bool :=
  existsb (fun x => negb (cell_missing x)) (cells c).

(** [df.duplicated().any()] *)
Definition has_duplicates (df : DataFrame) : bool :=
  existsb (fun b => b) (duplicated df).



(** ** Cells that decide a second run *)

(** pandas reads the string as a missing date. *)
Definition reads_as_nat (parse_datetime : string -> option (option Z))
    (s : string) : bool :=
  match parse_datetime s with
  | Some None => true
  | _ => false
  end.





(** No string of the column is read as a missing date. *)
Definition no_nat_strings (parse_datetime : string -> option (option Z))
    (c : column) : bool :=
  forallb (fun x => match x with
                    | CStr (Some s) => negb (reads_as_nat parse_datetime s)
                    | _ => true
                    end) (cells c).



(** ** Notions used to state further properties *)

(** *** The nine rules of the selector, one by one

    Each rule as the list of figures it appends; the histogram rule may
    raise. *)

(** The pair of rules 3 and 9: the label of the largest entry left of
    the absolute correlations, when there is one. *)
Definition strongest_pair (numeric_df : DataFrame) : option (string * string) :=
  if (1 <? n_cols numeric_df)%nat
  then match below_one (corr_abs_unstack numeric_df) with
       | e :: es => idxmax (e :: es)
       | [] => None
       end
  else None.

Definition heatmap_rule (df : DataFrame) : list figure :=
  if (1 <? n_cols (select_number df))%nat
  then [mkFigure Heatmap (column_names (select_number df))]
  else [].

Definition histogram_rule (df : DataFrame) : option (list figure) :=
  if negb (df_empty (select_number df))
  then match idxmax (frame_var (select_number df)) with
       | Some target_col => Some [mkFigure Histogram [target_col]]
       | None => None
       end
  else Some [].

Definition scatter_rule (df : DataFrame) : list figure :=
  match strongest_pair (select_number df) with
  | Some (col1, col2) => [mkFigure Scatter [col1; col2]]
  | None => []
  end.

Definition box_rule (df : DataFrame) : list figure :=
  if (0 <? n_cols (select_number df))%nat
  then [mkFigure Box (firstn 5 (column_names (select_number df)))]
  else [].

Definition valid_cat_cols (cat_df : DataFrame) (most : nat)
    : list (string * nat) :=
  filter (fun kv => (1 <? snd kv)%nat && (snd kv <=? most)%nat)
         (frame_nunique cat_df).

Definition bar_rule (df : DataFrame) : list figure :=
  if negb (df_empty (select_object df))
  then match idxmax (as_floats (valid_cat_cols (select_object df) 20)) with
       | Some target_cat => [mkFigure Bar [target_cat]]
       | None => []
       end
  else [].

Definition pie_rule (df : DataFrame) : list figure :=
  if negb (df_empty (select_object df))
  then match idxmin (as_floats (valid_cat_cols (select_object df) 5)) with
       | Some pie_cat => [mkFigure Pie [pie_cat]]
       | None => []
       end
  else [].

Definition violin_rule (df : DataFrame) : list figure :=
  if (0 <? n_cols (select_number df))%nat
  then match nth_error (column_names (select_number df))
                       (Nat.min 1 (n_cols (select_number df) - 1)) with
       | Some target_col_violin => [mkFigure Violin [target_col_violin]]
       | None => []
       end
  else [].

Definition line_rule (df : DataFrame) : list figure :=
  if (0 <? n_cols (select_number df))%nat
  then match nth_error (column_names (select_number df)) 0 with
       | Some target_col_line => [mkFigure Line [target_col_line]]
       | None => []
       end
  else [].

Definition contour_rule (df : DataFrame) : list figure :=
  match strongest_pair (select_number df) with
  | Some (col1, col2) => [mkFigure Contour [col1; col2]]
  | None => []
  end.

(** The figures of the rules after the histogram. *)
Definition later_rules (df : DataFrame) : list figure :=
  scatter_rule df ++ box_rule df ++ bar_rule df ++ pie_rule df
  ++ violin_rule df ++ line_rule df ++ contour_rule df.

Definition chart_kind_eqb (a b : chart_kind) : bool :=
  match a, b with
  | Heatmap, Heatmap | Histogram, Histogram | Scatter, Scatter
  | Box, Box | Bar, Bar | Pie, Pie | Violin, Violin | Line, Line
  | Contour, Contour => true
  | _, _ => false
  end.

(** [l1] is [l2] with some entries left out. *)
Fixpoint subsequence (l1 l2 : list chart_kind) : bool :=
  match l1, l2 with
  | [], _ => true
  | _ :: _, [] => false
  | a :: l1', b :: l2' =>
      if chart_kind_eqb a b then subsequence l1' l2' else subsequence l1 l2'
  end.

(** The chart types in the order of the rules. *)
Definition rule_order : list chart_kind :=
  [Heatmap; Histogram; Scatter; Box; Bar; Pie; Violin; Line; Contour].

(** Some figure of the list has the given type. *)
Definition has_kind (k : chart_kind) (figs : list figure) : bool :=
  existsb (fun f => chart_kind_eqb (fig_type f) k) figs.

(** The chart type [k] when the rule fires. *)
Definition when (b : bool) (k : chart_kind) : list chart_kind :=
  if b then [k] else [].

Definition is_some {A : Type} (o : option A) : bool :=
  match o with Some _ => true | None => false end.

(** [not s.empty] *)
Definition nonempty {A : Type} (l : list A) : bool :=
  match l with [] => false | _ :: _ => true end.

(** The column may stand in a figure of the given type: a text column
    for a bar or a pie chart, a numeric column for the others. *)
Definition fits_kind (k : chart_kind) (c : column) : bool :=
  match k with
  | Bar | Pie => is_object_dtype c
  | _ => is_numeric_dtype c
  end.

(** The rule a chart type comes from, as the figures it appends. *)
Definition rule_of (k : chart_kind) (df : DataFrame) : list figure :=
  match k with
  | Heatmap => heatmap_rule df
  | Histogram => match histogram_rule df with Some hist => hist | None => [] end
  | Scatter => scatter_rule df
  | Box => box_rule df
  | Bar => bar_rule df
  | Pie => pie_rule df
  | Violin => violin_rule df
  | Line => line_rule df
  | Contour => contour_rule df
  end.

(** A table with a numeric column of two values and a text column of
    two. *)
Definition mixed_table : DataFrame :=
  mkDF 3 [("n"%string, Numeric [Some 1; Some 4; Some 2]);
          ("c"%string, Categorical [Some "u"; Some "v"; Some "u"]%string)].

(** The figures the selector returns for [mixed_table] and for
    [doubled_column_table]. *)
Definition mixed_table_figures : list figure :=
  [mkFigure Histogram ["n"%string]; mkFigure Box ["n"%string];
   mkFigure Bar ["c"%string]; mkFigure Pie ["c"%string];
   mkFigure Violin ["n"%string]; mkFigure Line ["n"%string]].

Definition doubled_column_figures : list figure :=
  [mkFigure Heatmap ["A"; "B"; "C"]%string;
   mkFigure Histogram ["B"%string];
   mkFigure Scatter ["A"; "C"]%string;
   mkFigure Box ["A"; "B"; "C"]%string;
   mkFigure Violin ["B"%string];
   mkFigure Line ["A"%string];
   mkFigure Contour ["A"; "C"]%string].

(** ** The loader ([etl.py], [load_data]) and the processing pipeline
    ([app.py]) *)

(** [s.endswith(suffix)] *)
Definition endswith (s suffix : string) : bool :=
  (String.length suffix <=? String.length s)%nat
  && String.eqb (substring (String.length s - String.length suffix)
                           (String.length suffix) s)
                suffix.

(** Python's truth value of the [err] the loader returns: [None] and the
    empty string are false. *)
Definition truthy (err : option string) : bool :=
  match err with
  | Some e => negb (String.eqb e "")
  | None => false
  end.

(** What the pipeline stores in [st.session_state]. *)
Record session_state : Type := mkSession {
  st_df_clean : DataFrame;
  st_etl_stats : etl_stats;
  st_stats_df : stats_result;
  st_health_score : Q;
  st_figures : list figure
}.

(** How a run of the upload block ends. *)
Inductive outcome : Type :=
| ErrorShown (err : string)      (* st.error, nothing processed *)
| Raised                         (* an uncaught exception *)
| Processed (s : session_state).

Section Pipeline.

(** The uploaded file, its name, and the two pandas readers; a reader
    returns the table or the message [str(e)] of the exception it
    raises. *)
Variable uploaded : Type.
Variable file_name : uploaded -> string.
Variable read_csv : uploaded -> DataFrame + string.
Variable read_excel : uploaded -> DataFrame + string.

Variable parse_datetime : string -> option (option Z).
Variable fsqrt : Q -> Q.
Variable fpow15 : Q -> Q.

Definition load_data (uploaded_file : uploaded)
    : option DataFrame * option string :=
  if endswith (file_name uploaded_file) ".csv"
  then match read_csv uploaded_file with
       | inl df => (Some df, None)
       | inr e => (None, Some e)
       end
  else if endswith (file_name uploaded_file) ".xls"
          || endswith (file_name uploaded_file) ".xlsx"
  then match read_excel uploaded_file with
       | inl df => (Some df, None)
       | inr e => (None, Some e)
       end
  else (None, Some "Unsupported file format."%string).

(** The calls of the processing pipeline on a loaded table, in order;
    [None] when one of them raises. *)
Definition analyze (df_raw : DataFrame) : option session_state :=
  match cleanse parse_datetime df_raw with
  | Some (df_clean, etl_stats) =>
      match generate_descriptive_stats fsqrt fpow15 df_clean with
      | Some stats_df =>
          let health_score :=
            calculate_health_score df_raw df_clean etl_stats in
          match generate_visuals df_clean with
          | Some figures =>
              Some (mkSession df_clean etl_stats stats_df health_score figures)
          | None => None
          end
      | None => None
      end
  | None => None
  end.

(** The upload block: load, then either report the error or process;
    [perform_etl(None)] raises. *)
Definition process_upload (uploaded_file : uploaded) : outcome :=
  let (df_raw, err) := load_data uploaded_file in
  if truthy err
  then ErrorShown (match err with Some e => e | None => ""%string end)
  else match df_raw with
       | Some df_raw =>
           match analyze df_raw with
           | Some s => Processed s
           | None => Raised
           end
       | None => Raised
       end.

End Pipeline.

(** Readers for examples: the name is the upload, a reader that returns
    a fixed table and one that fails without a message. *)
Definition reads (df : DataFrame) (f : string) : DataFrame + string := inl df.
Definition fails_silently (f : string) : DataFrame + string := inr ""%string.
(** *** Rounding facts *)

Lemma round_half_even_Z (z : Z) : round_half_even (inject_Z z) = z.
Proof.
  unfold round_half_even. rewrite Qfloor_Z.
  assert (H : inject_Z z - inject_Z z == 0) by ring.
  rewrite H. reflexivity.
Qed.

Lemma round_half_even_bounds (x : Q) :
  (Qfloor x <= round_half_even x <= Qfloor x + 1)%Z.
Proof.
  unfold round_half_even.
  destruct (Qcompare (x - inject_Z (Qfloor x)) (1 # 2)); try lia.
  destruct (Z.even (Qfloor x)); lia.
Qed.

Lemma round_half_even_comp (x y : Q) :
  x == y -> round_half_even x = round_half_even y.
Proof.
  intros E. unfold round_half_even.
  assert (F : Qfloor x = Qfloor y).
  { apply Z.le_antisymm; apply Qfloor_resp_le; rewrite E; apply Qle_refl. }
  rewrite F.
  assert (C : Qcompare (x - inject_Z (Qfloor y)) (1 # 2)
              = Qcompare (y - inject_Z (Qfloor y)) (1 # 2)).
  { apply Qcompare_comp; [rewrite E; reflexivity | reflexivity]. }
  rewrite C. reflexivity.
Qed.

Lemma round_half_even_mono (x y : Q) :
  x <= y -> (round_half_even x <= round_half_even y)%Z.
Proof.
  intros L.
  pose proof (Qfloor_resp_le _ _ L) as FL.
  destruct (Z.eq_dec (Qfloor x) (Qfloor y)) as [E | N].
  - unfold round_half_even. rewrite E.
    destruct (Qcompare (x - inject_Z (Qfloor y)) (1 # 2)) eqn:Cx;
      destruct (Qcompare (y - inject_Z (Qfloor y)) (1 # 2)) eqn:Cy;
      try destruct (Z.even (Qfloor y)); try lia;
      exfalso;
      try apply Qeq_alt in Cx; try apply Qeq_alt in Cy;
      try rewrite <- Qlt_alt in Cx; try rewrite <- Qlt_alt in Cy;
      try rewrite <- Qgt_alt in Cx; try rewrite <- Qgt_alt in Cy;
      lra.
  - pose proof (round_half_even_bounds x). pose proof (round_half_even_bounds y).
    lia.
Qed.

Lemma Qltb_lt (a b : Q) : Qltb a b = true <-> a < b.
Proof.
  unfold Qltb. rewrite negb_true_iff, <- not_true_iff_false, Qle_bool_iff.
  split; [apply Qnot_le_lt | apply Qlt_not_le].
Qed.

Lemma Qltb_ge (a b : Q) : Qltb a b = false <-> b <= a.
Proof.
  unfold Qltb. rewrite negb_false_iff. apply Qle_bool_iff.
Qed.

Lemma py_max_Qmax (a b : Q) : py_max a b == Qmax a b.
Proof.
  unfold py_max. destruct (Qltb a b) eqn:E.
  - apply Qltb_lt in E. symmetry. apply Q.max_r. now apply Qlt_le_weak.
  - apply Qltb_ge in E. symmetry. now apply Q.max_l.
Qed.

Lemma py_min_Qmin (a b : Q) : py_min a b == Qmin a b.
Proof.
  unfold py_min. destruct (Qltb b a) eqn:E.
  - apply Qltb_lt in E. symmetry. apply Q.min_r. now apply Qlt_le_weak.
  - apply Qltb_ge in E. symmetry. now apply Q.min_l.
Qed.

Lemma round1_comp (x y : Q) : x == y -> round1 x = round1 y.
Proof.
  intros E. unfold round1. f_equal. f_equal.
  apply round_half_even_comp. now rewrite E.
Qed.

Lemma round1_mono (x y : Q) : x <= y -> round1 x <= round1 y.
Proof.
  intros L. unfold round1.
  assert (H : (round_half_even (x * 10) <= round_half_even (y * 10))%Z).
  { apply round_half_even_mono. lra. }
  rewrite Zle_Qle in H.
  apply Qmult_le_compat_r; [exact H | discriminate].
Qed.

Lemma round1_0 : round1 0 == 0.
Proof. reflexivity. Qed.

Lemma round1_100 : round1 100 == 100.
Proof. reflexivity. Qed.

(** Rounding first and clamping afterwards, as the code does, gives the
    clamped value rounded. *)
Lemma clamp_round1 (x : Q) :
  py_max 0 (py_min 100 (round1 x)) == round1 (HealthSpec.clamp x 0 100).
Proof.
  rewrite py_max_Qmax, py_min_Qmin. unfold HealthSpec.clamp.
  destruct (Qlt_le_dec x 0) as [Neg | Pos].
  - assert (Lx : x <= 0) by now apply Qlt_le_weak.
    pose proof (round1_mono _ _ Lx) as R0. rewrite round1_0 in R0.
    assert (E : Qmax 0 (Qmin 100 x) == 0).
    { apply Q.max_l. rewrite Q.min_r; lra. }
    rewrite (round1_comp _ _ E), round1_0.
    apply Q.max_l. rewrite Q.min_r; lra.
  - destruct (Qlt_le_dec 100 x) as [Big | Small].
    + assert (Lx : 100 <= x) by now apply Qlt_le_weak.
      pose proof (round1_mono _ _ Lx) as R1. rewrite round1_100 in R1.
      assert (E : Qmax 0 (Qmin 100 x) == 100).
      { rewrite Q.min_l by lra. apply Q.max_r. lra. }
      rewrite (round1_comp _ _ E), round1_100.
      rewrite Q.min_l by lra. apply Q.max_r. lra.
    + pose proof (round1_mono _ _ Pos) as R0. rewrite round1_0 in R0.
      pose proof (round1_mono _ _ Small) as R1. rewrite round1_100 in R1.
      assert (E : Qmax 0 (Qmin 100 x) == x).
      { rewrite Q.min_r by lra. apply Q.max_r. lra. }
      rewrite (round1_comp _ _ E).
      rewrite Q.min_r by lra. apply Q.max_r. lra.
Qed.

(** The scorer computes the specification's formula. *)
Lemma calculate_health_score_spec (df df_cleaned : DataFrame)
    (stats : etl_stats) :
  calculate_health_score df df_cleaned stats == HealthSpec.score df stats.
Proof.
  unfold calculate_health_score, HealthSpec.score, HealthSpec.score_with,
    HealthSpec.penalty.
  cbn [select_number n_rows].
  destruct (n_rows df * n_cols df =? 0)%nat eqn:C; [reflexivity |].
  apply Nat.eqb_neq in C.
  assert (R : (n_rows df =? 0)%nat = false) by (apply Nat.eqb_neq; lia).
  rewrite R. cbn [orb].
  set (nc := (n_rows df * n_cols (select_number df))%nat).
  assert (N : (0 <? nc)%nat = negb (nc =? 0)%nat).
  { destruct nc; reflexivity. }
  rewrite N. destruct (nc =? 0)%nat; cbn [negb]; apply clamp_round1.
Qed.

Lemma nQ_le (a b : nat) : (a <= b)%nat -> nQ a <= nQ b.
Proof.
  intros H. unfold nQ. rewrite <- Zle_Qle. lia.
Qed.

Lemma nQ_pos (a : nat) : (0 < a)%nat -> 0 < nQ a.
Proof.
  intros H. unfold nQ. change 0 with (inject_Z 0). rewrite <- Zlt_Qlt. lia.
Qed.

(** A penalty lies between 0 and its weight when its count does not
    exceed its denominator. *)
Lemma penalty_bounds (count denom : nat) (weight : Q) :
  (count <= denom)%nat -> 0 <= weight ->
  0 <= HealthSpec.penalty count denom weight <= weight.
Proof.
  intros L W. unfold HealthSpec.penalty.
  destruct (denom =? 0)%nat eqn:E.
  - split; [apply Qle_refl | exact W].
  - apply Nat.eqb_neq in E.
    assert (P : 0 < nQ denom) by (apply nQ_pos; lia).
    assert (C0 : 0 <= nQ count).
    { change 0 with (nQ 0). apply nQ_le. lia. }
    pose proof (nQ_le _ _ L) as CL.
    assert (R0 : 0 <= nQ count / nQ denom).
    { apply Qle_shift_div_l; [exact P |]. now rewrite Qmult_0_l. }
    assert (R1 : nQ count / nQ denom <= 1).
    { apply Qle_shift_div_r; [exact P |]. now rewrite Qmult_1_l. }
    split.
    + now apply Qmult_le_0_compat.
    + rewrite <- (Qmult_1_l weight) at 2.
      now apply Qmult_le_compat_r.
Qed.

Lemma truediv_nonzero (a : Q) (n : nat) :
  n <> 0%nat -> Checked.truediv a (nQ n) = Some (a / nQ n).
Proof.
  intros N. unfold Checked.truediv.
  destruct (Qeq_bool (nQ n) 0) eqn:E; [| reflexivity].
  apply Qeq_bool_iff in E.
  assert (P : 0 < nQ n) by (apply nQ_pos; lia). lra.
Qed.

(** With the rounding [round1], the scorer with Python's division
    returns the value of [calculate_health_score]. *)
Lemma checked_score_value (df df_cleaned : DataFrame) (stats : etl_stats) :
  Checked.calculate_health_score round1 df df_cleaned stats
  = Some (calculate_health_score df df_cleaned stats).
Proof.
  unfold Checked.calculate_health_score, calculate_health_score.
  destruct ((n_rows df * n_cols df =? 0)%nat || (n_rows df =? 0)%nat) eqn:Z;
    [reflexivity |].
  apply orb_false_iff in Z. destruct Z as [C R].
  apply Nat.eqb_neq in C. apply Nat.eqb_neq in R.
  rewrite !truediv_nonzero by assumption.
  destruct (0 <? n_rows (select_number df) * n_cols (select_number df))%nat
    eqn:N; [| reflexivity].
  apply Nat.ltb_lt in N. rewrite truediv_nonzero by lia. reflexivity.
Qed.

Section CheckedScorer.

(** Python's [round(x, 1)]: any rounding that is monotone and leaves 0
    and 100 as they are. *)
Variable round : Q -> Q.
Hypothesis round_mono : forall x y, x <= y -> round x <= round y.
Hypothesis round_0 : round 0 == 0.
Hypothesis round_100 : round 100 == 100.




End CheckedScorer.


(** ** The store *)

Lemma replace_nth_length {A : Type} (i : nat) (x : A) (l : list A) :
  length (replace_nth i x l) = length l.
Proof.
  revert i. induction l as [| y l IH]; intros [| i]; cbn; auto.
Qed.

Lemma nth_error_replace_nth_eq {A : Type} (i : nat) (x : A) (l : list A) :
  (i < length l)%nat -> nth_error (replace_nth i x l) i = Some x.
Proof.
  revert i. induction l as [| y l IH]; intros [| i] H; cbn in *;
    try lia; auto. apply IH. lia.
Qed.

Lemma nth_error_replace_nth_neq {A : Type} (i j : nat) (x : A) (l : list A) :
  i <> j -> nth_error (replace_nth i x l) j = nth_error l j.
Proof.
  revert i j. induction l as [| y l IH]; intros [| i] [| j] H; cbn;
    try congruence; auto.
Qed.

Lemma replace_nth_twice {A : Type} (i : nat) (x y : A) (l : list A) :
  replace_nth i y (replace_nth i x l) = replace_nth i y l.
Proof.
  revert i. induction l as [| z l IH]; intros [| i]; cbn; auto.
  now rewrite IH.
Qed.

Lemma replace_nth_same {A : Type} (i : nat) (x : A) (l : list A) :
  nth_error l i = Some x -> replace_nth i x l = l.
Proof.
  revert i. induction l as [| z l IH]; intros [| i] H; cbn in *;
    try congruence. now rewrite IH.
Qed.

Lemma replace_nth_last {A : Type} (x y : A) (l : list A) :
  replace_nth (length l) y (l ++ [x]) = l ++ [y].
Proof.
  induction l as [| z l IH]; cbn; auto. now rewrite IH.
Qed.

Lemma nth_error_lt {A : Type} (i : nat) (x : A) (l : list A) :
  nth_error l i = Some x -> (i < length l)%nat.
Proof.
  intros H. apply nth_error_Some. congruence.
Qed.

Lemma load_at (l : loc) (s : store) (d : DataFrame) :
  nth_error s l = Some d -> load l s = Some (d, s).
Proof.
  intros H. unfold load. now rewrite H.
Qed.

Lemma read_col_at (l : loc) (col : string) (s : store) (d : DataFrame)
    (c : column) :
  nth_error s l = Some d -> getitem d col = Some c ->
  read_col l col s = Some (c, s).
Proof.
  intros H G. unfold read_col, bind. rewrite (load_at _ _ _ H), G. reflexivity.
Qed.

Lemma write_col_at (l : loc) (col : string) (v : column) (s : store)
    (d : DataFrame) :
  nth_error s l = Some d ->
  write_col l col v s = Some (tt, replace_nth l (setitem d col v) s).
Proof.
  intros H. unfold write_col, bind, assign. rewrite (load_at _ _ _ H).
  apply nth_error_lt in H. apply Nat.ltb_lt in H. now rewrite H.
Qed.

(** A loop whose every iteration acts on the frame at [l] as [step] does
    acts on it as the iterated [step]. *)
Lemma for_each_step {S : Type} (l : loc) (Inv : DataFrame -> Prop)
    (body : string -> S -> M S)
    (step : string -> DataFrame * S -> DataFrame * S) (names : list string) :
  (forall col acc s d, In col names -> nth_error s l = Some d -> Inv d ->
     body col acc s
     = Some (snd (step col (d, acc)),
             replace_nth l (fst (step col (d, acc))) s)
     /\ Inv (fst (step col (d, acc)))) ->
  forall acc s d, nth_error s l = Some d -> Inv d ->
    let final := fold_left (fun st col => step col st) names (d, acc) in
    for_each names body acc s
    = Some (snd final, replace_nth l (fst final) s)
    /\ Inv (fst final).
Proof.
  induction names as [| col names IH]; intros Hbody acc s d Hs Hinv; cbn.
  - unfold ret. rewrite (replace_nth_same _ _ _ Hs). auto.
  - destruct (Hbody col acc s d (or_introl eq_refl) Hs Hinv) as [Eb Inv'].
    unfold bind. rewrite Eb.
    destruct (step col (d, acc)) as [d' acc'] eqn:Est. cbn [fst snd] in *.
    assert (Hs' : nth_error (replace_nth l d' s) l = Some d').
    { apply nth_error_replace_nth_eq. eapply nth_error_lt; eauto. }
    destruct (IH (fun c a s0 d0 Hin => Hbody c a s0 d0 (or_intror Hin))
                 acc' _ _ Hs' Inv') as [E I].
    rewrite E, replace_nth_twice. auto.
Qed.

(** ** Column access *)

Lemma getitem_in (df : DataFrame) (col : string) :
  In col (column_names df) -> exists c, getitem df col = Some c.
Proof.
  unfold getitem, column_names. destruct df as [n cols]. cbn.
  induction cols as [| [a c] cols IH]; cbn; [tauto |].
  intros [E | H].
  - subst. rewrite String.eqb_refl. cbn. eauto.
  - destruct (String.eqb a col); cbn; eauto.
Qed.

Lemma getitem_names (df : DataFrame) (col : string) (c : column) :
  getitem df col = Some c -> In col (column_names df).
Proof.
  unfold getitem, column_names. destruct df as [n cols]. cbn.
  induction cols as [| [a x] cols IH]; cbn; [discriminate |].
  destruct (String.eqb a col) eqn:E; cbn.
  - apply String.eqb_eq in E. auto.
  - auto.
Qed.

Lemma existsb_eqb_in (col : string) (names : list string) :
  existsb (String.eqb col) names = true <-> In col names.
Proof.
  rewrite existsb_exists. split.
  - intros [x [H E]]. apply String.eqb_eq in E. now subst.
  - intros H. exists col. split; auto. apply String.eqb_refl.
Qed.

Lemma setitem_columns (df : DataFrame) (col : string) (v : column) :
  In col (column_names df) ->
  setitem df col v
  = mkDF (n_rows df)
         (map (fun nc => if String.eqb (fst nc) col then (fst nc, v) else nc)
              (columns df)).
Proof.
  intros H. unfold setitem. apply existsb_eqb_in in H. now rewrite H.
Qed.

Lemma setitem_names (df : DataFrame) (col : string) (v : column) :
  In col (column_names df) ->
  column_names (setitem df col v) = column_names df.
Proof.
  intros H. rewrite (setitem_columns _ _ v H). unfold column_names. cbn.
  rewrite map_map. apply map_ext. intros [a c]. cbn.
  destruct (String.eqb a col); reflexivity.
Qed.

Lemma setitem_n_rows (df : DataFrame) (col : string) (v : column) :
  n_rows (setitem df col v) = n_rows df.
Proof.
  unfold setitem. destruct (existsb _ _); reflexivity.
Qed.

Lemma getitem_setitem_same (df : DataFrame) (col : string) (v : column) :
  In col (column_names df) -> getitem (setitem df col v) col = Some v.
Proof.
  intros H. rewrite (setitem_columns _ _ v H). unfold getitem, column_names in *.
  destruct df as [n cols]. cbn in *.
  induction cols as [| [a c] cols IH]; cbn in *; [tauto |].
  destruct (String.eqb a col) eqn:Ea; cbn.
  - rewrite Ea. reflexivity.
  - rewrite Ea. destruct H as [E | H].
    + subst. rewrite String.eqb_refl in Ea. discriminate.
    + apply IH, H.
Qed.

Lemma getitem_setitem_other (df : DataFrame) (col col' : string) (v : column) :
  In col (column_names df) -> col <> col' ->
  getitem (setitem df col v) col' = getitem df col'.
Proof.
  intros H N. rewrite (setitem_columns _ _ v H). unfold getitem, column_names in *.
  destruct df as [n cols]. cbn in *. clear H.
  induction cols as [| [a c] cols IH]; cbn in *; [reflexivity |].
  destruct (String.eqb a col) eqn:Ea; cbn.
  - apply String.eqb_eq in Ea. subst a.
    apply String.eqb_neq in N. rewrite N. apply IH.
  - destruct (String.eqb a col'); [reflexivity | apply IH].
Qed.

(** ** The cleansing engine, loop by loop *)

Lemma step_col_names (f : column -> option column * nat) (col : string)
    (st : DataFrame * nat) :
  column_names (fst (step_col f col st)) = column_names (fst st).
Proof.
  unfold step_col. destruct (getitem (fst st) col) as [c |] eqn:G; auto.
  cbn [fst]. destruct (fst (f c)); auto.
  apply setitem_names. eapply getitem_names; eauto.
Qed.

Lemma step_col_n_rows (f : column -> option column * nat) (col : string)
    (st : DataFrame * nat) :
  n_rows (fst (step_col f col st)) = n_rows (fst st).
Proof.
  unfold step_col. destruct (getitem (fst st) col) as [c |]; auto.
  cbn [fst]. destruct (fst (f c)); auto. apply setitem_n_rows.
Qed.

Lemma loop_cols_names (f : column -> option column * nat)
    (names : list string) (st : DataFrame * nat) :
  column_names (fst (loop_cols f names st)) = column_names (fst st).
Proof.
  unfold loop_cols. revert st.
  induction names as [| a names IH]; intros st; cbn; auto.
  rewrite IH. apply step_col_names.
Qed.

Lemma loop_cols_n_rows (f : column -> option column * nat)
    (names : list string) (st : DataFrame * nat) :
  n_rows (fst (loop_cols f names st)) = n_rows (fst st).
Proof.
  unfold loop_cols. revert st.
  induction names as [| a names IH]; intros st; cbn; auto.
  rewrite IH. apply step_col_n_rows.
Qed.

(** The frame a loop leaves does not depend on the counter it starts
    from. *)
Lemma step_col_fst (f : column -> option column * nat) (col : string)
    (d : DataFrame) (n m : nat) :
  fst (step_col f col (d, n)) = fst (step_col f col (d, m)).
Proof.
  unfold step_col. cbn [fst snd]. destruct (getitem d col); reflexivity.
Qed.

Lemma loop_cols_fst (f : column -> option column * nat) (names : list string)
    (d : DataFrame) (n m : nat) :
  fst (loop_cols f names (d, n)) = fst (loop_cols f names (d, m)).
Proof.
  unfold loop_cols. revert d n m.
  induction names as [| a names IH]; intros d n m; cbn; auto.
  destruct (step_col f a (d, n)) as [d1 n1] eqn:E1.
  destruct (step_col f a (d, m)) as [d2 n2] eqn:E2.
  assert (d1 = d2).
  { change d1 with (fst (d1, n1)). change d2 with (fst (d2, n2)).
    rewrite <- E1, <- E2. apply step_col_fst. }
  subst. apply IH.
Qed.

Lemma find_unique (cols : list (string * column)) (a : string) (c : column) :
  NoDup (map fst cols) -> In (a, c) cols ->
  find (fun nc => String.eqb (fst nc) a) cols = Some (a, c).
Proof.
  induction cols as [| [b x] cols IH]; cbn; [tauto |].
  intros ND [E | H].
  - inversion E; subst. now rewrite String.eqb_refl.
  - inversion ND as [| ? ? NI ND']; subst.
    destruct (String.eqb b a) eqn:Eb.
    + apply String.eqb_eq in Eb. subst. exfalso. apply NI.
      change a with (fst (a, c)). now apply in_map.
    + auto.
Qed.

Lemma getitem_unique (d : DataFrame) (a : string) (c : column) :
  NoDup (column_names d) -> In (a, c) (columns d) -> getitem d a = Some c.
Proof.
  intros ND H. unfold getitem.
  rewrite (find_unique _ _ _ ND H). reflexivity.
Qed.

Lemma numeric_at_select (d : DataFrame) :
  NoDup (column_names d) ->
  numeric_at (column_names (select_number d)) d.
Proof.
  intros ND col H. unfold column_names, select_number in H. cbn in H.
  apply in_map_iff in H. destruct H as [[a c] [E H]]. cbn in E. subst a.
  apply filter_In in H. destruct H as [H N]. cbn in N.
  destruct c; try discriminate. exists vs. now apply getitem_unique.
Qed.

Lemma drop_duplicates_names (d : DataFrame) :
  column_names (drop_duplicates d) = column_names d.
Proof.
  unfold drop_duplicates. destruct (df_empty d); auto.
  unfold column_names. cbn. rewrite map_map. reflexivity.
Qed.

Section CleansingRun.

Variable parse_datetime : string -> option (option Z).

Lemma convert_loop (l : loc) (names : list string) (s : store)
    (d : DataFrame) :
  nth_error s l = Some d -> incl names (column_names d) ->
  for_each names (convert_body parse_datetime l) tt s
  = Some (tt, replace_nth l (fst (loop_cols (convert_action parse_datetime) names (d, 0%nat))) s).
Proof.
  intros Hs Hin.
  pose (step := fun (col : string) (st : DataFrame * unit) =>
                  (fst (step_col (convert_action parse_datetime) col (fst st, 0%nat)), tt)).
  destruct (for_each_step l (fun d' => column_names d' = column_names d)
              (convert_body parse_datetime l) step names) with (acc := tt) (s := s) (d := d)
    as [E _]; auto.
  - intros col [] s0 d0 Hc Hs0 Hn. unfold step. cbn [fst snd].
    assert (Hc' : In col (column_names d0)) by (rewrite Hn; auto).
    destruct (getitem_in _ _ Hc') as [c G].
    split.
    + unfold convert_body, bind. rewrite (read_col_at _ _ _ _ _ Hs0 G).
      unfold step_col. cbn [fst snd]. rewrite G. unfold convert_action at 1.
      cbn [fst]. destruct (is_object_dtype c).
      * apply write_col_at, Hs0.
      * unfold ret. now rewrite (replace_nth_same _ _ _ Hs0).
    + rewrite step_col_names. exact Hn.
  - rewrite E. unfold loop_cols.
    assert (G : forall d0 n,
               fst (fold_left (fun st col => step col st) names (d0, tt))
               = fst (fold_left (fun st col => step_col (convert_action parse_datetime) col st)
                                names (d0, n))).
    { clear E Hs Hin.
      induction names as [| a names IH]; intros d0 n; cbn; auto.
      unfold step at 2. cbn [fst].
      destruct (step_col (convert_action parse_datetime) a (d0, n)) as [d1 n1] eqn:E1.
      rewrite (step_col_fst _ a d0 0 n), E1. cbn [fst].
      apply IH. }
    rewrite (G d 0%nat). destruct (snd _). reflexivity.
Qed.

Lemma impute_loop (l : loc) (names : list string) (s : store)
    (d : DataFrame) (n : nat) :
  nth_error s l = Some d -> incl names (column_names d) ->
  for_each names (impute_body l) n s
  = Some (snd (loop_cols impute_action names (d, n)),
          replace_nth l (fst (loop_cols impute_action names (d, n))) s).
Proof.
  intros Hs Hin.
  destruct (for_each_step l (fun d' => column_names d' = column_names d)
              (impute_body l) (step_col impute_action) names)
    with (acc := n) (s := s) (d := d) as [E _]; auto.
  intros col acc s0 d0 Hc Hs0 Hn.
  assert (Hc' : In col (column_names d0)) by (rewrite Hn; auto).
  destruct (getitem_in _ _ Hc') as [c G].
  split.
  - unfold impute_body, bind. rewrite (read_col_at _ _ _ _ _ Hs0 G).
    unfold step_col. cbn [fst snd]. rewrite G. unfold impute_action.
    destruct (0 <? isnull_sum c)%nat; cbn [fst snd].
    + rewrite (write_col_at _ _ _ _ _ Hs0). reflexivity.
    + unfold ret. rewrite Nat.add_0_r. now rewrite (replace_nth_same _ _ _ Hs0).
  - rewrite step_col_names. exact Hn.
Qed.

Lemma cap_loop (l : loc) (names : list string) (s : store)
    (d : DataFrame) (n : nat) :
  nth_error s l = Some d -> numeric_at names d ->
  for_each names (cap_body l) n s
  = Some (snd (loop_cols cap_action names (d, n)),
          replace_nth l (fst (loop_cols cap_action names (d, n))) s).
Proof.
  intros Hs Hnum.
  destruct (for_each_step l (numeric_at names)
              (cap_body l) (step_col cap_action) names)
    with (acc := n) (s := s) (d := d) as [E _]; auto.
  intros col acc s0 d0 Hc Hs0 Hn.
  destruct (Hn col Hc) as [vs G].
  assert (Hc' : In col (column_names d0)) by (eapply getitem_names; eauto).
  split.
  - unfold cap_body, bind. rewrite (read_col_at _ _ _ _ _ Hs0 G).
    rewrite (write_col_at _ _ _ _ _ Hs0).
    set (d1 := setitem d0 col (Numeric (np_where_lt vs (lower_bound vs)))).
    assert (Hs1 : nth_error (replace_nth l d1 s0) l = Some d1).
    { apply nth_error_replace_nth_eq. eapply nth_error_lt; eauto. }
    assert (G1 : getitem d1 col
                 = Some (Numeric (np_where_lt vs (lower_bound vs)))).
    { apply getitem_setitem_same, Hc'. }
    rewrite (read_col_at _ _ _ _ _ Hs1 G1).
    rewrite (write_col_at _ _ _ _ _ Hs1). unfold ret.
    rewrite replace_nth_twice.
    unfold step_col. cbn [fst snd]. rewrite G. cbn [cap_action fst snd].
    cbn [cap_column column_outliers].
    do 3 f_equal. unfold d1.
    rewrite !setitem_columns; auto.
    + cbn [n_rows columns]. f_equal. rewrite map_map. apply map_ext.
      intros [a c]. cbn. destruct (String.eqb a col) eqn:Ea; cbn.
      * now rewrite Ea.
      * now rewrite Ea.
    + rewrite setitem_names; auto.
  - intros col' Hc2. unfold step_col. cbn [fst snd]. rewrite G.
    cbn [cap_action fst cap_column].
    destruct (string_dec col col') as [-> | N].
    + rewrite getitem_setitem_same by auto. eauto.
    + rewrite getitem_setitem_other by auto. auto.
Qed.

(** Run from any store in which [df] holds a frame with unique column
    names, the engine returns a fresh frame and leaves every frame there
    was as it was. *)
Lemma perform_etl_run (s : store) (df : loc) (raw : DataFrame) :
  nth_error s df = Some raw -> NoDup (column_names raw) ->
  perform_etl parse_datetime df s
  = Some ((length s, snd (etl_by_name parse_datetime raw)),
          s ++ [fst (etl_by_name parse_datetime raw)]).
Proof.
  intros Hs ND. unfold perform_etl, bind.
  rewrite (load_at _ _ _ Hs). unfold new.
  set (d1 := drop_duplicates raw).
  assert (H1 : nth_error (s ++ [d1]) (length s) = Some d1).
  { rewrite nth_error_app2, Nat.sub_diag by lia. reflexivity. }
  rewrite (load_at _ _ _ H1).
  rewrite (convert_loop _ _ _ _ H1) by apply incl_refl.
  rewrite replace_nth_last.
  set (d2 := fst (loop_cols (convert_action parse_datetime) (column_names d1) (d1, 0%nat))).
  assert (H2 : nth_error (s ++ [d2]) (length s) = Some d2).
  { rewrite nth_error_app2, Nat.sub_diag by lia. reflexivity. }
  rewrite (load_at _ _ _ H2).
  rewrite (impute_loop _ _ _ _ _ H2) by apply incl_refl.
  rewrite replace_nth_last.
  set (s3 := loop_cols (impute_action) (column_names d2) (d2, 0%nat)).
  assert (H3 : nth_error (s ++ [fst s3]) (length s) = Some (fst s3)).
  { rewrite nth_error_app2, Nat.sub_diag by lia. reflexivity. }
  rewrite (load_at _ _ _ H3).
  rewrite (cap_loop _ _ _ _ _ H3).
  - rewrite replace_nth_last. unfold ret. reflexivity.
  - apply numeric_at_select. unfold s3.
    rewrite loop_cols_names. cbn [fst]. unfold d2.
    rewrite loop_cols_names. cbn [fst]. unfold d1.
    now rewrite drop_duplicates_names.
Qed.

End CleansingRun.

(** ** The loops, column by column *)

Lemma map_rename_absent (a : string) (v : column)
    (cols : list (string * column)) :
  ~ In a (map fst cols) ->
  map (fun nc => if String.eqb (fst nc) a then (fst nc, v) else nc) cols = cols.
Proof.
  induction cols as [| [b x] cols IH]; cbn; intros H; auto.
  destruct (String.eqb b a) eqn:E.
  - apply String.eqb_eq in E. subst. tauto.
  - rewrite IH; tauto.
Qed.

(** A loop over names other than the first column's leaves that column
    alone and runs on the rest as if the column were not there. *)
Lemma loop_cols_skip_head (f : column -> option column * nat)
    (names : list string) (n : nat) (a : string) (c : column)
    (rest : list (string * column)) (k : nat) :
  ~ In a names ->
  loop_cols f names (mkDF n ((a, c) :: rest), k)
  = (mkDF n ((a, c) :: columns (fst (loop_cols f names (mkDF n rest, k)))),
     snd (loop_cols f names (mkDF n rest, k))).
Proof.
  unfold loop_cols. revert rest k.
  induction names as [| b names IH]; intros rest k NI; cbn [fold_left].
  - reflexivity.
  - assert (Nab : String.eqb a b = false).
    { apply String.eqb_neq. intros ->. apply NI. now left. }
    assert (NI' : ~ In a names) by (intros H; apply NI; now right).
    assert (G : getitem (mkDF n ((a, c) :: rest)) b = getitem (mkDF n rest) b).
    { unfold getitem. cbn. now rewrite Nab. }
    unfold step_col at 2 4 6. cbn [fst snd]. rewrite G.
    destruct (getitem (mkDF n rest) b) as [x |] eqn:Gx.
    + destruct (fst (f x)) as [x' |].
      * assert (Hb : In b (column_names (mkDF n rest)))
          by (eapply getitem_names; eauto).
        rewrite (setitem_columns (mkDF n rest) b x' Hb).
        rewrite (setitem_columns (mkDF n ((a, c) :: rest)) b x')
          by (right; exact Hb).
        cbn [n_rows columns map fst]. rewrite Nab.
        apply IH, NI'.
      * apply IH, NI'.
    + apply IH, NI'.
Qed.

Lemma loop_cols_filter (f : column -> option column * nat)
    (p : string * column -> bool) (n : nat) (cols : list (string * column))
    (k : nat) :
  NoDup (map fst cols) ->
  loop_cols f (map fst (filter p cols)) (mkDF n cols, k)
  = (mkDF n (map (fun nc => if p nc then (fst nc, apply_action f (snd nc))
                            else nc) cols),
     (k + fold_right Nat.add 0
            (map (fun nc => if p nc then snd (f (snd nc)) else 0) cols))%nat).
Proof.
  revert k. induction cols as [| [a c] cols IH]; intros k ND.
  - cbn. now rewrite Nat.add_0_r.
  - inversion ND as [| ? ? NI ND']; subst.
    assert (NIf : ~ In a (map fst (filter p cols))).
    { intros H. apply NI. apply in_map_iff in H.
      destruct H as [nc [E H]]. apply filter_In in H.
      apply in_map_iff. exists nc. tauto. }
    cbn [filter map fold_right]. destruct (p (a, c)) eqn:P.
    + cbn [map]. unfold loop_cols. cbn [fold_left].
      unfold step_col at 2. cbn [fst snd].
      assert (G : getitem (mkDF n ((a, c) :: cols)) a = Some c).
      { unfold getitem. cbn. now rewrite String.eqb_refl. }
      rewrite G.
      assert (E : match fst (f c) with
                  | Some c' => setitem (mkDF n ((a, c) :: cols)) a c'
                  | None => mkDF n ((a, c) :: cols)
                  end = mkDF n ((a, apply_action f c) :: cols)).
      { unfold apply_action. destruct (fst (f c)) as [c' |]; auto.
        rewrite setitem_columns by (now left).
        cbn [n_rows columns map fst]. rewrite String.eqb_refl.
        now rewrite map_rename_absent. }
      rewrite E. fold (loop_cols f (map fst (filter p cols))
                         (mkDF n ((a, apply_action f c) :: cols),
                          (k + snd (f c))%nat)).
      rewrite loop_cols_skip_head by exact NIf.
      rewrite IH by exact ND'. cbn [fst snd columns]. f_equal. lia.
    + rewrite loop_cols_skip_head by exact NIf.
      rewrite IH by exact ND'. cbn [fst snd columns]. reflexivity.
Qed.

Lemma filter_all {A : Type} (l : list A) : filter (fun _ => true) l = l.
Proof.
  induction l; cbn; congruence.
Qed.

Lemma loop_cols_all (f : column -> option column * nat) (d : DataFrame)
    (k : nat) :
  NoDup (column_names d) ->
  loop_cols f (column_names d) (d, k)
  = (map_columns (apply_action f) d,
     (k + sum_columns (fun c => snd (f c)) d)%nat).
Proof.
  intros ND. destruct d as [n cols]. unfold column_names. cbn [columns].
  rewrite <- (filter_all cols) at 1.
  rewrite loop_cols_filter by exact ND. reflexivity.
Qed.

Lemma map_columns_names (f : column -> column) (d : DataFrame) :
  column_names (map_columns f d) = column_names d.
Proof.
  unfold column_names, map_columns. cbn. rewrite map_map. reflexivity.
Qed.

Lemma map_columns_ext (f g : column -> column) (d : DataFrame) :
  (forall c, f c = g c) -> map_columns f d = map_columns g d.
Proof.
  intros H. unfold map_columns. f_equal. apply map_ext. intros nc.
  now rewrite H.
Qed.

Lemma sum_columns_ext (f g : column -> nat) (d : DataFrame) :
  (forall c, f c = g c) -> sum_columns f d = sum_columns g d.
Proof.
  intros H. unfold sum_columns. f_equal. apply map_ext. intros nc.
  now rewrite H.
Qed.

Section CleansingColumns.

Variable parse_datetime : string -> option (option Z).

(** With unique column names the loops by name are maps over the
    columns. *)
Lemma etl_by_name_etl (raw : DataFrame) :
  NoDup (column_names raw) ->
  etl_by_name parse_datetime raw = etl parse_datetime raw.
Proof.
  intros ND. unfold etl_by_name, etl, imputed, converted.
  set (d1 := drop_duplicates raw).
  assert (ND1 : NoDup (column_names d1)).
  { unfold d1. now rewrite drop_duplicates_names. }
  rewrite (loop_cols_all _ d1 0 ND1). cbn [fst snd].
  rewrite (map_columns_ext (apply_action (convert_action parse_datetime))
                           (convert_column parse_datetime))
    by (intros c; unfold apply_action, convert_action, convert_column;
        cbn [fst]; destruct (is_object_dtype c); reflexivity).
  set (d2 := map_columns (convert_column parse_datetime) d1).
  assert (ND2 : NoDup (column_names d2)).
  { unfold d2. now rewrite map_columns_names. }
  rewrite (loop_cols_all _ d2 0 ND2). cbn [fst snd].
  rewrite (map_columns_ext (apply_action impute_action) fill_column)
    by (intros c; unfold apply_action, impute_action, fill_column;
        destruct (0 <? isnull_sum c)%nat; reflexivity).
  rewrite (sum_columns_ext (fun c => snd (impute_action c)) isnull_sum).
  2:{ intros c. unfold impute_action.
      destruct (0 <? isnull_sum c)%nat eqn:E; cbn [snd]; auto.
      apply Nat.ltb_ge in E. lia. }
  set (d3 := map_columns fill_column d2).
  assert (ND3 : NoDup (column_names d3)).
  { unfold d3. now rewrite map_columns_names. }
  destruct d3 as [n3 cols3] eqn:E3.
  unfold select_number, column_names. cbn [columns n_rows].
  rewrite loop_cols_filter by exact ND3. cbn [fst snd].
  f_equal.
  - unfold map_columns. cbn [n_rows columns]. f_equal. apply map_ext.
    intros [a c]. cbn [fst snd]. destruct c; reflexivity.
  - f_equal. unfold sum_columns. cbn [columns Nat.add]. f_equal. apply map_ext.
    intros [a c]. cbn [fst snd]. destruct c; reflexivity.
Qed.

(** The engine run on a caller's table returns what [etl] computes. *)
Lemma cleanse_etl (raw : DataFrame) :
  NoDup (column_names raw) ->
  cleanse parse_datetime raw = Some (etl parse_datetime raw).
Proof.
  intros ND. unfold cleanse.
  rewrite (perform_etl_run parse_datetime [raw] 0%nat raw eq_refl ND).
  cbn [length app nth_error]. rewrite (etl_by_name_etl raw ND).
  now destruct (etl parse_datetime raw).
Qed.

End CleansingColumns.

(** ** Well-formedness, decided *)

Lemma distinct_names_NoDup (names : list string) :
  distinct_names names = true -> NoDup names.
Proof.
  induction names as [| a names IH]; cbn; intros H; constructor.
  - apply andb_true_iff in H. destruct H as [H _].
    apply negb_true_iff in H. intros I.
    apply existsb_eqb_in in I. congruence.
  - apply IH. apply andb_true_iff in H. tauto.
Qed.

Lemma well_formed_b_sound (df : DataFrame) :
  well_formed_b df = true -> well_formed df.
Proof.
  unfold well_formed_b, well_formed. intros H.
  apply andb_true_iff in H. destruct H as [L N]. split.
  - apply Forall_forall. intros nc I.
    rewrite forallb_forall in L. apply Nat.eqb_eq. now apply L.
  - now apply distinct_names_NoDup.
Qed.

(** ** The caller's table *)

(** C9. Running the cleansing engine leaves the caller's raw table as it
    was: the engine returns a frame at a new location, every write of the
    run lands there, and every frame the store held before the call
    (the raw table among them) is unchanged after it. *)
Theorem perform_etl_preserves_input (parse_datetime : string -> option (option Z))
    (s : store) (df : loc) (raw : DataFrame) :
  nth_error s df = Some raw -> NoDup (column_names raw) ->
  exists cleaned stats s',
    perform_etl parse_datetime df s = Some ((cleaned, stats), s') /\
    nth_error s' df = Some raw /\
    cleaned <> df /\
    (forall l, (l < length s)%nat -> nth_error s' l = nth_error s l).
Proof.
  intros Hs ND.
  exists (length s), (snd (etl_by_name parse_datetime raw)),
         (s ++ [fst (etl_by_name parse_datetime raw)]).
  pose proof (nth_error_lt _ _ _ Hs) as Lt.
  split; [| split; [| split]].
  - now apply perform_etl_run.
  - rewrite nth_error_app1 by exact Lt. exact Hs.
  - lia.
  - intros l Hl. now rewrite nth_error_app1.
Qed.

Lemma perform_etl_preserves_input_witness :
  exists cleaned stats s',
    perform_etl no_dates 0%nat [sample_table]
    = Some ((cleaned, stats), s') /\
    nth_error s' 0%nat = Some sample_table /\
    cleaned <> 0%nat /\
    (forall l, (l < length [sample_table])%nat ->
               nth_error s' l = nth_error [sample_table] l).
Proof.
  apply (perform_etl_preserves_input no_dates [sample_table] 0%nat
           sample_table).
  - reflexivity.
  - apply distinct_names_NoDup. reflexivity.
Defined.

(** ** Shapes through the cleansing steps *)

Lemma duplicated_from_length (seen rs : list (list cell)) :
  length (duplicated_from seen rs) = length rs.
Proof.
  revert seen. induction rs as [| r rs IH]; intros seen; cbn; auto.
Qed.

Lemma rows_length (df : DataFrame) : length (rows df) = n_rows df.
Proof.
  unfold rows. now rewrite length_map, length_seq.
Qed.

Lemma duplicated_length (df : DataFrame) :
  length (duplicated df) = n_rows df.
Proof.
  unfold duplicated. now rewrite duplicated_from_length, rows_length.
Qed.

Lemma count_true_le (mask : list bool) : (count_true mask <= length mask)%nat.
Proof.
  unfold count_true. apply filter_length_le.
Qed.

Lemma take_mask_length {A : Type} (mask : list bool) (xs : list A) :
  length mask = length xs -> length (take_mask mask xs) = count_true mask.
Proof.
  revert xs. unfold count_true.
  induction mask as [| b mask IH]; intros [| x xs] H; cbn in *;
    try discriminate; auto.
  destruct b; cbn; rewrite IH; auto.
Qed.

Lemma col_take_length (mask : list bool) (c : column) :
  length mask = col_length c -> col_length (col_take mask c) = count_true mask.
Proof.
  destruct c; cbn; apply take_mask_length.
Qed.

Lemma col_take_numeric (mask : list bool) (c : column) :
  is_numeric_dtype (col_take mask c) = is_numeric_dtype c.
Proof.
  destruct c; reflexivity.
Qed.

Lemma drop_duplicates_n_rows (d : DataFrame) :
  (n_rows (drop_duplicates d) <= n_rows d)%nat.
Proof.
  unfold drop_duplicates. destruct (df_empty d); cbn [n_rows]; auto.
  etransitivity; [apply count_true_le |].
  now rewrite length_map, duplicated_length.
Qed.

Lemma drop_duplicates_n_cols (d : DataFrame) :
  n_cols (drop_duplicates d) = n_cols d.
Proof.
  unfold drop_duplicates, n_cols. destruct (df_empty d); cbn [columns]; auto.
  apply length_map.
Qed.

Lemma drop_duplicates_lengths (d : DataFrame) :
  Forall (fun nc => col_length (snd nc) = n_rows d) (columns d) ->
  Forall (fun nc => col_length (snd nc) = n_rows (drop_duplicates d))
         (columns (drop_duplicates d)).
Proof.
  intros W. unfold drop_duplicates. destruct (df_empty d); auto.
  cbn [n_rows columns]. apply Forall_map. cbn [snd].
  eapply Forall_impl; [| exact W]. intros nc H.
  apply col_take_length. now rewrite length_map, duplicated_length.
Qed.

Lemma drop_duplicates_empty (d : DataFrame) :
  df_empty d = true -> drop_duplicates d = d.
Proof.
  intros E. unfold drop_duplicates. now rewrite E.
Qed.

Lemma filter_map_swap {A B : Type} (f : A -> B) (p : B -> bool) (q : A -> bool)
    (l : list A) :
  (forall x, p (f x) = q x) -> filter p (map f l) = map f (filter q l).
Proof.
  intros H. induction l as [| x l IH]; cbn; auto.
  rewrite H. destruct (q x); cbn; now rewrite IH.
Qed.

(** A column-wise map that keeps dtypes numeric keeps the number of
    numeric columns. *)
Lemma map_columns_numeric_cols (f : column -> column) (d : DataFrame) :
  (forall c, is_numeric_dtype (f c) = is_numeric_dtype c) ->
  n_cols (select_number (map_columns f d)) = n_cols (select_number d).
Proof.
  intros H. unfold n_cols, select_number, map_columns. cbn [columns].
  rewrite (filter_map_swap (fun nc => (fst nc, f (snd nc)))
             (fun nc => is_numeric_dtype (snd nc))
             (fun nc => is_numeric_dtype (snd nc))).
  - apply length_map.
  - intros nc. cbn [snd]. apply H.
Qed.

Lemma drop_duplicates_numeric_cols (d : DataFrame) :
  n_cols (select_number (drop_duplicates d)) = n_cols (select_number d).
Proof.
  unfold drop_duplicates. destruct (df_empty d); auto.
  unfold n_cols, select_number. cbn [columns].
  rewrite (filter_map_swap
             (fun nc => (fst nc,
                         col_take (map negb (duplicated d)) (snd nc)))
             (fun nc => is_numeric_dtype (snd nc))
             (fun nc => is_numeric_dtype (snd nc))).
  - apply length_map.
  - intros nc. cbn [snd]. apply col_take_numeric.
Qed.

Lemma map_columns_lengths (f : column -> column) (d : DataFrame) (n : nat) :
  (forall c, col_length (f c) = col_length c) ->
  Forall (fun nc => col_length (snd nc) = n) (columns d) ->
  Forall (fun nc => col_length (snd nc) = n) (columns (map_columns f d)).
Proof.
  intros H W. unfold map_columns. cbn [columns]. apply Forall_map. cbn [snd].
  eapply Forall_impl; [| exact W]. intros nc E. now rewrite H.
Qed.

Lemma fillna_length {A : Type} (vs : list (option A)) (v : option A) :
  length (fillna vs v) = length vs.
Proof.
  apply length_map.
Qed.

Lemma impute_column_length (c : column) :
  col_length (impute_column c) = col_length c.
Proof.
  destruct c; cbn; apply fillna_length.
Qed.

Lemma fill_column_length (c : column) :
  col_length (fill_column c) = col_length c.
Proof.
  unfold fill_column. destruct (0 <? isnull_sum c)%nat; auto.
  apply impute_column_length.
Qed.

Lemma fill_column_numeric (c : column) :
  is_numeric_dtype (fill_column c) = is_numeric_dtype c.
Proof.
  unfold fill_column. destruct (0 <? isnull_sum c)%nat; auto.
  destruct c; reflexivity.
Qed.

Lemma cap_column_length (c : column) :
  col_length (cap_column c) = col_length c.
Proof.
  destruct c; cbn; auto. unfold np_where_gt, np_where_lt.
  now rewrite !length_map.
Qed.

Lemma isnull_sum_le (c : column) : (isnull_sum c <= col_length c)%nat.
Proof.
  destruct c; cbn; apply filter_length_le.
Qed.

Lemma column_outliers_le (c : column) :
  (column_outliers c <= if is_numeric_dtype c then col_length c else 0)%nat.
Proof.
  destruct c; cbn; auto. apply filter_length_le.
Qed.

Section CleansingShape.

Variable parse_datetime : string -> option (option Z).

Lemma parse_all_length (vs : list (option string)) (ts : list (option Z)) :
  parse_all parse_datetime vs = Some ts -> length ts = length vs.
Proof.
  revert ts. induction vs as [| [s |] vs IH]; intros ts H; cbn in H.
  - inversion H. reflexivity.
  - destruct (parse_datetime s); [| discriminate].
    destruct (parse_all parse_datetime vs) as [ts' |]; [| discriminate].
    inversion H. cbn. f_equal. now apply IH.
  - destruct (parse_all parse_datetime vs) as [ts' |]; [| discriminate].
    inversion H. cbn. f_equal. now apply IH.
Qed.

Lemma convert_column_length (c : column) :
  col_length (convert_column parse_datetime c) = col_length c.
Proof.
  unfold convert_column. destruct c; cbn; auto.
  destruct (parse_all parse_datetime vs) as [ts |] eqn:E; cbn; auto.
  now apply parse_all_length.
Qed.

Lemma convert_column_numeric (c : column) :
  is_numeric_dtype (convert_column parse_datetime c) = is_numeric_dtype c.
Proof.
  unfold convert_column. destruct c; cbn; auto.
  destruct (parse_all parse_datetime vs); reflexivity.
Qed.

Lemma converted_lengths (raw : DataFrame) :
  well_formed raw ->
  Forall (fun nc => col_length (snd nc) = n_rows (drop_duplicates raw))
         (columns (converted parse_datetime raw)).
Proof.
  intros [W _]. unfold converted.
  apply map_columns_lengths; [apply convert_column_length |].
  now apply drop_duplicates_lengths.
Qed.

Lemma imputed_lengths (raw : DataFrame) :
  well_formed raw ->
  Forall (fun nc => col_length (snd nc) = n_rows (drop_duplicates raw))
         (columns (imputed parse_datetime raw)).
Proof.
  intros W. unfold imputed.
  apply map_columns_lengths; [apply fill_column_length |].
  now apply converted_lengths.
Qed.

Lemma imputed_numeric_cols (raw : DataFrame) :
  n_cols (select_number (imputed parse_datetime raw))
  = n_cols (select_number raw).
Proof.
  unfold imputed, converted.
  rewrite map_columns_numeric_cols by apply fill_column_numeric.
  rewrite map_columns_numeric_cols by apply convert_column_numeric.
  apply drop_duplicates_numeric_cols.
Qed.

End CleansingShape.

(** Sums over the columns of a frame. *)
Lemma sum_columns_le (g h : column -> nat) (d : DataFrame) :
  (forall c, g c <= h c)%nat -> (sum_columns g d <= sum_columns h d)%nat.
Proof.
  intros H. unfold sum_columns. induction (columns d) as [| nc l IH]; cbn; auto.
  specialize (H (snd nc)). lia.
Qed.

Lemma sum_columns_lengths (d : DataFrame) (n : nat) :
  Forall (fun nc => col_length (snd nc) = n) (columns d) ->
  sum_columns col_length d = (n * n_cols d)%nat.
Proof.
  unfold sum_columns, n_cols. induction 1 as [| nc l E W IH]; cbn.
  - lia.
  - rewrite IH, E. lia.
Qed.

Lemma sum_columns_numeric_lengths (d : DataFrame) (n : nat) :
  Forall (fun nc => col_length (snd nc) = n) (columns d) ->
  sum_columns (fun c => if is_numeric_dtype c then col_length c else 0%nat) d
  = (n * n_cols (select_number d))%nat.
Proof.
  unfold sum_columns, n_cols, select_number. cbn [columns].
  induction 1 as [| nc l E W IH]; cbn.
  - lia.
  - rewrite IH. destruct (is_numeric_dtype (snd nc)); cbn; lia.
Qed.

(** ** Metrics against the raw table's shape *)

Section CleansingBounds.

Variable parse_datetime : string -> option (option Z).

Lemma etl_missing_le (raw : DataFrame) :
  well_formed raw ->
  (missing_imputed (snd (etl parse_datetime raw))
   <= n_rows raw * n_cols raw)%nat.
Proof.
  intros W. cbn [etl snd missing_imputed].
  etransitivity; [apply (sum_columns_le isnull_sum col_length), isnull_sum_le |].
  rewrite (sum_columns_lengths _ _ (converted_lengths parse_datetime raw W)).
  unfold converted, map_columns, n_cols at 1. cbn [columns].
  rewrite length_map. fold (n_cols (drop_duplicates raw)).
  rewrite drop_duplicates_n_cols.
  apply Nat.mul_le_mono_r, drop_duplicates_n_rows.
Qed.

Lemma etl_duplicates_le (raw : DataFrame) :
  (duplicates_removed (snd (etl parse_datetime raw)) <= n_rows raw)%nat.
Proof.
  cbn [etl snd duplicates_removed]. lia.
Qed.

Lemma etl_outliers_le (raw : DataFrame) :
  well_formed raw ->
  (outliers_handled (snd (etl parse_datetime raw))
   <= n_rows raw * n_cols (select_number raw))%nat.
Proof.
  intros W. cbn [etl snd outliers_handled].
  etransitivity; [apply sum_columns_le, column_outliers_le |].
  rewrite (sum_columns_numeric_lengths _ _ (imputed_lengths parse_datetime raw W)).
  rewrite imputed_numeric_cols.
  apply Nat.mul_le_mono_r, drop_duplicates_n_rows.
Qed.

(** C10. For a non-empty raw table and the metrics of the cleansing
    engine on that table, missing_imputed is at most the raw cell count,
    duplicates_removed at most the raw row count and outliers_handled at
    most the raw numeric cell count; so the penalties are at most 40, 30
    and 30, 100 minus their sum is not negative, and the score is that
    difference rounded: the lower end of the clamp never binds. *)
Theorem penalties_within_weights (raw : DataFrame) :
  well_formed raw -> df_empty raw = false ->
  exists cleaned stats,
    cleanse parse_datetime raw = Some (cleaned, stats) /\
    (missing_imputed stats <= n_rows raw * n_cols raw)%nat /\
    (duplicates_removed stats <= n_rows raw)%nat /\
    (outliers_handled stats <= n_rows raw * n_cols (select_number raw))%nat /\
    let missing_penalty :=
      HealthSpec.penalty (missing_imputed stats)
                         (n_rows raw * n_cols raw) 40 in
    let duplicate_penalty :=
      HealthSpec.penalty (duplicates_removed stats) (n_rows raw) 30 in
    let outlier_penalty :=
      HealthSpec.penalty (outliers_handled stats)
                         (n_rows raw * n_cols (select_number raw)) 30 in
    missing_penalty <= 40 /\ duplicate_penalty <= 30 /\
    outlier_penalty <= 30 /\
    0 <= 100 - (missing_penalty + duplicate_penalty + outlier_penalty) /\
    calculate_health_score raw cleaned stats
    == round1 (100 - (missing_penalty + duplicate_penalty + outlier_penalty)).
Proof.
  intros W NE.
  exists (fst (etl parse_datetime raw)), (snd (etl parse_datetime raw)).
  pose proof (etl_missing_le raw W) as Hm.
  pose proof (etl_duplicates_le raw) as Hd.
  pose proof (etl_outliers_le raw W) as Ho.
  split; [| split; [| split; [| split]]]; auto.
  - rewrite cleanse_etl by apply W. now destruct (etl parse_datetime raw).
  - set (st := snd (etl parse_datetime raw)) in *. cbv zeta.
    destruct (penalty_bounds _ _ 40 Hm) as [M0 M1]; [discriminate |].
    destruct (penalty_bounds _ _ 30 Hd) as [D0 D1]; [discriminate |].
    destruct (penalty_bounds _ _ 30 Ho) as [O0 O1]; [discriminate |].
    split; [| split; [| split; [| split]]]; auto; try lra.
    rewrite calculate_health_score_spec. unfold HealthSpec.score, HealthSpec.score_with.
    cbn [select_number n_rows].
    assert (C : (n_rows raw * n_cols raw =? 0)%nat = false).
    { unfold df_empty in NE. apply orb_false_iff in NE.
      destruct NE as [R C]. apply Nat.eqb_neq in R, C.
      apply Nat.eqb_neq. nia. }
    rewrite C. cbv zeta.
    match goal with
    | |- round1 ?a == round1 ?b =>
        assert (E : a == b);
        [| rewrite (round1_comp _ _ E); reflexivity]
    end.
    unfold HealthSpec.clamp. rewrite Q.min_r by lra. apply Q.max_r. lra.
Qed.

End CleansingBounds.

Lemma penalties_within_weights_witness :
  exists cleaned stats,
    cleanse no_dates sample_table = Some (cleaned, stats) /\
    (missing_imputed stats <= 4 * 2)%nat /\
    (duplicates_removed stats <= 4)%nat /\
    (outliers_handled stats <= 4 * 1)%nat.
Proof.
  destruct (penalties_within_weights no_dates sample_table)
    as [cleaned [stats [E [Hm [Hd [Ho _]]]]]].
  - apply well_formed_b_sound. reflexivity.
  - reflexivity.
  - exists cleaned, stats. auto.
Defined.

(** ** Empty tables *)

Lemma map_columns_compose (f g : column -> column) (d : DataFrame) :
  map_columns f (map_columns g d) = map_columns (fun c => f (g c)) d.
Proof.
  unfold map_columns. cbn [n_rows columns]. f_equal. rewrite map_map.
  reflexivity.
Qed.

Lemma map_columns_ext_in (f g : column -> column) (d : DataFrame)
    (P : column -> Prop) :
  Forall (fun nc => P (snd nc)) (columns d) ->
  (forall c, P c -> f c = g c) -> map_columns f d = map_columns g d.
Proof.
  intros W H. unfold map_columns. f_equal. apply map_ext_in.
  intros nc I. rewrite Forall_forall in W. now rewrite (H _ (W _ I)).
Qed.

Lemma map_columns_id (f : column -> column) (d : DataFrame)
    (P : column -> Prop) :
  Forall (fun nc => P (snd nc)) (columns d) ->
  (forall c, P c -> f c = c) -> map_columns f d = d.
Proof.
  intros W H. destruct d as [n cols]. unfold map_columns. cbn [n_rows columns] in *.
  f_equal. rewrite <- (map_id cols) at 2. apply map_ext_in.
  intros [a c] I. rewrite Forall_forall in W. specialize (W _ I).
  cbn [fst snd] in *. now rewrite (H _ W).
Qed.

Lemma sum_columns_zero (g : column -> nat) (d : DataFrame)
    (P : column -> Prop) :
  Forall (fun nc => P (snd nc)) (columns d) ->
  (forall c, P c -> g c = 0%nat) -> sum_columns g d = 0%nat.
Proof.
  intros W H. unfold sum_columns.
  induction W as [| nc l Hc W IH]; cbn; auto.
  now rewrite IH, (H _ Hc).
Qed.

Lemma sum_columns_map (g : column -> nat) (f : column -> column)
    (d : DataFrame) :
  sum_columns g (map_columns f d) = sum_columns (fun c => g (f c)) d.
Proof.
  unfold sum_columns, map_columns. cbn [columns]. now rewrite map_map.
Qed.

Section CleansingEmpty.

Variable parse_datetime : string -> option (option Z).

Lemma empty_column_cleansed (c : column) :
  col_length c = 0%nat ->
  cap_column (fill_column (convert_column parse_datetime c)) = empty_retype c
  /\ isnull_sum (convert_column parse_datetime c) = 0%nat
  /\ column_outliers (fill_column (convert_column parse_datetime c)) = 0%nat.
Proof.
  destruct c as [vs | vs | vs]; cbn [col_length]; intros L;
    apply length_zero_iff_nil in L; subst vs; cbn; auto.
Qed.

Lemma empty_frame_columns (raw : DataFrame) :
  well_formed raw -> df_empty raw = true ->
  Forall (fun nc => col_length (snd nc) = 0%nat) (columns raw).
Proof.
  intros [W _] E. unfold df_empty in E. apply orb_true_iff in E.
  destruct E as [R | C].
  - apply Nat.eqb_eq in R. now rewrite R in W.
  - apply Nat.eqb_eq in C. unfold n_cols in C.
    apply length_zero_iff_nil in C. rewrite C. constructor.
Qed.

(** C7, as the code has it.  For every empty table (no rows, or no
    columns) the cleansing engine does not fail and its three metrics are
    zero.  The table comes back with its row count, its column names and
    its numeric and temporal columns as they were, and each text column
    reclassified as temporal; without a text column (in particular
    without any column) the table comes back unchanged. *)
Theorem cleanse_empty_table (raw : DataFrame) :
  well_formed raw -> df_empty raw = true ->
  cleanse parse_datetime raw
  = Some (map_columns empty_retype raw, mkStats 0 0 0) /\
  (forallb (fun nc => negb (is_object_dtype (snd nc))) (columns raw) = true ->
   map_columns empty_retype raw = raw).
Proof.
  intros W E. pose proof (empty_frame_columns raw W E) as Z. split.
  - rewrite cleanse_etl by apply W. unfold etl, imputed, converted.
    rewrite (drop_duplicates_empty raw E), !map_columns_compose.
    rewrite !sum_columns_map, Nat.sub_diag.
    rewrite (map_columns_ext_in _ empty_retype raw _ Z)
      by (intros c L; apply (empty_column_cleansed c L)).
    rewrite (sum_columns_zero _ raw _ Z)
      by (intros c L; apply (empty_column_cleansed c L)).
    rewrite (sum_columns_zero _ raw _ Z)
      by (intros c L; apply (empty_column_cleansed c L)).
    reflexivity.
  - intros T. rewrite forallb_forall in T.
    apply (map_columns_id empty_retype raw
             (fun c => is_object_dtype c = false)).
    + apply Forall_forall. intros nc I. specialize (T nc I).
      now apply negb_true_iff in T.
    + intros c H. destruct c; cbn in *; congruence.
Qed.

End CleansingEmpty.

Lemma cleanse_empty_table_witness :
  cleanse no_dates empty_text_table
  = Some (map_columns empty_retype empty_text_table, mkStats 0 0 0).
Proof.
  apply (cleanse_empty_table no_dates empty_text_table).
  - apply well_formed_b_sound. reflexivity.
  - reflexivity.
Defined.

(** C7, as stated, fails on a header-only table with a text column: the
    engine returns the column as a temporal one, not the table it was
    given. *)
Lemma cleanse_empty_text_reclassified :
  well_formed_b empty_text_table = true /\
  df_empty empty_text_table = true /\
  cleanse no_dates empty_text_table
  = Some (mkDF 0 [("C"%string, Temporal [])], mkStats 0 0 0) /\
  mkDF 0 [("C"%string, Temporal [])] <> empty_text_table.
Proof.
  repeat split; try reflexivity. discriminate.
Qed.

(** ** Runs of the pipeline on sample tables *)

(** C3 fails on a numeric column without a single value: its median is
    NaN, filling with NaN fills nothing, and the cleaned table keeps the
    missing cells that [missing_imputed] counts as imputed. *)
Lemma cleanse_blank_numeric_column :
  cleanse no_dates blank_column_table
  = Some (mkDF 3 [("id"%string, Numeric [Some 1; Some 2; Some 3]);
                  ("score"%string, Numeric [None; None; None])],
          mkStats 0 3 0).
Proof.
  vm_compute. reflexivity.
Qed.

(** C4 fails on a cleaned table with a single row: every variance is
    NaN, so the histogram rule has no column to plot and raises. *)
Lemma generate_visuals_single_row :
  cleanse no_dates single_row_table
  = Some (single_row_table, mkStats 0 0 0) /\
  frame_var (select_number single_row_table) = [("A"%string, None)] /\
  generate_visuals single_row_table = None.
Proof.
  repeat split; vm_compute; reflexivity.
Qed.

(** C5 fails on perfectly correlated columns: the filter [s < 1] that
    removes the diagonal of the correlation matrix removes every pair of
    absolute correlation 1 with it.  With [B] twice [A] the pair
    ([A], [B]) has the largest absolute correlation, 1, and the rule
    plots a weaker pair with [C]; with [A] and [B] alone it plots
    nothing. *)
Lemma strongest_pair_drops_perfect_correlation :
  cleanse no_dates doubled_column_table
  = Some (doubled_column_table, mkStats 0 0 0) /\
  option_map (Qeq_bool 1)
    (corr_sq [Some 1; Some 3; Some 2; Some 6] [Some 2; Some 6; Some 4; Some 12])
  = Some true /\
  flt (corr_sq [Some 1; Some 3; Some 2; Some 6]
               [Some 1; Some 3; Some 2; Some 5]) (Some 1) = true /\
  map fst (below_one (corr_abs_unstack (select_number doubled_column_table)))
  = [("A", "C"); ("B", "C"); ("C", "A"); ("C", "B")]%string /\
  generate_visuals doubled_column_table
  = Some [mkFigure Heatmap ["A"; "B"; "C"]%string;
          mkFigure Histogram ["B"%string];
          mkFigure Scatter ["A"; "C"]%string;
          mkFigure Box ["A"; "B"; "C"]%string;
          mkFigure Violin ["B"%string];
          mkFigure Line ["A"%string];
          mkFigure Contour ["A"; "C"]%string] /\
  cleanse no_dates two_column_table
  = Some (two_column_table, mkStats 0 0 0) /\
  generate_visuals two_column_table
  = Some [mkFigure Heatmap ["A"; "B"]%string;
          mkFigure Histogram ["B"%string];
          mkFigure Box ["A"; "B"]%string;
          mkFigure Violin ["B"%string];
          mkFigure Line ["A"%string]].
Proof.
  repeat split; vm_compute; reflexivity.
Qed.

(** ** The mode *)

Lemma insert_sorted_in {A : Type} (leb : A -> A -> bool) (x y : A)
    (l : list A) :
  In y (insert_sorted leb x l) <-> y = x \/ In y l.
Proof.
  induction l as [| z l IH]; cbn.
  - intuition.
  - destruct (leb x z); cbn; [intuition |]. rewrite IH. intuition.
Qed.

Lemma sort_by_in {A : Type} (leb : A -> A -> bool) (y : A) (l : list A) :
  In y (sort_by leb l) <-> In y l.
Proof.
  induction l as [| x l IH]; cbn; [tauto |].
  rewrite insert_sorted_in, IH. intuition.
Qed.

Lemma fold_max_ge (l : list nat) (n : nat) :
  In n l -> (n <= fold_right Nat.max 0 l)%nat.
Proof.
  induction l as [| m l IH]; cbn; [tauto |].
  intros [E | H]; [subst; lia | specialize (IH H); lia].
Qed.

Lemma fold_max_attained {A : Type} (f : A -> nat) (l : list A) :
  l <> [] -> exists x, In x l /\ f x = fold_right Nat.max 0%nat (map f l).
Proof.
  induction l as [| x l IH]; [congruence |]. intros _.
  destruct l as [| y l].
  - exists x. cbn. split; auto. lia.
  - destruct IH as [z [I E]]; [discriminate |].
    destruct (Nat.le_ge_cases (f x) (f z)) as [L | G].
    + exists z. split; [now right |].
      change (map f (x :: y :: l)) with (f x :: map f (y :: l)).
      cbn [fold_right]. rewrite <- E. lia.
    + exists x. split; [now left |].
      change (map f (x :: y :: l)) with (f x :: map f (y :: l)).
      cbn [fold_right]. rewrite <- E. lia.
Qed.

Section ModeFacts.

Variable A : Type.
Variables eqb leb : A -> A -> bool.
Hypothesis eqb_eq : forall x y, eqb x y = true <-> x = y.
Hypothesis leb_total : forall x y, leb x y = true \/ leb y x = true.
Hypothesis leb_trans :
  forall x y z, leb x y = true -> leb y z = true -> leb x z = true.

Lemma unique_in (y : A) (l : list A) : In y (unique eqb l) <-> In y l.
Proof.
  induction l as [| x l IH]; cbn; [tauto |].
  rewrite filter_In, IH. split.
  - intuition.
  - intros [E | H]; auto.
    destruct (eqb x y) eqn:Exy.
    + left. now apply eqb_eq.
    + right. split; auto.
Qed.

(** The head of a sorted list is below every element. *)
Lemma insert_sorted_head (x m : A) (l rest : list A) :
  (forall h t, l = h :: t -> forall y, In y l -> leb h y = true) ->
  insert_sorted leb x l = m :: rest ->
  forall y, In y (x :: l) -> leb m y = true.
Proof.
  intros Hl E y I. destruct l as [| h t]; cbn in E.
  - inversion E; subst. destruct I as [<- | []].
    destruct (leb_total m m); auto.
  - specialize (Hl h t eq_refl). destruct (leb x h) eqn:Lx.
    + inversion E; subst. destruct I as [<- | I].
      * destruct (leb_total m m); auto.
      * eapply leb_trans; [exact Lx | now apply Hl].
    + inversion E; subst. destruct I as [<- | I].
      * destruct (leb_total x m); congruence.
      * now apply Hl.
Qed.

Lemma sort_by_head (l : list A) (m : A) (rest : list A) :
  sort_by leb l = m :: rest -> forall y, In y l -> leb m y = true.
Proof.
  revert m rest. induction l as [| x l IH]; intros m rest E y I.
  - destruct I.
  - cbn in E.
    assert (I' : In y (x :: sort_by leb l)).
    { destruct I as [<- | I]; [now left | right; now apply sort_by_in]. }
    eapply insert_sorted_head; [| exact E | exact I'].
    intros h t Eh y' Iy'. eapply IH; [exact Eh |]. now apply sort_by_in in Iy'.
Qed.

(** The first mode is a most frequent value, and the smallest of the
    most frequent values. *)
Lemma mode_head (vs : list (option A)) (m : A) (rest : list A) :
  mode eqb leb vs = m :: rest ->
  In m (dropna vs) /\
  (forall x, In x (dropna vs) ->
     (occurrences eqb x (dropna vs) <= occurrences eqb m (dropna vs))%nat) /\
  (forall x, In x (dropna vs) ->
     occurrences eqb x (dropna vs) = occurrences eqb m (dropna vs) ->
     leb m x = true).
Proof.
  unfold mode. set (xs := dropna vs).
  set (top := fold_right Nat.max 0%nat (map (fun x => occurrences eqb x xs) xs)).
  intros E.
  assert (Im : In m (sort_by leb (unique eqb
                (filter (fun x => (occurrences eqb x xs =? top)%nat) xs)))).
  { rewrite E. now left. }
  apply sort_by_in, unique_in, filter_In in Im. destruct Im as [Im Tm].
  apply Nat.eqb_eq in Tm.
  split; [exact Im | split].
  - intros x Ix. rewrite Tm. apply fold_max_ge.
    apply in_map_iff. exists x. auto.
  - intros x Ix Ex. eapply sort_by_head; [exact E |].
    apply unique_in, filter_In. split; auto.
    apply Nat.eqb_eq. congruence.
Qed.

Lemma mode_nonempty (vs : list (option A)) :
  dropna vs <> [] -> mode eqb leb vs <> [].
Proof.
  intros N. unfold mode.
  destruct (fold_max_attained (fun x => occurrences eqb x (dropna vs))
              (dropna vs) N) as [x [I E]].
  intros C.
  assert (Ix : In x (sort_by leb (unique eqb
     (filter (fun x0 => (occurrences eqb x0 (dropna vs)
        =? fold_right Nat.max 0%nat
             (map (fun x1 => occurrences eqb x1 (dropna vs)) (dropna vs)))%nat)
        (dropna vs))))).
  { apply sort_by_in, unique_in, filter_In. split; auto.
    now apply Nat.eqb_eq. }
  rewrite C in Ix. destruct Ix.
Qed.

Lemma mode_or_smallest (vs : list (option A)) (default : option A) :
  dropna vs <> [] ->
  exists m,
    mode_or eqb leb vs default = Some m /\
    In m (dropna vs) /\
    (forall x, In x (dropna vs) ->
       (occurrences eqb x (dropna vs) <= occurrences eqb m (dropna vs))%nat) /\
    (forall x, In x (dropna vs) ->
       occurrences eqb x (dropna vs) = occurrences eqb m (dropna vs) ->
       leb m x = true).
Proof.
  intros N. unfold mode_or.
  destruct (mode eqb leb vs) as [| m rest] eqn:E.
  - exfalso. now apply (mode_nonempty vs N).
  - exists m. split; auto. now apply (mode_head vs m rest).
Qed.

End ModeFacts.

Lemma string_leb_trans (x y z : string) :
  String.leb x y = true -> String.leb y z = true -> String.leb x z = true.
Proof.
  unfold String.leb. intros Hxy Hyz.
  destruct (String.compare x y) eqn:Cxy; try discriminate.
  - apply String.compare_eq_iff in Cxy. subst y. exact Hyz.
  - destruct (String.compare y z) eqn:Cyz; try discriminate.
    + apply String.compare_eq_iff in Cyz. subst z. now rewrite Cxy.
    + assert (L : String.compare x z = Lt).
      { apply OrderedTypeEx.String_as_OT.cmp_lt.
        eapply OrderedTypeEx.String_as_OT.lt_trans;
          apply OrderedTypeEx.String_as_OT.cmp_lt; eauto. }
      now rewrite L.
Qed.

Lemma Z_leb_total (x y : Z) : Z.leb x y = true \/ Z.leb y x = true.
Proof.
  rewrite !Z.leb_le. lia.
Qed.

Lemma Z_leb_trans (x y z : Z) :
  Z.leb x y = true -> Z.leb y z = true -> Z.leb x z = true.
Proof.
  rewrite !Z.leb_le. lia.
Qed.

(** C6, as the code has it.  When a text or temporal column has
    non-missing values, the value written into its missing cells is a
    most frequent value of the column and, among the most frequent
    values, the smallest in sort order; its place in row order plays no
    part. *)
Theorem mode_fill_is_smallest_candidate :
  (forall vs : list (option string), dropna vs <> [] ->
   exists m,
     impute_column (Categorical vs) = Categorical (fillna vs (Some m)) /\
     In m (dropna vs) /\
     (forall x, In x (dropna vs) ->
        (occurrences String.eqb x (dropna vs)
         <= occurrences String.eqb m (dropna vs))%nat) /\
     (forall x, In x (dropna vs) ->
        occurrences String.eqb x (dropna vs)
        = occurrences String.eqb m (dropna vs) ->
        String.leb m x = true)) /\
  (forall vs : list (option Z), dropna vs <> [] ->
   exists m,
     impute_column (Temporal vs) = Temporal (fillna vs (Some m)) /\
     In m (dropna vs) /\
     (forall x, In x (dropna vs) ->
        (occurrences Z.eqb x (dropna vs)
         <= occurrences Z.eqb m (dropna vs))%nat) /\
     (forall x, In x (dropna vs) ->
        occurrences Z.eqb x (dropna vs) = occurrences Z.eqb m (dropna vs) ->
        Z.leb m x = true)).
Proof.
  split; intros vs N.
  - destruct (mode_or_smallest string String.eqb String.leb String.eqb_eq
                String.leb_total string_leb_trans vs
                (Some "Missing"%string) N) as [m [E H]].
    exists m. split; auto. cbn [impute_column]. now rewrite E.
  - destruct (mode_or_smallest Z Z.eqb Z.leb Z.eqb_eq
                Z_leb_total Z_leb_trans vs None N) as [m [E H]].
    exists m. split; auto. cbn [impute_column]. now rewrite E.
Qed.

Lemma mode_fill_is_smallest_candidate_witness :
  exists m,
    impute_column (Categorical [Some "b"; Some "a"; None]%string)
    = Categorical (fillna [Some "b"; Some "a"; None]%string (Some m)) /\
    In m ["b"; "a"]%string.
Proof.
  destruct (proj1 mode_fill_is_smallest_candidate
              [Some "b"; Some "a"; None]%string) as [m [E [I _]]].
  - discriminate.
  - exists m. split; [exact E | exact I].
Defined.

(** C6, as stated, fails when the tied values are not met in sort
    order: of "b" and "a", once each, "b" is the first in row order and
    "a" is what the engine fills in. *)
Lemma mode_fill_not_first_encountered :
  ModeSpec.first_mode String.eqb [Some "b"; Some "a"; None]%string
  = Some "b"%string /\
  cleanse no_dates tie_table
  = Some (mkDF 3 [("C"%string,
                   Categorical [Some "b"; Some "a"; Some "a"]%string)],
          mkStats 0 1 0).
Proof.
  split; vm_compute; reflexivity.
Qed.

(** ** The statistics engine *)

Lemma nQ_succ (n : nat) : nQ (S n) == nQ n + 1.
Proof.
  unfold nQ. rewrite Nat2Z.inj_succ. unfold Z.succ.
  now rewrite inject_Z_plus.
Qed.

Lemma Qsum_const (c : Q) (xs : list Q) :
  (forall x, In x xs -> x == c) -> Qsum xs == nQ (length xs) * c.
Proof.
  induction xs as [| x xs IH]; intros H.
  - cbn. unfold nQ. cbn. ring.
  - cbn [Qsum fold_right length]. rewrite nQ_succ.
    fold (Qsum xs). rewrite IH by (intros y I; apply H; now right).
    rewrite (H x) by now left. ring.
Qed.

Lemma Qsum_zero (xs : list Q) :
  (forall x, In x xs -> x == 0) -> Qsum xs == 0.
Proof.
  intros H. rewrite (Qsum_const 0 xs H). ring.
Qed.

(** The second central moment of a constant list vanishes. *)
Lemma central_moment_2_const (xs : list Q) (m2 : Q) :
  (forall x y, In x xs -> In y xs -> x == y) ->
  central_moment 2 xs = Some m2 -> m2 == 0.
Proof.
  intros C. unfold central_moment, mean_of.
  destruct (length xs =? 0)%nat eqn:L; [discriminate |].
  apply Nat.eqb_neq in L.
  intros E. injection E as <-.
  assert (P : 0 < nQ (length xs)) by (apply nQ_pos; lia).
  destruct xs as [| c xs'] eqn:Exs; [cbn in L; congruence |].
  rewrite <- Exs in *.
  assert (Ic : In c xs) by (rewrite Exs; now left).
  assert (M : Qsum xs / nQ (length xs) == c).
  { rewrite (Qsum_const c xs) by (intros x I; apply C; auto).
    field. intros Z. rewrite Z in P. now apply Qlt_irrefl in P. }
  assert (S0 : dev_pow_sum 2 (Qsum xs / nQ (length xs)) xs == 0).
  { unfold dev_pow_sum. apply Qsum_zero. intros d I.
    apply in_map_iff in I. destruct I as [x [<- I]].
    assert (D : x - Qsum xs / nQ (length xs) == 0).
    { rewrite M, (C x c I Ic). ring. }
    change (Qpower_positive (x - Qsum xs / nQ (length xs)) 2)
      with ((x - Qsum xs / nQ (length xs)) * (x - Qsum xs / nQ (length xs))).
    rewrite D. ring. }
  rewrite S0. field. intros Z. rewrite Z in P. now apply Qlt_irrefl in P.
Qed.

Section StatisticsFacts.

Variable fsqrt : Q -> Q.
Variable fpow15 : Q -> Q.

Lemma skew_constant (vs : list float) :
  constant_series vs -> skew fpow15 vs = None.
Proof.
  intros C. unfold skew.
  destruct (central_moment 2 (dropna vs)) as [m2 |] eqn:E2; auto.
  destruct (central_moment 3 (dropna vs)) as [m3 |]; auto.
  pose proof (central_moment_2_const _ _ C E2) as Z.
  apply Qeq_bool_iff in Z. now rewrite Z.
Qed.

Lemma kurtosis_constant (vs : list float) :
  constant_series vs -> kurtosis vs = None.
Proof.
  intros C. unfold kurtosis.
  destruct (central_moment 2 (dropna vs)) as [m2 |] eqn:E2; auto.
  destruct (central_moment 4 (dropna vs)) as [m4 |]; auto.
  pose proof (central_moment_2_const _ _ C E2) as Z.
  apply Qeq_bool_iff in Z. now rewrite Z.
Qed.

Lemma describe_all_numeric (df : DataFrame) (names : list string) :
  numeric_at names df ->
  exists rows,
    describe_all fsqrt fpow15 df names = Some rows /\
    map Column rows = names /\
    (forall col vs, In col names -> getitem df col = Some (Numeric vs) ->
       In (describe_numeric fsqrt fpow15 col vs) rows).
Proof.
  induction names as [| a names IH]; intros H.
  - exists []. cbn. repeat split; auto; intros col vs [].
  - destruct IH as [rows [E [N R]]].
    { intros col I. apply H. now right. }
    destruct (H a (or_introl eq_refl)) as [vs G].
    exists (describe_numeric fsqrt fpow15 a vs :: rows).
    cbn [describe_all]. unfold describe_column. rewrite G, E.
    split; [reflexivity | split].
    + cbn. now rewrite N.
    + intros col vs' [<- | I] G'.
      * left. congruence.
      * right. now apply R.
Qed.

(** C8. The statistics engine does not raise on any table with unique
    column names.  Without numeric columns it returns the "no numeric
    data" signal; with numeric columns it returns one row per numeric
    column, in column order, and the row of a column whose values are all
    equal carries the NaN sentinel as skewness and as kurtosis. *)
Theorem generate_descriptive_stats_total (df : DataFrame) :
  NoDup (column_names df) ->
  generate_descriptive_stats fsqrt fpow15 df <> None /\
  (column_names (select_number df) = [] ->
   generate_descriptive_stats fsqrt fpow15 df = Some NoNumericData) /\
  (column_names (select_number df) <> [] ->
   exists rows,
     generate_descriptive_stats fsqrt fpow15 df = Some (StatsFrame rows) /\
     map Column rows = column_names (select_number df) /\
     (forall col vs, In (col, Numeric vs) (columns df) ->
        exists row,
          In row rows /\ Column row = col /\
          Mean row = series_mean vs /\ Median row = median vs /\
          (constant_series vs ->
           Skewness row = None /\ Kurtosis row = None))).
Proof.
  intros ND.
  destruct (describe_all_numeric df (column_names (select_number df))
              (numeric_at_select df ND)) as [rows [E [N R]]].
  unfold generate_descriptive_stats.
  destruct (column_names (select_number df)) as [| a names] eqn:Names.
  - cbn. split; [discriminate | split; [reflexivity | congruence]].
  - cbn [length Nat.eqb]. rewrite E. cbn [option_map].
    split; [discriminate | split; [discriminate |]].
    intros _. exists rows. split; [reflexivity | split; [exact N |]].
    intros col vs I.
    assert (Ic : In col (a :: names)).
    { rewrite <- Names. unfold column_names, select_number. cbn [columns].
      apply in_map_iff. exists (col, Numeric vs). split; auto.
      apply filter_In. auto. }
    exists (describe_numeric fsqrt fpow15 col vs).
    split; [apply R; auto; now apply getitem_unique |].
    cbn. repeat split; auto.
    + now apply skew_constant.
    + now apply kurtosis_constant.
Qed.

End StatisticsFacts.

Lemma generate_descriptive_stats_total_witness :
  generate_descriptive_stats sample_sqrt sample_pow15 constant_table <> None.
Proof.
  apply (generate_descriptive_stats_total sample_sqrt sample_pow15
           constant_table).
  apply distinct_names_NoDup. reflexivity.
Defined.

(** ** A second run of the cleansing engine *)

(** *** Rows that survive deduplication *)

Lemma cell_eqb_missing (a b : cell) :
  cell_eqb a b = true -> cell_missing a = cell_missing b.
Proof.
  destruct a as [[x |] | [x |] | [x |]], b as [[y |] | [y |] | [y |]];
    cbn; congruence.
Qed.

Lemma row_eqb_nth (r1 r2 : list cell) (p : nat) :
  row_eqb r1 r2 = true ->
  cell_eqb (nth p r1 (CNum None)) (nth p r2 (CNum None)) = true.
Proof.
  revert r2 p. induction r1 as [| a r1 IH]; intros [| b r2] p H; cbn in H;
    try discriminate.
  - destruct p; reflexivity.
  - apply andb_true_iff in H. destruct H as [Hab H].
    destruct p; cbn; auto.
Qed.

(** Of the rows that have a value in position [p], the first one is not
    a duplicate of an earlier row, so a value in position [p] survives. *)
Lemma kept_value (p : nat) (rs seen : list (list cell)) :
  (forall r, In r seen -> cell_missing (nth p r (CNum None)) = true) ->
  existsb (fun r => negb (cell_missing (nth p r (CNum None)))) rs = true ->
  existsb (fun x => negb (cell_missing x))
    (take_mask (map negb (duplicated_from seen rs))
               (map (fun r => nth p r (CNum None)) rs)) = true.
Proof.
  revert seen. induction rs as [| r rs IH]; intros seen Hseen H; cbn in H.
  - discriminate.
  - cbn [duplicated_from map take_mask].
    destruct (cell_missing (nth p r (CNum None))) eqn:Mr; cbn [negb orb] in H.
    + assert (IH' : existsb (fun x => negb (cell_missing x))
                      (take_mask (map negb (duplicated_from (r :: seen) rs))
                         (map (fun r0 => nth p r0 (CNum None)) rs)) = true).
      { apply IH; auto. intros r' [<- | I]; auto. }
      destruct (negb (existsb (row_eqb r) seen)); auto.
      cbn [existsb]. rewrite IH'. apply orb_true_r.
    + destruct (existsb (row_eqb r) seen) eqn:D.
      * exfalso. apply existsb_exists in D. destruct D as [r' [I E]].
        apply row_eqb_nth with (p := p) in E. apply cell_eqb_missing in E.
        rewrite (Hseen r' I) in E. congruence.
      * cbn [negb existsb]. now rewrite Mr.
Qed.

Lemma map_nth_seq_id {A : Type} (l : list A) (d : A) :
  map (fun i => nth i l d) (seq 0 (length l)) = l.
Proof.
  induction l as [| x l IH]; cbn; auto.
  f_equal. rewrite <- seq_shift, map_map. exact IH.
Qed.

(** A column is the list of its cells in the rows of the frame. *)
Lemma column_of_rows (d : DataFrame) (p : nat) (a : string) (c : column) :
  nth_error (columns d) p = Some (a, c) -> col_length c = n_rows d ->
  map (fun r => nth p r (CNum None)) (rows d) = cells c.
Proof.
  intros Hp L. unfold rows. rewrite map_map.
  assert (Lc : length (cells c) = n_rows d).
  { rewrite <- L. destruct c; cbn; apply length_map. }
  rewrite <- Lc. rewrite <- (map_nth_seq_id (cells c) (CNum None)) at 2.
  apply map_ext. intros i. unfold row_at.
  pose (dummy := (EmptyString, Numeric [])).
  set (f := fun nc : string * column => nth i (cells (snd nc)) (CNum None)).
  assert (D : f dummy = CNum None).
  { unfold f. cbn. now destruct i. }
  rewrite <- D at 1. rewrite map_nth.
  apply nth_error_nth with (d := dummy) in Hp. now rewrite Hp.
Qed.

Lemma cells_col_take (mask : list bool) (c : column) :
  cells (col_take mask c) = take_mask mask (cells c).
Proof.
  assert (T : forall (A : Type) (f : A -> cell) (m : list bool) (l : list A),
             map f (take_mask m l) = take_mask m (map f l)).
  { intros A f m. induction m as [| b m IH]; intros [| x l]; cbn; auto;
      destruct b; cbn; auto. now rewrite IH. }
  destruct c; cbn; apply T.
Qed.

Lemma existsb_rows_value (d : DataFrame) (p : nat) (a : string) (c : column) :
  nth_error (columns d) p = Some (a, c) -> col_length c = n_rows d ->
  column_has_value c = true ->
  existsb (fun r => negb (cell_missing (nth p r (CNum None)))) (rows d) = true.
Proof.
  intros Hp L H. unfold column_has_value in H.
  rewrite <- (column_of_rows d p a c Hp L) in H.
  rewrite existsb_exists in *. destruct H as [x [I V]].
  apply in_map_iff in I. destruct I as [r [<- I]]. eauto.
Qed.

(** *** Missing cells through the steps *)

Lemma count_null_take_mask {A : Type} (mask : list bool)
    (vs : list (option A)) :
  (count_null (take_mask mask vs) <= count_null vs)%nat.
Proof.
  unfold count_null. revert vs.
  induction mask as [| b mask IH]; intros vs.
  - cbn. lia.
  - destruct vs as [| v vs]; [destruct b; cbn; lia |].
    specialize (IH vs). destruct b; cbn; destruct (is_none v); cbn; lia.
Qed.

Lemma col_take_complete (mask : list bool) (c : column) :
  isnull_sum c = 0%nat -> isnull_sum (col_take mask c) = 0%nat.
Proof.
  intros H.
  destruct c as [vs | vs | vs]; cbn in *;
    pose proof (count_null_take_mask mask vs); lia.
Qed.

Lemma count_null_cells (c : column) :
  isnull_sum c = length (filter cell_missing (cells c)).
Proof.
  assert (T : forall (A : Type) (f : option A -> cell) (l : list (option A)),
             (forall v, cell_missing (f v) = is_none v) ->
             length (filter is_none l)
             = length (filter cell_missing (map f l))).
  { intros A f l Hf. induction l as [| v l IH]; cbn; auto.
    rewrite Hf. destruct (is_none v); cbn; now rewrite IH. }
  destruct c; cbn; unfold count_null; apply T; reflexivity.
Qed.

Lemma fillna_complete {A : Type} (vs : list (option A)) (x : A) :
  count_null (fillna vs (Some x)) = 0%nat.
Proof.
  unfold count_null, fillna. induction vs as [| [y |] vs IH]; cbn; auto.
Qed.

Lemma sort_by_length {A : Type} (leb : A -> A -> bool) (l : list A) :
  length (sort_by leb l) = length l.
Proof.
  assert (I : forall x s, length (insert_sorted leb x s) = S (length s)).
  { intros x s. induction s as [| y s IH]; cbn; auto.
    destruct (leb x y); cbn; auto. }
  induction l as [| x l IH]; cbn; auto. now rewrite I, IH.
Qed.

Lemma median_some (vs : list float) :
  dropna vs <> [] -> exists m, median vs = Some m.
Proof.
  intros N. unfold median. rewrite sort_by_length.
  destruct (length (dropna vs) =? 0)%nat eqn:E.
  - apply Nat.eqb_eq, length_zero_iff_nil in E. contradiction.
  - destruct (Nat.odd (length (dropna vs))); eauto.
Qed.

Lemma has_some_dropna {A : Type} (vs : list (option A)) :
  existsb (fun v => negb (is_none v)) vs = true -> dropna vs <> [].
Proof.
  induction vs as [| [x |] vs IH]; cbn; try discriminate; auto.
Qed.

Lemma existsb_map_compose {A B : Type} (f : B -> bool) (g : A -> B)
    (l : list A) :
  existsb f (map g l) = existsb (fun x => f (g x)) l.
Proof.
  induction l as [| x l IH]; cbn; auto. now rewrite IH.
Qed.

Lemma column_has_value_cases (c : column) :
  column_has_value c = true ->
  match c with
  | Numeric vs => dropna vs <> []
  | Temporal vs => dropna vs <> []
  | Categorical vs => dropna vs <> []
  end.
Proof.
  unfold column_has_value.
  destruct c as [vs | vs | vs]; cbn [cells]; rewrite existsb_map_compose;
    cbn [cell_missing]; apply has_some_dropna.
Qed.

(** Imputation leaves no missing cell in a column that has a value. *)
Lemma fill_column_complete (c : column) :
  column_has_value c = true -> isnull_sum (fill_column c) = 0%nat.
Proof.
  intros V. unfold fill_column.
  destruct (0 <? isnull_sum c)%nat eqn:E.
  - apply column_has_value_cases in V.
    destruct c as [vs | vs | vs]; cbn [impute_column isnull_sum].
    + destruct (median_some vs V) as [m ->]. apply fillna_complete.
    + destruct (mode_or_smallest Z Z.eqb Z.leb Z.eqb_eq Z_leb_total
                  Z_leb_trans vs None V) as [m [-> _]].
      apply fillna_complete.
    + destruct (mode_or_smallest string String.eqb String.leb String.eqb_eq
                  String.leb_total string_leb_trans vs
                  (Some "Missing"%string) V) as [m [-> _]].
      apply fillna_complete.
  - apply Nat.ltb_ge in E. lia.
Qed.

Lemma count_null_map {A : Type} (g : option A -> option A)
    (vs : list (option A)) :
  (forall v, is_none (g v) = is_none v) ->
  count_null (map g vs) = count_null vs.
Proof.
  intros H. unfold count_null. induction vs as [| v vs IH]; cbn; auto.
  rewrite H. destruct (is_none v); cbn; now rewrite IH.
Qed.

Lemma np_where_lt_nulls (vs : list float) (bound : float) :
  count_null (np_where_lt vs bound) = count_null vs.
Proof.
  apply count_null_map. intros [x |]; destruct bound as [b |]; cbn; auto.
  destruct (Qltb x b); reflexivity.
Qed.

Lemma np_where_gt_nulls (vs : list float) (bound : float) :
  count_null (np_where_gt vs bound) = count_null vs.
Proof.
  apply count_null_map. intros [x |]; destruct bound as [b |]; cbn; auto.
  destruct (Qltb b x); reflexivity.
Qed.

Lemma cap_column_nulls (c : column) :
  isnull_sum (cap_column c) = isnull_sum c.
Proof.
  destruct c; cbn; auto. now rewrite np_where_gt_nulls, np_where_lt_nulls.
Qed.

(** *** Cells that survive deduplication *)



(** The columns after deduplication, with the column each comes from. *)
Lemma drop_duplicates_columns (d : DataFrame) (P : column -> Prop) :
  well_formed d ->
  (forall a c, In (a, c) (columns d) -> P c) ->
  (forall a c, In (a, c) (columns d) -> P c ->
     P (col_take (map negb (duplicated d)) c)) ->
  Forall (fun nc => P (snd nc)) (columns (drop_duplicates d)).
Proof.
  intros W H K. unfold drop_duplicates. destruct (df_empty d).
  - apply Forall_forall. intros [a c] I. cbn [snd]. eauto.
  - cbn [columns]. apply Forall_map. apply Forall_forall.
    intros [a c] I. cbn [snd fst]. eauto.
Qed.









Section SecondRun.

Variable parse_datetime : string -> option (option Z).



(** Parsing adds no missing cell to a complete column without a string
    that is read as a missing date. *)
Lemma parse_all_complete (vs : list (option string)) (ts : list (option Z)) :
  parse_all parse_datetime vs = Some ts ->
  count_null vs = 0%nat ->
  forallb (fun x => match x with
                    | CStr (Some s) => negb (reads_as_nat parse_datetime s)
                    | _ => true
                    end) (map CStr vs) = true ->
  count_null ts = 0%nat.
Proof.
  unfold count_null. revert ts.
  induction vs as [| [u |] vs IH]; intros ts H C N; cbn in H.
  - now injection H as <-.
  - cbn in N. apply andb_true_iff in N. destruct N as [Nu N].
    unfold reads_as_nat in Nu.
    destruct (parse_datetime u) as [[t |] |]; try discriminate.
    destruct (parse_all parse_datetime vs) as [ts' |]; [| discriminate].
    injection H as <-. cbn in *. now apply IH.
  - cbn in C. discriminate.
Qed.






(** The cleaned table has the raw table's column names. *)
Lemma etl_names (raw : DataFrame) :
  column_names (fst (etl parse_datetime raw)) = column_names raw.
Proof.
  cbn [etl fst]. unfold imputed, converted.
  rewrite !map_columns_names. apply drop_duplicates_names.
Qed.

Lemma etl_n_rows (raw : DataFrame) :
  n_rows (fst (etl parse_datetime raw)) = n_rows (drop_duplicates raw).
Proof.
  reflexivity.
Qed.

Lemma etl_lengths (raw : DataFrame) :
  well_formed raw ->
  Forall (fun nc => col_length (snd nc) = n_rows (drop_duplicates raw))
         (columns (fst (etl parse_datetime raw))).
Proof.
  intros W. cbn [etl fst].
  apply map_columns_lengths; [apply cap_column_length |].
  now apply imputed_lengths.
Qed.


Lemma etl_columns (raw : DataFrame) :
  columns (fst (etl parse_datetime raw))
  = map (fun nc =>
           (fst nc,
            cap_column (fill_column (convert_column parse_datetime (snd nc)))))
        (columns (drop_duplicates raw)).
Proof.
  cbn [etl fst]. unfold imputed, converted.
  rewrite !map_columns_compose. reflexivity.
Qed.

(** The cells a run counts as missing are those of the deduplicated
    table after conversion. *)
Lemma etl_missing_sum (d : DataFrame) :
  missing_imputed (snd (etl parse_datetime d))
  = sum_columns (fun c => isnull_sum (convert_column parse_datetime c))
                (drop_duplicates d).
Proof.
  cbn [etl snd missing_imputed]. unfold converted. apply sum_columns_map.
Qed.



Lemma count_true_all (mask : list bool) :
  existsb (fun b => b) mask = false ->
  count_true (map negb mask) = length mask.
Proof.
  unfold count_true. induction mask as [| b mask IH]; cbn; auto.
  destruct b; cbn; [discriminate |]. intros H. now rewrite IH.
Qed.

(** A run on a table without duplicated rows removes none. *)
Lemma etl_duplicates_zero (d : DataFrame) :
  has_duplicates d = false ->
  duplicates_removed (snd (etl parse_datetime d)) = 0%nat.
Proof.
  intros H. cbn [etl snd duplicates_removed]. unfold drop_duplicates.
  destruct (df_empty d); cbn [n_rows]; [lia |].
  rewrite (count_true_all _ H), duplicated_length. lia.
Qed.

End SecondRun.

(** *** Deduplication twice *)






Section RoundTrip.

Variable parse_datetime : string -> option (option Z).


End RoundTrip.



(** ** Tables with a single row *)

Lemma dropna_length {A : Type} (vs : list (option A)) :
  (length (dropna vs) <= length vs)%nat.
Proof.
  induction vs as [| [x |] vs IH]; cbn; lia.
Qed.

(** The sample variance of a series with at most one cell is NaN. *)
Lemma series_var_short (vs : list float) :
  (length vs <= 1)%nat -> series_var vs = None.
Proof.
  intros L. unfold series_var. pose proof (dropna_length vs) as D.
  destruct (mean_of (dropna vs)); auto.
  assert (S : (length (dropna vs) <? 2)%nat = true)
    by (apply Nat.ltb_lt; unfold float in *; lia).
  now rewrite S.
Qed.

Lemma idxmax_from_all_nan {K : Type} (best : option (K * Q))
    (s : list (K * float)) :
  Forall (fun kv => snd kv = None) s ->
  idxmax_from best s = option_map fst best.
Proof.
  induction 1 as [| [k v] s E W IH]; cbn; auto.
  cbn in E. subst v. exact IH.
Qed.

(** Whatever its columns, a table with one row and a numeric column
    makes the selector raise: the histogram rule finds no variance. *)
Lemma generate_visuals_one_row (df : DataFrame) :
  well_formed df -> n_rows df = 1%nat ->
  columns (select_number df) <> [] ->
  generate_visuals df = None.
Proof.
  intros [W _] R N. unfold generate_visuals.
  assert (E : df_empty (select_number df) = false).
  { unfold df_empty, n_cols. cbn [select_number n_rows]. rewrite R.
    destruct (columns (select_number df)); [congruence | reflexivity]. }
  rewrite E. cbn [negb].
  assert (V : idxmax (frame_var (select_number df)) = None).
  { unfold idxmax. rewrite idxmax_from_all_nan; auto.
    unfold frame_var. apply Forall_map. cbn [snd select_number columns].
    apply Forall_forall. intros [a c] I. apply filter_In in I.
    destruct I as [I _]. rewrite Forall_forall in W. specialize (W _ I).
    cbn [snd] in *. apply series_var_short.
    destruct c as [vs | vs | vs]; cbn [numeric_values col_length] in *.
    - unfold float in *. lia.
    - cbn. lia.
    - cbn. lia. }
  now rewrite V.
Qed.

(** ** Capping *)












(** ** More on the health score *)

Lemma clamp_code_bounds (r : Q) : 0 <= py_max 0 (py_min 100 r) <= 100.
Proof.
  rewrite py_max_Qmax, py_min_Qmin. split.
  - apply Q.le_max_l.
  - apply Q.max_lub; [discriminate | apply Q.le_min_l].
Qed.

(** X1. Whatever the table and the metrics, the score lies in [0, 100]. *)
Theorem health_score_range (df df_cleaned : DataFrame) (stats : etl_stats) :
  0 <= calculate_health_score df df_cleaned stats <= 100.
Proof.
  unfold calculate_health_score.
  destruct ((n_rows df * n_cols df =? 0)%nat || (n_rows df =? 0)%nat).
  - split; discriminate.
  - apply clamp_code_bounds.
Qed.

Lemma clamp_code_tenths (s : Q) :
  exists k : Z,
    (0 <= k <= 1000)%Z /\ py_max 0 (py_min 100 (round1 s)) == inject_Z k / 10.
Proof.
  unfold py_max, py_min.
  destruct (Qltb (round1 s) 100) eqn:A.
  - destruct (Qltb 0 (round1 s)) eqn:B.
    + exists (round_half_even (s * 10)). split; [| reflexivity].
      apply Qltb_lt in A, B. unfold round1 in A, B.
      set (z := round_half_even (s * 10)) in *.
      assert (Z0 : inject_Z 0 < inject_Z z).
      { change (inject_Z 0) with 0.
        setoid_replace (inject_Z z) with (inject_Z z / 10 * 10) by field.
        lra. }
      assert (Z1 : inject_Z z < inject_Z 1000).
      { change (inject_Z 1000) with 1000.
        setoid_replace (inject_Z z) with (inject_Z z / 10 * 10) by field.
        lra. }
      rewrite <- Zlt_Qlt in Z0, Z1. lia.
    + exists 0%Z. split; [lia | reflexivity].
  - exists 1000%Z. split; [lia | reflexivity].
Qed.

(** X2. The score has one decimal: it is a whole number of tenths between 0
    and 1000. *)
Theorem health_score_tenths (df df_cleaned : DataFrame) (stats : etl_stats) :
  exists k : Z,
    (0 <= k <= 1000)%Z /\
    calculate_health_score df df_cleaned stats == inject_Z k / 10.
Proof.
  unfold calculate_health_score.
  destruct ((n_rows df * n_cols df =? 0)%nat || (n_rows df =? 0)%nat).
  - exists 0%Z. split; [lia | reflexivity].
  - apply clamp_code_tenths.
Qed.

Lemma penalty_zero (denom : nat) (weight : Q) :
  HealthSpec.penalty 0 denom weight == 0.
Proof.
  unfold HealthSpec.penalty. destruct (denom =? 0)%nat; [reflexivity |].
  unfold nQ at 1. cbn [Z.of_nat]. unfold Qdiv. ring.
Qed.

(** X3. A table with cells and nothing to clean scores 100. *)
Theorem health_score_perfect (df df_cleaned : DataFrame) :
  df_empty df = false ->
  calculate_health_score df df_cleaned (mkStats 0 0 0) == 100.
Proof.
  intros NE. rewrite calculate_health_score_spec. unfold HealthSpec.score, HealthSpec.score_with.
  cbn [missing_imputed duplicates_removed outliers_handled].
  assert (C : (n_rows df * n_cols df =? 0)%nat = false).
  { unfold df_empty in NE. apply orb_false_iff in NE.
    destruct NE as [R C]. apply Nat.eqb_neq in R, C.
    apply Nat.eqb_neq. nia. }
  rewrite C.
  assert (E : HealthSpec.clamp
                (100 - (HealthSpec.penalty 0 (n_rows df * n_cols df) 40
                        + HealthSpec.penalty 0 (n_rows df) 30
                        + HealthSpec.penalty 0
                            (n_rows df * n_cols (select_number df)) 30))
                0 100 == 100).
  { pose proof (penalty_zero (n_rows df * n_cols df) 40) as E1.
    pose proof (penalty_zero (n_rows df) 30) as E2.
    pose proof (penalty_zero (n_rows df * n_cols (select_number df)) 30)
      as E3.
    unfold HealthSpec.clamp.
    rewrite Q.min_l by lra. apply Q.max_r. lra. }
  rewrite (round1_comp _ _ E). reflexivity.
Qed.

Lemma health_score_perfect_witness :
  calculate_health_score sample_table sample_table (mkStats 0 0 0) == 100.
Proof.
  apply (health_score_perfect sample_table sample_table). reflexivity.
Defined.

Lemma penalty_mono (c1 c2 denom : nat) (weight : Q) :
  (c1 <= c2)%nat -> 0 <= weight ->
  HealthSpec.penalty c1 denom weight <= HealthSpec.penalty c2 denom weight.
Proof.
  intros L W. unfold HealthSpec.penalty.
  destruct (denom =? 0)%nat eqn:E; [apply Qle_refl |].
  apply Nat.eqb_neq in E.
  assert (P : 0 <= / nQ denom).
  { apply Qinv_le_0_compat. change 0 with (nQ 0). apply nQ_le. lia. }
  apply Qmult_le_compat_r; [| exact W].
  unfold Qdiv. apply Qmult_le_compat_r; [| exact P].
  now apply nQ_le.
Qed.

Lemma clamp_mono (x y : Q) :
  x <= y -> HealthSpec.clamp x 0 100 <= HealthSpec.clamp y 0 100.
Proof.
  intros L. unfold HealthSpec.clamp.
  apply Q.max_le_compat_l, Q.min_le_compat_l, L.
Qed.

(** X4. More cleansing work never gives a better score: when each of the
    three metrics of one record is at most that of another, the first
    record scores at least as high on the same table. *)
Theorem health_score_monotone (df dc dc' : DataFrame) (s s' : etl_stats) :
  (missing_imputed s <= missing_imputed s')%nat ->
  (duplicates_removed s <= duplicates_removed s')%nat ->
  (outliers_handled s <= outliers_handled s')%nat ->
  calculate_health_score df dc' s' <= calculate_health_score df dc s.
Proof.
  intros Hm Hd Ho. rewrite !calculate_health_score_spec.
  unfold HealthSpec.score, HealthSpec.score_with.
  destruct (n_rows df * n_cols df =? 0)%nat; [apply Qle_refl |].
  apply round1_mono, clamp_mono.
  pose proof (penalty_mono _ _ (n_rows df * n_cols df) 40 Hm) as P1.
  pose proof (penalty_mono _ _ (n_rows df) 30 Hd) as P2.
  pose proof (penalty_mono _ _ (n_rows df * n_cols (select_number df)) 30 Ho)
    as P3.
  assert (0 <= 40) by discriminate. assert (0 <= 30) by discriminate.
  specialize (P1 H). specialize (P2 H0). specialize (P3 H0). lra.
Qed.

Lemma health_score_monotone_witness :
  calculate_health_score sample_table sample_table (mkStats 1 2 0)
  <= calculate_health_score sample_table sample_table (mkStats 1 0 0).
Proof.
  apply (health_score_monotone sample_table sample_table sample_table
           (mkStats 1 0 0) (mkStats 1 2 0)); cbn; lia.
Defined.

(** ** More on the cleansing engine *)

Section CleansingMore.

Variable parse_datetime : string -> option (option Z).

(** X5. The cleaned table is a table again, with the columns of the raw
    table under their names and in their order, and its rows are the raw
    rows less the duplicates the metrics report. *)
Theorem cleanse_shape (raw : DataFrame) :
  well_formed raw ->
  exists cleaned stats,
    cleanse parse_datetime raw = Some (cleaned, stats) /\
    well_formed cleaned /\
    column_names cleaned = column_names raw /\
    (n_rows cleaned + duplicates_removed stats = n_rows raw)%nat.
Proof.
  intros W.
  exists (fst (etl parse_datetime raw)), (snd (etl parse_datetime raw)).
  split; [| split; [| split]].
  - rewrite cleanse_etl by apply W. now destruct (etl parse_datetime raw).
  - split.
    + rewrite etl_n_rows. now apply etl_lengths.
    + rewrite etl_names. apply W.
  - apply etl_names.
  - rewrite etl_n_rows. cbn [etl snd duplicates_removed].
    pose proof (drop_duplicates_n_rows raw). lia.
Qed.


Lemma forallb_take_mask {A : Type} (f : A -> bool) (mask : list bool)
    (l : list A) :
  forallb f l = true -> forallb f (take_mask mask l) = true.
Proof.
  revert l. induction mask as [| b mask IH]; intros l H; [reflexivity |].
  destruct l as [| x l]; [now destruct b |].
  cbn [forallb] in H. apply andb_true_iff in H. destruct H as [Hx H].
  destruct b; cbn [take_mask forallb]; auto.
  rewrite Hx. cbn [andb]. auto.
Qed.

Lemma col_take_no_nat_strings (mask : list bool) (c : column) :
  no_nat_strings parse_datetime c = true ->
  no_nat_strings parse_datetime (col_take mask c) = true.
Proof.
  unfold no_nat_strings. rewrite cells_col_take. apply forallb_take_mask.
Qed.

(** Conversion adds no missing cell to a complete column without a
    string that is read as a missing date. *)
Lemma convert_column_complete (c : column) :
  isnull_sum c = 0%nat -> no_nat_strings parse_datetime c = true ->
  isnull_sum (convert_column parse_datetime c) = 0%nat.
Proof.
  unfold convert_column, no_nat_strings.
  destruct c as [vs | vs | vs]; cbn [is_object_dtype to_datetime_ignore];
    auto.
  cbn [isnull_sum cells]. intros C N.
  destruct (parse_all parse_datetime vs) as [ts |] eqn:E; cbn [isnull_sum];
    auto.
  now apply (parse_all_complete parse_datetime vs ts).
Qed.

(** X8. A table without a missing cell, without a string that pandas
    reads as a missing date, and without duplicated rows keeps all its
    rows, and the engine reports no duplicate and no imputed cell. *)
Theorem cleanse_clean_table (raw : DataFrame) :
  well_formed raw ->
  has_duplicates raw = false ->
  Forall (fun nc => isnull_sum (snd nc) = 0%nat) (columns raw) ->
  Forall (fun nc => no_nat_strings parse_datetime (snd nc) = true)
         (columns raw) ->
  exists cleaned stats,
    cleanse parse_datetime raw = Some (cleaned, stats) /\
    duplicates_removed stats = 0%nat /\
    missing_imputed stats = 0%nat /\
    n_rows cleaned = n_rows raw.
Proof.
  intros W D C N.
  exists (fst (etl parse_datetime raw)), (snd (etl parse_datetime raw)).
  pose proof (etl_duplicates_zero parse_datetime raw D) as Z.
  split; [| split; [| split]]; auto.
  - rewrite cleanse_etl by apply W. now destruct (etl parse_datetime raw).
  - rewrite etl_missing_sum.
    apply (sum_columns_zero _ _
             (fun c => isnull_sum c = 0%nat
                       /\ no_nat_strings parse_datetime c = true)).
    + rewrite Forall_forall in C, N.
      apply (drop_duplicates_columns raw
               (fun c => isnull_sum c = 0%nat
                         /\ no_nat_strings parse_datetime c = true)); auto.
      * intros a c I. split; [apply (C (a, c) I) | apply (N (a, c) I)].
      * intros a c I [H1 H2]. split.
        -- now apply col_take_complete.
        -- now apply col_take_no_nat_strings.
    + intros c [H1 H2]. now apply convert_column_complete.
  - rewrite etl_n_rows. cbn [etl snd duplicates_removed] in Z.
    pose proof (drop_duplicates_n_rows raw). lia.
Qed.

End CleansingMore.

Lemma cleanse_shape_witness :
  exists cleaned stats,
    cleanse no_dates sample_table = Some (cleaned, stats) /\
    well_formed cleaned /\
    column_names cleaned = column_names sample_table /\
    (n_rows cleaned + duplicates_removed stats = n_rows sample_table)%nat.
Proof.
  apply (cleanse_shape no_dates sample_table).
  apply well_formed_b_sound. reflexivity.
Defined.


Lemma cleanse_clean_table_witness :
  exists cleaned stats,
    cleanse no_dates mixed_table = Some (cleaned, stats) /\
    duplicates_removed stats = 0%nat /\
    missing_imputed stats = 0%nat /\
    n_rows cleaned = n_rows mixed_table.
Proof.
  apply (cleanse_clean_table no_dates mixed_table).
  - apply well_formed_b_sound. reflexivity.
  - reflexivity.
  - repeat constructor.
  - repeat constructor.
Defined.

(** ** More on the statistics engine *)



Lemma series_var_none (vs : list float) :
  series_var vs = None <-> (length (dropna vs) < 2)%nat.
Proof.
  unfold series_var, mean_of.
  destruct (length (dropna vs) =? 0)%nat eqn:E0.
  - apply Nat.eqb_eq in E0. split; auto. lia.
  - destruct (length (dropna vs) <? 2)%nat eqn:E2.
    + apply Nat.ltb_lt in E2. tauto.
    + apply Nat.ltb_ge in E2. split; [discriminate | lia].
Qed.

Section StatisticsMore.

Variable fsqrt : Q -> Q.
Variable fpow15 : Q -> Q.


(** X13. The row of a numeric column without a value has the NaN sentinel as
    mean, median, standard deviation, minimum and maximum. *)
Theorem stats_no_value (col : string) (vs : list float) :
  dropna vs = [] ->
  Mean (describe_numeric fsqrt fpow15 col vs) = None /\
  Median (describe_numeric fsqrt fpow15 col vs) = None /\
  Std_Dev (describe_numeric fsqrt fpow15 col vs) = None /\
  Min (describe_numeric fsqrt fpow15 col vs) = None /\
  Max (describe_numeric fsqrt fpow15 col vs) = None.
Proof.
  intros E. cbn [describe_numeric Mean Median Std_Dev Min Max].
  unfold series_mean, median, series_std, series_var, series_min, series_max.
  rewrite E. cbn. repeat split; reflexivity.
Qed.

(** X14. The row of a numeric column with a single value has that value as
    mean, median, minimum and maximum, and the NaN sentinel as standard
    deviation, skewness and kurtosis. *)
Theorem stats_single_value (col : string) (vs : list float) (x : Q) :
  dropna vs = [x] ->
  (exists m, Mean (describe_numeric fsqrt fpow15 col vs) = Some m /\ m == x) /\
  Median (describe_numeric fsqrt fpow15 col vs) = Some x /\
  Min (describe_numeric fsqrt fpow15 col vs) = Some x /\
  Max (describe_numeric fsqrt fpow15 col vs) = Some x /\
  Std_Dev (describe_numeric fsqrt fpow15 col vs) = None /\
  Skewness (describe_numeric fsqrt fpow15 col vs) = None /\
  Kurtosis (describe_numeric fsqrt fpow15 col vs) = None.
Proof.
  intros E.
  assert (C : constant_series vs).
  { intros a b. rewrite E. intros [<- | []] [<- | []]. reflexivity. }
  cbn [describe_numeric Mean Median Std_Dev Min Max Skewness Kurtosis].
  split; [| split; [| split; [| split; [| split; [| split]]]]].
  - unfold series_mean, mean_of. rewrite E. cbn [length Nat.eqb].
    eexists. split; [reflexivity |]. cbn [Qsum fold_right].
    unfold nQ. cbn. field.
  - unfold median. rewrite E. reflexivity.
  - unfold series_min. rewrite E. reflexivity.
  - unfold series_max. rewrite E. reflexivity.
  - unfold series_std, series_var, mean_of. rewrite E. reflexivity.
  - now apply skew_constant.
  - now apply kurtosis_constant.
Qed.

End StatisticsMore.


Lemma stats_no_value_witness :
  Mean (describe_numeric sample_sqrt sample_pow15 "A" [None; None]) = None /\
  Median (describe_numeric sample_sqrt sample_pow15 "A" [None; None]) = None /\
  Std_Dev (describe_numeric sample_sqrt sample_pow15 "A" [None; None]) = None /\
  Min (describe_numeric sample_sqrt sample_pow15 "A" [None; None]) = None /\
  Max (describe_numeric sample_sqrt sample_pow15 "A" [None; None]) = None.
Proof.
  apply (stats_no_value sample_sqrt sample_pow15 "A" [None; None]).
  reflexivity.
Defined.

Lemma stats_single_value_witness :
  (exists m, Mean (describe_numeric sample_sqrt sample_pow15 "A"
                     [None; Some 7]) = Some m /\ m == 7) /\
  Median (describe_numeric sample_sqrt sample_pow15 "A" [None; Some 7])
  = Some 7 /\
  Min (describe_numeric sample_sqrt sample_pow15 "A" [None; Some 7])
  = Some 7 /\
  Max (describe_numeric sample_sqrt sample_pow15 "A" [None; Some 7])
  = Some 7 /\
  Std_Dev (describe_numeric sample_sqrt sample_pow15 "A" [None; Some 7])
  = None /\
  Skewness (describe_numeric sample_sqrt sample_pow15 "A" [None; Some 7])
  = None /\
  Kurtosis (describe_numeric sample_sqrt sample_pow15 "A" [None; Some 7])
  = None.
Proof.
  apply (stats_single_value sample_sqrt sample_pow15 "A" [None; Some 7] 7).
  reflexivity.
Defined.

(** ** More on the visualization selector *)

(** The selector is its nine rules run one after the other. *)
Lemma generate_visuals_rules (df : DataFrame) :
  generate_visuals df
  = match histogram_rule df with
    | Some hist => Some (heatmap_rule df ++ hist ++ later_rules df)
    | None => None
    end.
Proof.
  unfold generate_visuals, histogram_rule, later_rules, heatmap_rule,
    scatter_rule, contour_rule, strongest_pair, box_rule, bar_rule, pie_rule,
    violin_rule, line_rule, valid_cat_cols.
  cbv zeta.
  destruct (negb (df_empty (select_number df)));
    [destruct (idxmax (frame_var (select_number df))); [| reflexivity] |];
    (destruct (1 <? n_cols (select_number df))%nat;
     [destruct (below_one (corr_abs_unstack (select_number df)));
      [| destruct (idxmax _) as [[c1 c2] |]] |]);
    destruct (0 <? n_cols (select_number df))%nat;
    try destruct (nth_error (column_names (select_number df))
                    (Nat.min 1 (n_cols (select_number df) - 1)));
    try destruct (nth_error (column_names (select_number df)) 0);
    (destruct (negb (df_empty (select_object df)));
     [destruct (idxmax _); destruct (idxmin _) |]);
    cbn [app]; rewrite <- ?app_assoc; reflexivity.
Qed.

Lemma idxmax_from_best {K : Type} (b : K * Q) (s : list (K * float)) :
  idxmax_from (Some b) s <> None.
Proof.
  revert b. induction s as [| [k [v |]] s IH]; intros [k0 b]; cbn.
  - discriminate.
  - destruct (Qltb b v); apply IH.
  - apply IH.
Qed.

Lemma idxmin_from_best {K : Type} (b : K * Q) (s : list (K * float)) :
  idxmin_from (Some b) s <> None.
Proof.
  revert b. induction s as [| [k [v |]] s IH]; intros [k0 b]; cbn.
  - discriminate.
  - destruct (Qltb v b); apply IH.
  - apply IH.
Qed.

(** [idxmax] finds no label exactly when every value is missing. *)
Lemma idxmax_none {K : Type} (s : list (K * float)) :
  idxmax s = None <-> Forall (fun kv => snd kv = None) s.
Proof.
  split.
  - unfold idxmax. induction s as [| [k [v |]] s IH]; cbn; intros H.
    + constructor.
    + now apply idxmax_from_best in H.
    + constructor; auto.
  - intros F. unfold idxmax. now rewrite idxmax_from_all_nan.
Qed.

Lemma idxmin_none {K : Type} (s : list (K * float)) :
  idxmin s = None -> Forall (fun kv => snd kv = None) s.
Proof.
  unfold idxmin. induction s as [| [k [v |]] s IH]; cbn; intros H.
  - constructor.
  - now apply idxmin_from_best in H.
  - constructor; auto.
Qed.

Lemma idxmax_from_in {K : Type} (best : option (K * Q)) (s : list (K * float))
    (k : K) :
  idxmax_from best s = Some k ->
  (exists b, best = Some (k, b)) \/ (exists v, In (k, Some v) s).
Proof.
  revert best. induction s as [| [k1 [v |]] s IH]; intros best; cbn.
  - destruct best as [[k0 b] |]; cbn; [| discriminate].
    intros E. injection E as <-. left. eauto.
  - destruct best as [[k0 b] |].
    + destruct (Qltb b v); intros E; apply IH in E;
        destruct E as [[b' E] | [v' I]]; eauto.
      injection E as <- <-. right. eauto.
    + intros E; apply IH in E. destruct E as [[b' E] | [v' I]]; eauto.
      injection E as <- <-. right. eauto.
  - intros E; apply IH in E. destruct E as [E | [v' I]]; eauto.
Qed.

Lemma idxmin_from_in {K : Type} (best : option (K * Q)) (s : list (K * float))
    (k : K) :
  idxmin_from best s = Some k ->
  (exists b, best = Some (k, b)) \/ (exists v, In (k, Some v) s).
Proof.
  revert best. induction s as [| [k1 [v |]] s IH]; intros best; cbn.
  - destruct best as [[k0 b] |]; cbn; [| discriminate].
    intros E. injection E as <-. left. eauto.
  - destruct best as [[k0 b] |].
    + destruct (Qltb v b); intros E; apply IH in E;
        destruct E as [[b' E] | [v' I]]; eauto.
      injection E as <- <-. right. eauto.
    + intros E; apply IH in E. destruct E as [[b' E] | [v' I]]; eauto.
      injection E as <- <-. right. eauto.
  - intros E; apply IH in E. destruct E as [E | [v' I]]; eauto.
Qed.

Lemma idxmax_in {K : Type} (s : list (K * float)) (k : K) :
  idxmax s = Some k -> exists v, In (k, Some v) s.
Proof.
  intros E. apply idxmax_from_in in E.
  destruct E as [[b E] | E]; [discriminate | exact E].
Qed.

Lemma idxmin_in {K : Type} (s : list (K * float)) (k : K) :
  idxmin s = Some k -> exists v, In (k, Some v) s.
Proof.
  intros E. apply idxmin_from_in in E.
  destruct E as [[b E] | E]; [discriminate | exact E].
Qed.

Lemma as_floats_in {K : Type} (l : list (K * nat)) (k : K) (v : Q) :
  In (k, Some v) (as_floats l) -> exists n, In (k, n) l.
Proof.
  unfold as_floats. intros I. apply in_map_iff in I.
  destruct I as [[k' n] [E I]]. cbn in E. injection E as <- _. eauto.
Qed.

Lemma idxmax_as_floats {K : Type} (l : list (K * nat)) :
  is_some (idxmax (as_floats l)) = nonempty l.
Proof.
  destruct l as [| [k n] l]; [reflexivity |].
  cbn [nonempty]. destruct (idxmax _) eqn:E; [reflexivity |].
  apply idxmax_none in E. inversion E; subst. discriminate.
Qed.

Lemma idxmin_as_floats {K : Type} (l : list (K * nat)) :
  is_some (idxmin (as_floats l)) = nonempty l.
Proof.
  destruct l as [| [k n] l]; [reflexivity |].
  cbn [nonempty]. destruct (idxmin _) eqn:E; [reflexivity |].
  apply idxmin_none in E. inversion E; subst. discriminate.
Qed.

Lemma below_one_in {K : Type} (s : list (K * float)) (k : K) (v : float) :
  In (k, v) (below_one s) <-> In (k, v) s /\ exists r, v = Some r /\ r < 1.
Proof.
  unfold below_one. rewrite filter_In. cbn [snd].
  split; intros [I H]; split; auto.
  - destruct v as [r |]; [| discriminate]. exists r. split; auto.
    now apply Qltb_lt.
  - destruct H as [r [-> L]]. now apply Qltb_lt.
Qed.



(** A pair is found exactly when an entry is left below 1. *)
Lemma strongest_pair_found (d : DataFrame) :
  is_some (strongest_pair d)
  = (1 <? n_cols d)%nat && nonempty (below_one (corr_abs_unstack d)).
Proof.
  unfold strongest_pair. destruct (1 <? n_cols d)%nat; [| reflexivity].
  cbn [andb].
  destruct (below_one (corr_abs_unstack d)) as [| [k v] es] eqn:B;
    [reflexivity |].
  cbn [nonempty]. destruct (idxmax _) eqn:E; [reflexivity |].
  apply idxmax_none in E. inversion E as [| ? ? V _]; subst. cbn in V.
  assert (I : In (k, v) (below_one (corr_abs_unstack d)))
    by (rewrite B; now left).
  apply below_one_in in I. destruct I as [_ [r [Er _]]]. congruence.
Qed.

Lemma strongest_pair_in (d : DataFrame) (a b : string) :
  strongest_pair d = Some (a, b) ->
  exists c1 c2 r,
    In (a, c1) (columns d) /\ In (b, c2) (columns d) /\
    corr_sq (numeric_values c2) (numeric_values c1) = Some r /\ r < 1.
Proof.
  unfold strongest_pair. destruct (1 <? n_cols d)%nat; [| discriminate].
  destruct (below_one (corr_abs_unstack d)) as [| e es] eqn:B;
    [discriminate |].
  intros E. apply idxmax_in in E. destruct E as [v I].
  rewrite <- B in I. apply below_one_in in I.
  destruct I as [I [r [Er L]]]. injection Er as <-.
  unfold corr_abs_unstack in I. apply in_flat_map in I.
  destruct I as [[a1 c1] [I1 I]]. apply in_map_iff in I.
  destruct I as [[a2 c2] [E I2]]. cbn [fst snd] in E.
  injection E as <- <- E. exists c1, c2, v. auto.
Qed.

Lemma column_names_length (d : DataFrame) :
  length (column_names d) = n_cols d.
Proof.
  apply length_map.
Qed.

(** *** The chart types a run produces *)

Lemma heatmap_rule_kinds (df : DataFrame) :
  map fig_type (heatmap_rule df)
  = when (1 <? n_cols (select_number df))%nat Heatmap.
Proof.
  unfold heatmap_rule. now destruct (1 <? _)%nat.
Qed.

Lemma histogram_rule_kinds (df : DataFrame) (hist : list figure) :
  histogram_rule df = Some hist ->
  map fig_type hist = when (negb (df_empty (select_number df))) Histogram.
Proof.
  unfold histogram_rule. destruct (negb _).
  - destruct (idxmax _); [| discriminate]. now intros [= <-].
  - now intros [= <-].
Qed.

Lemma scatter_rule_kinds (df : DataFrame) :
  map fig_type (scatter_rule df)
  = when (is_some (strongest_pair (select_number df))) Scatter.
Proof.
  unfold scatter_rule. now destruct (strongest_pair _) as [[a b] |].
Qed.

Lemma contour_rule_kinds (df : DataFrame) :
  map fig_type (contour_rule df)
  = when (is_some (strongest_pair (select_number df))) Contour.
Proof.
  unfold contour_rule. now destruct (strongest_pair _) as [[a b] |].
Qed.

Lemma box_rule_kinds (df : DataFrame) :
  map fig_type (box_rule df) = when (0 <? n_cols (select_number df))%nat Box.
Proof.
  unfold box_rule. now destruct (0 <? _)%nat.
Qed.

Lemma bar_rule_kinds (df : DataFrame) :
  map fig_type (bar_rule df)
  = when (negb (df_empty (select_object df))
          && nonempty (valid_cat_cols (select_object df) 20)) Bar.
Proof.
  unfold bar_rule. destruct (negb _); [| reflexivity]. cbn [andb].
  rewrite <- idxmax_as_floats. now destruct (idxmax _).
Qed.

Lemma pie_rule_kinds (df : DataFrame) :
  map fig_type (pie_rule df)
  = when (negb (df_empty (select_object df))
          && nonempty (valid_cat_cols (select_object df) 5)) Pie.
Proof.
  unfold pie_rule. destruct (negb _); [| reflexivity]. cbn [andb].
  rewrite <- idxmin_as_floats. now destruct (idxmin _).
Qed.

Lemma violin_rule_kinds (df : DataFrame) :
  map fig_type (violin_rule df)
  = when (0 <? n_cols (select_number df))%nat Violin.
Proof.
  unfold violin_rule. destruct (0 <? _)%nat eqn:E; [| reflexivity].
  apply Nat.ltb_lt in E.
  destruct (nth_error _ _) eqn:N; [reflexivity |].
  apply nth_error_None in N. rewrite column_names_length in N. lia.
Qed.

Lemma line_rule_kinds (df : DataFrame) :
  map fig_type (line_rule df)
  = when (0 <? n_cols (select_number df))%nat Line.
Proof.
  unfold line_rule. destruct (0 <? _)%nat eqn:E; [| reflexivity].
  apply Nat.ltb_lt in E.
  destruct (nth_error _ _) eqn:N; [reflexivity |].
  apply nth_error_None in N. rewrite column_names_length in N. lia.
Qed.

Lemma generate_visuals_kinds (df : DataFrame) (figs : list figure) :
  generate_visuals df = Some figs ->
  map fig_type figs
  = when (1 <? n_cols (select_number df))%nat Heatmap
    ++ when (negb (df_empty (select_number df))) Histogram
    ++ when (is_some (strongest_pair (select_number df))) Scatter
    ++ when (0 <? n_cols (select_number df))%nat Box
    ++ when (negb (df_empty (select_object df))
             && nonempty (valid_cat_cols (select_object df) 20)) Bar
    ++ when (negb (df_empty (select_object df))
             && nonempty (valid_cat_cols (select_object df) 5)) Pie
    ++ when (0 <? n_cols (select_number df))%nat Violin
    ++ when (0 <? n_cols (select_number df))%nat Line
    ++ when (is_some (strongest_pair (select_number df))) Contour.
Proof.
  rewrite generate_visuals_rules.
  destruct (histogram_rule df) as [hist |] eqn:H; [| discriminate].
  intros [= <-]. unfold later_rules. rewrite !map_app.
  rewrite heatmap_rule_kinds, (histogram_rule_kinds df hist H),
    scatter_rule_kinds, box_rule_kinds, bar_rule_kinds, pie_rule_kinds,
    violin_rule_kinds, line_rule_kinds, contour_rule_kinds.
  reflexivity.
Qed.

Lemma has_kind_map (k : chart_kind) (figs : list figure) :
  has_kind k figs = existsb (fun x => chart_kind_eqb x k) (map fig_type figs).
Proof.
  unfold has_kind. induction figs as [| f figs IH]; cbn; congruence.
Qed.

Lemma valid_cat_cols_widen (d : DataFrame) :
  nonempty (valid_cat_cols d 5) = true ->
  nonempty (valid_cat_cols d 20) = true.
Proof.
  unfold valid_cat_cols.
  induction (frame_nunique d) as [| [k n] l IH]; [discriminate |].
  cbn [filter snd].
  destruct (1 <? n)%nat; cbn [andb]; auto.
  destruct (n <=? 5)%nat eqn:E5.
  - apply Nat.leb_le in E5.
    assert (E20 : (n <=? 20)%nat = true) by (apply Nat.leb_le; lia).
    now rewrite E20.
  - intros H. destruct (n <=? 20)%nat; auto.
Qed.

Lemma histogram_rule_none (df : DataFrame) :
  histogram_rule df = None
  <-> df_empty (select_number df) = false /\
      forall a c, In (a, c) (columns (select_number df)) ->
        (length (dropna (numeric_values c)) < 2)%nat.
Proof.
  unfold histogram_rule.
  destruct (df_empty (select_number df)); cbn [negb].
  - split; [discriminate | intros [H _]; discriminate].
  - destruct (idxmax (frame_var (select_number df))) eqn:E.
    + split; [discriminate |]. intros [_ H]. exfalso.
      assert (N : idxmax (frame_var (select_number df)) = None);
        [| congruence].
      apply idxmax_none. unfold frame_var. apply Forall_map.
      apply Forall_forall. intros [a c] I. cbn [snd].
      apply series_var_none. eapply H; eauto.
    + split; [| reflexivity]. intros _. split; [reflexivity |].
      intros a c I. apply idxmax_none in E. unfold frame_var in E.
      rewrite Forall_map, Forall_forall in E. specialize (E _ I).
      cbn [snd] in E. now apply series_var_none.
Qed.

Lemma generate_visuals_none (df : DataFrame) :
  generate_visuals df = None <-> histogram_rule df = None.
Proof.
  rewrite generate_visuals_rules.
  destruct (histogram_rule df); split; congruence.
Qed.

(** X15. The selector raises on every table that has a row and a numeric
    column but no numeric column with two values: the histogram rule
    then has no variance to pick a column by. *)
Theorem generate_visuals_raises (df : DataFrame) :
  df_empty (select_number df) = false ->
  (forall a c, In (a, c) (columns (select_number df)) ->
     (length (dropna (numeric_values c)) < 2)%nat) ->
  generate_visuals df = None.
Proof.
  intros E H. apply generate_visuals_none, histogram_rule_none. auto.
Qed.

(** X16. No figure at all means that the table has no numeric column (and no
    text column fit for a bar chart). *)
Theorem no_figures_iff (df : DataFrame) :
  generate_visuals df = Some []
  <-> n_cols (select_number df) = 0%nat /\
      negb (df_empty (select_object df))
      && nonempty (valid_cat_cols (select_object df) 20) = false.
Proof.
  split.
  - intros H. pose proof (generate_visuals_kinds df [] H) as K.
    cbn [map] in K.
    destruct (n_cols (select_number df)) as [| n] eqn:N.
    + split; [reflexivity |].
      destruct (negb (df_empty (select_object df))
                && nonempty (valid_cat_cols (select_object df) 20));
        [| reflexivity].
      revert K. cbn [Nat.ltb Nat.leb when app].
      destruct (negb (df_empty (select_number df))),
        (is_some (strongest_pair (select_number df))); discriminate.
    + exfalso. revert K.
      replace (0 <? S n)%nat with true by reflexivity.
      destruct (1 <? S n)%nat, (negb (df_empty (select_number df))),
        (is_some (strongest_pair (select_number df))); discriminate.
  - intros [N B].
    destruct (generate_visuals df) as [figs |] eqn:H.
    + f_equal. apply map_eq_nil with (f := fig_type).
      rewrite (generate_visuals_kinds df figs H).
      assert (P : is_some (strongest_pair (select_number df)) = false).
      { rewrite strongest_pair_found, N. reflexivity. }
      assert (E : negb (df_empty (select_number df)) = false).
      { unfold df_empty. rewrite N. cbn. now rewrite orb_true_r. }
      assert (B5 : negb (df_empty (select_object df))
                   && nonempty (valid_cat_cols (select_object df) 5) = false).
      { destruct (negb (df_empty (select_object df))); [| reflexivity].
        cbn [andb] in *.
        destruct (nonempty (valid_cat_cols (select_object df) 5)) eqn:V;
          [| reflexivity].
        apply valid_cat_cols_widen in V. congruence. }
      rewrite N, P, E, B, B5. reflexivity.
    + exfalso. apply generate_visuals_none, histogram_rule_none in H.
      destruct H as [H _]. unfold df_empty in H. rewrite N in H.
      cbn in H. rewrite orb_true_r in H. discriminate.
Qed.

(** X17. The figures come in the order of the rules, each chart type at most
    once. *)
Theorem generate_visuals_order (df : DataFrame) (figs : list figure) :
  generate_visuals df = Some figs ->
  subsequence (map fig_type figs) rule_order = true.
Proof.
  intros H. rewrite (generate_visuals_kinds df figs H).
  destruct (1 <? n_cols (select_number df))%nat,
    (negb (df_empty (select_number df))),
    (is_some (strongest_pair (select_number df))),
    (0 <? n_cols (select_number df))%nat,
    (negb (df_empty (select_object df))),
    (nonempty (valid_cat_cols (select_object df) 20)),
    (nonempty (valid_cat_cols (select_object df) 5)); reflexivity.
Qed.

(** X18. Which of the chart types on numeric columns a run produces: a
    heatmap with two numeric columns or more; a box plot, a violin plot
    and a line chart with one or more; a histogram when the table also
    has a row. *)
Theorem numeric_charts_present (df : DataFrame) (figs : list figure) :
  generate_visuals df = Some figs ->
  has_kind Heatmap figs = (1 <? n_cols (select_number df))%nat /\
  has_kind Box figs = (0 <? n_cols (select_number df))%nat /\
  has_kind Violin figs = (0 <? n_cols (select_number df))%nat /\
  has_kind Line figs = (0 <? n_cols (select_number df))%nat /\
  has_kind Histogram figs = negb (df_empty (select_number df)).
Proof.
  intros H. rewrite !has_kind_map, (generate_visuals_kinds df figs H).
  destruct (1 <? n_cols (select_number df))%nat,
    (negb (df_empty (select_number df))),
    (is_some (strongest_pair (select_number df))),
    (0 <? n_cols (select_number df))%nat,
    (negb (df_empty (select_object df))),
    (nonempty (valid_cat_cols (select_object df) 20)),
    (nonempty (valid_cat_cols (select_object df) 5));
    repeat split; reflexivity.
Qed.

(** X19. A run that shows a pie chart shows a bar chart too. *)
Theorem pie_implies_bar (df : DataFrame) (figs : list figure) :
  generate_visuals df = Some figs ->
  has_kind Pie figs = true -> has_kind Bar figs = true.
Proof.
  intros H. rewrite !has_kind_map, (generate_visuals_kinds df figs H).
  pose proof (valid_cat_cols_widen (select_object df)) as W.
  destruct (1 <? n_cols (select_number df))%nat,
    (negb (df_empty (select_number df))),
    (is_some (strongest_pair (select_number df))),
    (0 <? n_cols (select_number df))%nat,
    (negb (df_empty (select_object df))),
    (nonempty (valid_cat_cols (select_object df) 20)),
    (nonempty (valid_cat_cols (select_object df) 5));
    cbn; intros P; auto; try discriminate.
Qed.

(** *** Figures and the rules they come from *)

Lemma in_when (b : bool) (k K : chart_kind) : In k (when b K) -> k = K.
Proof.
  destruct b; cbn; [intros [E | []] | intros []]. now symmetry.
Qed.

Lemma in_rule_kind (rule : list figure) (b : bool) (K : chart_kind)
    (f : figure) :
  map fig_type rule = when b K -> In f rule -> fig_type f = K.
Proof.
  intros E I. apply (in_when b). rewrite <- E. now apply in_map.
Qed.

(** A figure is in the result exactly when the rule of its chart type
    made it. *)
Lemma in_figures_rule (df : DataFrame) (figs : list figure) (f : figure) :
  generate_visuals df = Some figs ->
  In f figs <-> In f (rule_of (fig_type f) df).
Proof.
  rewrite generate_visuals_rules.
  destruct (histogram_rule df) as [hist |] eqn:H; [| discriminate].
  intros [= <-]. unfold later_rules. rewrite !in_app_iff.
  pose proof (in_rule_kind _ _ _ f (heatmap_rule_kinds df)) as K1.
  pose proof (in_rule_kind _ _ _ f (histogram_rule_kinds df hist H)) as K2.
  pose proof (in_rule_kind _ _ _ f (scatter_rule_kinds df)) as K3.
  pose proof (in_rule_kind _ _ _ f (box_rule_kinds df)) as K4.
  pose proof (in_rule_kind _ _ _ f (bar_rule_kinds df)) as K5.
  pose proof (in_rule_kind _ _ _ f (pie_rule_kinds df)) as K6.
  pose proof (in_rule_kind _ _ _ f (violin_rule_kinds df)) as K7.
  pose proof (in_rule_kind _ _ _ f (line_rule_kinds df)) as K8.
  pose proof (in_rule_kind _ _ _ f (contour_rule_kinds df)) as K9.
  split.
  - intros [I | [I | [I | [I | [I | [I | [I | [I | I]]]]]]]].
    + now rewrite (K1 I).
    + rewrite (K2 I). cbn [rule_of]. now rewrite H.
    + now rewrite (K3 I).
    + now rewrite (K4 I).
    + now rewrite (K5 I).
    + now rewrite (K6 I).
    + now rewrite (K7 I).
    + now rewrite (K8 I).
    + now rewrite (K9 I).
  - destruct (fig_type f); cbn [rule_of]; rewrite ?H; intros I; tauto.
Qed.

Lemma scatter_rule_in (df : DataFrame) (cols : list string) :
  In (mkFigure Scatter cols) (scatter_rule df)
  <-> exists a b, strongest_pair (select_number df) = Some (a, b) /\
                  cols = [a; b].
Proof.
  unfold scatter_rule.
  destruct (strongest_pair (select_number df)) as [[a b] |]; cbn.
  - split.
    + intros [E | []]. injection E as <-. eauto.
    + intros [a' [b' [E ->]]]. injection E as <- <-. auto.
  - split; [intros [] | intros [a [b [E _]]]; discriminate].
Qed.

Lemma contour_rule_in (df : DataFrame) (cols : list string) :
  In (mkFigure Contour cols) (contour_rule df)
  <-> exists a b, strongest_pair (select_number df) = Some (a, b) /\
                  cols = [a; b].
Proof.
  unfold contour_rule.
  destruct (strongest_pair (select_number df)) as [[a b] |]; cbn.
  - split.
    + intros [E | []]. injection E as <-. eauto.
    + intros [a' [b' [E ->]]]. injection E as <- <-. auto.
  - split; [intros [] | intros [a [b [E _]]]; discriminate].
Qed.

(** X21. The scatter plot and the density contour of a run show the same
    pair of columns. *)
Theorem scatter_contour_same_pair (df : DataFrame) (figs : list figure)
    (cols : list string) :
  generate_visuals df = Some figs ->
  In (mkFigure Scatter cols) figs <-> In (mkFigure Contour cols) figs.
Proof.
  intros H.
  rewrite (in_figures_rule df figs (mkFigure Scatter cols) H).
  rewrite (in_figures_rule df figs (mkFigure Contour cols) H).
  cbn [fig_type rule_of]. now rewrite scatter_rule_in, contour_rule_in.
Qed.




Lemma numeric_name_in (df : DataFrame) (c : string) :
  In c (column_names (select_number df)) ->
  exists col, In (c, col) (columns df) /\ is_numeric_dtype col = true.
Proof.
  unfold column_names, select_number. cbn [columns]. intros I.
  apply in_map_iff in I. destruct I as [[a col] [E I]]. cbn in E. subst a.
  apply filter_In in I. cbn [snd] in I. exists col. tauto.
Qed.

Lemma object_name_in (df : DataFrame) (c : string) :
  In c (column_names (select_object df)) ->
  exists col, In (c, col) (columns df) /\ is_object_dtype col = true.
Proof.
  unfold column_names, select_object. cbn [columns]. intros I.
  apply in_map_iff in I. destruct I as [[a col] [E I]]. cbn in E. subst a.
  apply filter_In in I. cbn [snd] in I. exists col. tauto.
Qed.

Lemma valid_cat_cols_name (d : DataFrame) (most : nat) (k : string) (n : nat) :
  In (k, n) (valid_cat_cols d most) -> In k (column_names d).
Proof.
  unfold valid_cat_cols, frame_nunique, column_names. intros I.
  apply filter_In in I. destruct I as [I _].
  apply in_map_iff in I. destruct I as [[a col] [E I]].
  injection E as <- _. change a with (fst (a, col)). now apply in_map.
Qed.

Lemma strongest_pair_names (d : DataFrame) (a b : string) :
  strongest_pair d = Some (a, b) ->
  In a (column_names d) /\ In b (column_names d).
Proof.
  intros S. destruct (strongest_pair_in d a b S)
    as [c1 [c2 [r [I1 [I2 _]]]]].
  unfold column_names. split.
  - change a with (fst (a, c1)). now apply in_map.
  - change b with (fst (b, c2)). now apply in_map.
Qed.

Lemma firstn_in {A : Type} (n : nat) (l : list A) (x : A) :
  In x (firstn n l) -> In x l.
Proof.
  revert l. induction n as [| n IH]; intros [| y l]; cbn; try tauto.
  intros [E | I]; auto.
Qed.

Lemma rule_columns (df : DataFrame) (f : figure) (c : string) :
  In f (rule_of (fig_type f) df) -> In c (fig_columns f) ->
  match fig_type f with
  | Bar | Pie => In c (column_names (select_object df))
  | _ => In c (column_names (select_number df))
  end.
Proof.
  destruct f as [k cols]. cbn [fig_type fig_columns].
  destruct k; cbn [rule_of].
  - unfold heatmap_rule. destruct (1 <? _)%nat; [| intros []].
    intros [[= <-] | []]. auto.
  - unfold histogram_rule. destruct (negb _); [| intros []].
    destruct (idxmax _) as [t |] eqn:E; [| intros []].
    intros [[= <-] | []] [<- | []].
    apply idxmax_in in E. destruct E as [v I].
    unfold frame_var in I. apply in_map_iff in I.
    destruct I as [[a col] [[= <- _] I]]. unfold column_names.
    change a with (fst (a, col)). now apply in_map.
  - intros I. apply scatter_rule_in in I.
    destruct I as [a [b [S ->]]].
    destruct (strongest_pair_names _ a b S).
    intros [<- | [<- | []]]; auto.
  - unfold box_rule. destruct (0 <? _)%nat; [| intros []].
    intros [[= <-] | []] I. apply (firstn_in 5). exact I.
  - unfold bar_rule. destruct (negb _); [| intros []].
    destruct (idxmax _) as [t |] eqn:E; [| intros []].
    intros [[= <-] | []] [<- | []].
    apply idxmax_in in E. destruct E as [v I].
    apply as_floats_in in I. destruct I as [n I].
    eapply valid_cat_cols_name; eauto.
  - unfold pie_rule. destruct (negb _); [| intros []].
    destruct (idxmin _) as [t |] eqn:E; [| intros []].
    intros [[= <-] | []] [<- | []].
    apply idxmin_in in E. destruct E as [v I].
    apply as_floats_in in I. destruct I as [n I].
    eapply valid_cat_cols_name; eauto.
  - unfold violin_rule. destruct (0 <? _)%nat; [| intros []].
    destruct (nth_error _ _) as [t |] eqn:E; [| intros []].
    intros [[= <-] | []] [<- | []]. eapply nth_error_In; eauto.
  - unfold line_rule. destruct (0 <? _)%nat; [| intros []].
    destruct (nth_error _ _) as [t |] eqn:E; [| intros []].
    intros [[= <-] | []] [<- | []]. eapply nth_error_In; eauto.
  - intros I. apply contour_rule_in in I.
    destruct I as [a [b [S ->]]].
    destruct (strongest_pair_names _ a b S).
    intros [<- | [<- | []]]; auto.
Qed.

(** X23. Every column a figure is built from is a column of the table: a
    text column for a bar or a pie chart, a numeric column for every
    other chart type. *)
Theorem figure_columns_exist (df : DataFrame) (figs : list figure)
    (f : figure) (c : string) :
  generate_visuals df = Some figs ->
  In f figs -> In c (fig_columns f) ->
  exists col, In (c, col) (columns df) /\ fits_kind (fig_type f) col = true.
Proof.
  intros H I Ic. apply (in_figures_rule df figs f H) in I.
  pose proof (rule_columns df f c I Ic) as R.
  destruct (fig_type f); cbn [fits_kind];
    first [now apply numeric_name_in | now apply object_name_in].
Qed.

Lemma generate_visuals_order_witness :
  subsequence (map fig_type mixed_table_figures) rule_order = true.
Proof.
  apply (generate_visuals_order mixed_table mixed_table_figures).
  vm_compute. reflexivity.
Defined.

Lemma numeric_charts_present_witness :
  has_kind Heatmap mixed_table_figures
  = (1 <? n_cols (select_number mixed_table))%nat /\
  has_kind Box mixed_table_figures
  = (0 <? n_cols (select_number mixed_table))%nat /\
  has_kind Violin mixed_table_figures
  = (0 <? n_cols (select_number mixed_table))%nat /\
  has_kind Line mixed_table_figures
  = (0 <? n_cols (select_number mixed_table))%nat /\
  has_kind Histogram mixed_table_figures
  = negb (df_empty (select_number mixed_table)).
Proof.
  apply (numeric_charts_present mixed_table mixed_table_figures).
  vm_compute. reflexivity.
Defined.

Lemma pie_implies_bar_witness : has_kind Bar mixed_table_figures = true.
Proof.
  apply (pie_implies_bar mixed_table mixed_table_figures).
  - vm_compute. reflexivity.
  - reflexivity.
Defined.

Lemma scatter_contour_same_pair_witness :
  In (mkFigure Scatter ["A"; "C"]%string) doubled_column_figures
  <-> In (mkFigure Contour ["A"; "C"]%string) doubled_column_figures.
Proof.
  apply (scatter_contour_same_pair doubled_column_table
           doubled_column_figures ["A"; "C"]%string).
  vm_compute. reflexivity.
Defined.


Lemma figure_columns_exist_witness :
  exists col,
    In ("c"%string, col) (columns mixed_table) /\ fits_kind Bar col = true.
Proof.
  apply (figure_columns_exist mixed_table mixed_table_figures
           (mkFigure Bar ["c"%string]) "c"%string).
  - vm_compute. reflexivity.
  - right. right. left. reflexivity.
  - left. reflexivity.
Defined.

Lemma generate_visuals_raises_witness :
  generate_visuals single_row_table = None.
Proof.
  apply (generate_visuals_raises single_row_table).
  - reflexivity.
  - intros a c [[= <- <-] | []]. cbn. lia.
Defined.

(** ** The loader and the processing pipeline *)

Section PipelineFacts.

Variable uploaded : Type.
Variable file_name : uploaded -> string.
Variable read_csv : uploaded -> DataFrame + string.
Variable read_excel : uploaded -> DataFrame + string.
Variable parse_datetime : string -> option (option Z).
Variable fsqrt : Q -> Q.
Variable fpow15 : Q -> Q.

(** X24. The loader returns a table and no error, or an error and no table,
    whatever the readers do. *)
Theorem load_data_table_xor_error (uploaded_file : uploaded) :
  (exists df,
     load_data uploaded file_name read_csv read_excel uploaded_file
     = (Some df, None)) \/
  (exists e,
     load_data uploaded file_name read_csv read_excel uploaded_file
     = (None, Some e)).
Proof.
  unfold load_data.
  destruct (endswith (file_name uploaded_file) ".csv").
  - destruct (read_csv uploaded_file); eauto.
  - destruct (endswith (file_name uploaded_file) ".xls"
              || endswith (file_name uploaded_file) ".xlsx").
    + destruct (read_excel uploaded_file); eauto.
    + eauto.
Qed.

(** X25. An error is shown exactly when the loader returns a message that is
    not empty; the error shown is that message. *)
Theorem error_shown_iff (uploaded_file : uploaded) (e : string) :
  process_upload uploaded file_name read_csv read_excel
                 parse_datetime fsqrt fpow15 uploaded_file = ErrorShown e
  <-> snd (load_data uploaded file_name read_csv read_excel uploaded_file)
      = Some e /\ e <> ""%string.
Proof.
  unfold process_upload.
  destruct (load_data uploaded file_name read_csv read_excel uploaded_file)
    as [df_raw [err |]]; cbn [snd truthy].
  - destruct (String.eqb err "") eqn:E; cbn [negb].
    + apply String.eqb_eq in E. subst err. split.
      * destruct df_raw as [d |]; [destruct (analyze _ _ _ d) |];
          discriminate.
      * intros [[= <-] N]. congruence.
    + apply String.eqb_neq in E. split.
      * intros [= <-]. auto.
      * intros [[= <-] _]. reflexivity.
  - split.
    + destruct df_raw as [d |]; [destruct (analyze _ _ _ d) |];
        discriminate.
    + intros [H _]. discriminate.
Qed.

(** X26. A failure of the CSV reader whose message is empty is not reported:
    the block goes on to the cleansing engine without a table, and
    raises. *)
Theorem silent_load_failure_raises (uploaded_file : uploaded) :
  endswith (file_name uploaded_file) ".csv" = true ->
  read_csv uploaded_file = inr ""%string ->
  process_upload uploaded file_name read_csv read_excel
                 parse_datetime fsqrt fpow15 uploaded_file = Raised.
Proof.
  intros C R. unfold process_upload, load_data. now rewrite C, R.
Qed.

End PipelineFacts.

Lemma silent_load_failure_raises_witness :
  process_upload string (fun f => f) fails_silently (reads sample_table)
                 no_dates sample_sqrt sample_pow15 "data.csv"%string = Raised.
Proof.
  apply (silent_load_failure_raises string (fun f => f) fails_silently
           (reads sample_table) no_dates sample_sqrt sample_pow15
           "data.csv"%string); reflexivity.
Defined.

(** ** The processing pipeline on a loaded table *)

Lemma dropna_count {A : Type} (vs : list (option A)) :
  (length (dropna vs) + count_null vs = length vs)%nat.
Proof.
  unfold count_null. induction vs as [| [x |] vs IH]; cbn; lia.
Qed.

Lemma no_value_dropna (vs : list float) :
  column_has_value (Numeric vs) = false -> dropna vs = [].
Proof.
  unfold column_has_value. cbn [cells]. rewrite existsb_map_compose.
  induction vs as [| [x |] vs IH]; cbn; auto; discriminate.
Qed.

(** A numeric column without a value goes through imputation and
    capping as it is. *)
Lemma blank_column_kept (vs : list float) :
  dropna vs = [] -> cap_column (fill_column (Numeric vs)) = Numeric vs.
Proof.
  intros E.
  assert (M : median vs = None) by (unfold median; now rewrite E).
  assert (F : fill_column (Numeric vs) = Numeric vs).
  { unfold fill_column. destruct (0 <? _)%nat; auto.
    cbn [impute_column]. rewrite M. f_equal. unfold fillna.
    transitivity (map (fun v : float => v) vs); [| apply map_id].
    apply map_ext. now intros [x |]. }
  rewrite F. cbn [cap_column]. unfold lower_bound, upper_bound, quantile.
  rewrite E. cbn. f_equal. unfold np_where_gt, np_where_lt.
  rewrite map_map.
  transitivity (map (fun v : float => v) vs); [| apply map_id].
  apply map_ext. now intros [x |].
Qed.

Lemma cap_column_numeric (c : column) :
  is_numeric_dtype (cap_column c) = is_numeric_dtype c.
Proof.
  now destruct c.
Qed.

Lemma take_mask_in {A : Type} (mask : list bool) (l : list A) (x : A) :
  In x (take_mask mask l) -> In x l.
Proof.
  revert l. induction mask as [| b mask IH]; intros [| y l]; cbn;
    try tauto; destruct b; cbn; try tauto.
  - intros [E | I]; auto.
  - auto.
Qed.

(** Deduplication keeps a value of every column that has one, and adds
    none. *)
Lemma col_take_has_value (d : DataFrame) (a : string) (c : column) :
  well_formed d -> In (a, c) (columns d) ->
  column_has_value (col_take (map negb (duplicated d)) c)
  = column_has_value c.
Proof.
  intros [W _] I. destruct (column_has_value c) eqn:V.
  - destruct (In_nth_error _ _ I) as [p Hp].
    rewrite Forall_forall in W. pose proof (W _ I) as L. cbn [snd] in L.
    unfold column_has_value. rewrite cells_col_take.
    rewrite <- (column_of_rows d p a c Hp L). unfold duplicated.
    apply kept_value; [intros r [] |].
    eapply existsb_rows_value; eauto.
  - destruct (column_has_value (col_take _ c)) eqn:V'; auto.
    unfold column_has_value in *. rewrite cells_col_take in V'.
    apply existsb_exists in V'. destruct V' as [x [Ix Hx]].
    apply take_mask_in in Ix.
    assert (T : existsb (fun x => negb (cell_missing x)) (cells c) = true)
      by (apply existsb_exists; eauto).
    congruence.
Qed.

(** The first row is never a duplicate. *)
Lemma drop_duplicates_keeps_a_row (d : DataFrame) :
  df_empty d = false -> (0 < n_rows (drop_duplicates d))%nat.
Proof.
  intros E. unfold drop_duplicates. rewrite E. cbn [n_rows].
  unfold duplicated, rows.
  destruct (n_rows d) as [| n] eqn:R.
  - unfold df_empty in E. rewrite R in E. discriminate.
  - cbn [seq map duplicated_from existsb negb]. unfold count_true.
    cbn [filter length]. lia.
Qed.

Lemma option_map_none {A B : Type} (f : A -> B) (o : option A) :
  option_map f o = None <-> o = None.
Proof.
  destruct o; cbn; split; congruence.
Qed.

Section PipelineRun.

Variable parse_datetime : string -> option (option Z).
Variable fsqrt : Q -> Q.
Variable fpow15 : Q -> Q.

Lemma cleansed_numeric (c : column) :
  is_numeric_dtype
    (cap_column (fill_column (convert_column parse_datetime c)))
  = is_numeric_dtype c.
Proof.
  now rewrite cap_column_numeric, fill_column_numeric, convert_column_numeric.
Qed.

(** A cleaned numeric column has a value in every row, or in none when
    the column had none. *)
Lemma cleansed_value_count (c : column) :
  is_numeric_dtype c = true ->
  length (dropna (numeric_values
            (cap_column (fill_column (convert_column parse_datetime c)))))
  = if column_has_value c then col_length c else 0%nat.
Proof.
  destruct c as [vs | vs | vs]; try discriminate. intros _.
  change (convert_column parse_datetime (Numeric vs)) with (Numeric vs).
  destruct (column_has_value (Numeric vs)) eqn:V.
  - pose proof (fill_column_complete _ V) as C.
    pose proof (cap_column_nulls (fill_column (Numeric vs))) as N.
    rewrite C in N.
    pose proof (cap_column_length (fill_column (Numeric vs))) as L.
    rewrite fill_column_length in L.
    assert (X : exists ws, cap_column (fill_column (Numeric vs)) = Numeric ws).
    { unfold fill_column. destruct (0 <? _)%nat; cbn; eauto. }
    destruct X as [ws X]. rewrite X in *. cbn in *.
    pose proof (dropna_count ws). unfold float in *. lia.
  - apply no_value_dropna in V. rewrite (blank_column_kept vs V).
    cbn. now rewrite V.
Qed.

Lemma select_number_etl (raw : DataFrame) :
  columns (select_number (fst (etl parse_datetime raw)))
  = map (fun nc =>
           (fst nc,
            cap_column (fill_column (convert_column parse_datetime (snd nc)))))
        (columns (select_number (drop_duplicates raw))).
Proof.
  cbn [select_number columns]. rewrite etl_columns.
  apply filter_map_swap. intros [a c]. cbn [snd]. apply cleansed_numeric.
Qed.

Lemma select_number_drop_duplicates (raw : DataFrame) :
  df_empty raw = false ->
  columns (select_number (drop_duplicates raw))
  = map (fun nc => (fst nc, col_take (map negb (duplicated raw)) (snd nc)))
        (columns (select_number raw)).
Proof.
  intros E. unfold drop_duplicates. rewrite E.
  cbn [select_number columns].
  apply filter_map_swap. intros [a c]. cbn [snd]. apply col_take_numeric.
Qed.

Lemma select_number_etl_names (raw : DataFrame) :
  column_names (select_number (fst (etl parse_datetime raw)))
  = column_names (select_number raw).
Proof.
  unfold column_names. rewrite select_number_etl, map_map. cbn [fst].
  destruct (df_empty raw) eqn:E.
  - now rewrite drop_duplicates_empty.
  - rewrite select_number_drop_duplicates by exact E.
    rewrite map_map. reflexivity.
Qed.

Lemma select_number_etl_n_cols (raw : DataFrame) :
  n_cols (select_number (fst (etl parse_datetime raw)))
  = n_cols (select_number raw).
Proof.
  rewrite <- !column_names_length. now rewrite select_number_etl_names.
Qed.

(** The number of values of each numeric column of the cleaned table. *)
Lemma cleaned_numeric_counts (raw : DataFrame) :
  well_formed raw -> df_empty raw = false ->
  map (fun nc => length (dropna (numeric_values (snd nc))))
      (columns (select_number (fst (etl parse_datetime raw))))
  = map (fun nc => if column_has_value (snd nc)
                   then n_rows (drop_duplicates raw) else 0%nat)
        (columns (select_number raw)).
Proof.
  intros W E.
  rewrite select_number_etl, select_number_drop_duplicates by exact E.
  rewrite !map_map. apply map_ext_in. intros [a c] I. cbn [snd fst].
  cbn [select_number columns] in I. apply filter_In in I.
  destruct I as [I N]. cbn [snd] in N.
  rewrite cleansed_value_count by now rewrite col_take_numeric.
  rewrite (col_take_has_value raw a c W I).
  destruct (column_has_value c); [| reflexivity].
  destruct W as [W _]. rewrite Forall_forall in W.
  pose proof (W _ I) as L. cbn [snd] in L.
  rewrite col_take_length.
  - unfold drop_duplicates. now rewrite E.
  - rewrite length_map, duplicated_length. now symmetry.
Qed.

(** The statistics engine returns on every table with unique column
    names. *)
Lemma generate_descriptive_stats_returns (df : DataFrame) :
  NoDup (column_names df) ->
  exists r,
    generate_descriptive_stats fsqrt fpow15 df = Some r /\
    match r with
    | NoNumericData => column_names (select_number df) = []
    | StatsFrame rows =>
        column_names (select_number df) <> [] /\
        map Column rows = column_names (select_number df)
    end.
Proof.
  intros ND.
  destruct (describe_all_numeric fsqrt fpow15 df
              (column_names (select_number df))
              (numeric_at_select df ND)) as [rows [E [N _]]].
  unfold generate_descriptive_stats.
  destruct (column_names (select_number df)) as [| a names] eqn:Names.
  - exists NoNumericData. split; reflexivity.
  - cbn [length Nat.eqb]. rewrite E. exists (StatsFrame rows).
    repeat split; auto. discriminate.
Qed.

(** The pipeline as the three engines on the cleaned table. *)
Lemma analyze_run (raw : DataFrame) :
  well_formed raw ->
  exists stats_df,
    match stats_df with
    | NoNumericData => column_names (select_number raw) = []
    | StatsFrame rows =>
        column_names (select_number raw) <> [] /\
        map Column rows = column_names (select_number raw)
    end /\
    analyze parse_datetime fsqrt fpow15 raw
    = option_map
        (mkSession (fst (etl parse_datetime raw))
                   (snd (etl parse_datetime raw)) stats_df
                   (calculate_health_score raw (fst (etl parse_datetime raw))
                                           (snd (etl parse_datetime raw))))
        (generate_visuals (fst (etl parse_datetime raw))).
Proof.
  intros [W ND].
  destruct (generate_descriptive_stats_returns (fst (etl parse_datetime raw)))
    as [r [E R]].
  { now rewrite etl_names. }
  exists r. split.
  - rewrite select_number_etl_names in R. exact R.
  - unfold analyze. rewrite cleanse_etl by exact ND.
    destruct (etl parse_datetime raw) as [cleaned stats]. cbn [fst snd] in *.
    rewrite E. now destruct (generate_visuals cleaned).
Qed.

(** X27. A completed run has one row of statistics for each numeric column
    of the raw table, in column order, and the "no numeric data" signal
    when the raw table has no numeric column. *)
Theorem analyze_statistics (raw : DataFrame) (s : session_state) :
  well_formed raw ->
  analyze parse_datetime fsqrt fpow15 raw = Some s ->
  match st_stats_df s with
  | NoNumericData => column_names (select_number raw) = []
  | StatsFrame rows =>
      column_names (select_number raw) <> [] /\
      map Column rows = column_names (select_number raw)
  end.
Proof.
  intros W H. destruct (analyze_run raw W) as [r [R A]].
  rewrite A in H.
  destruct (generate_visuals (fst (etl parse_datetime raw)));
    [| discriminate].
  cbn in H. injection H as <-. exact R.
Qed.

(** X28. The pipeline raises on every table that has a row and a numeric
    column when a single row is left after deduplication, or when no
    numeric column has a value: the cleaned table then has no numeric
    column with two values, and the visualization selector raises. *)
Theorem analyze_raises (raw : DataFrame) :
  well_formed raw ->
  n_rows raw <> 0%nat ->
  columns (select_number raw) <> [] ->
  (n_rows (drop_duplicates raw) = 1%nat \/
   forall a c, In (a, c) (columns (select_number raw)) ->
     column_has_value c = false) ->
  analyze parse_datetime fsqrt fpow15 raw = None.
Proof.
  intros W R C H. destruct (analyze_run raw W) as [r [_ A]]. rewrite A.
  apply option_map_none, generate_visuals_none, histogram_rule_none.
  clear A r.
  assert (NC : n_cols (select_number raw) <> 0%nat).
  { unfold n_cols. destruct (columns (select_number raw)); cbn; congruence. }
  assert (E : df_empty raw = false).
  { unfold df_empty. apply orb_false_iff. split; apply Nat.eqb_neq; auto.
    intros Z. apply C. cbn [select_number columns]. unfold n_cols in Z.
    destruct (columns raw); [reflexivity | discriminate]. }
  pose proof (drop_duplicates_keeps_a_row raw E) as K.
  pose proof (cleaned_numeric_counts raw W E) as Counts.
  split.
  - unfold df_empty. rewrite select_number_etl_n_cols.
    change (n_rows (select_number (fst (etl parse_datetime raw))))
      with (n_rows (drop_duplicates raw)).
    apply orb_false_iff. split; apply Nat.eqb_neq; [lia | exact NC].
  - assert (F : Forall (fun n => (n < 2)%nat)
                  (map (fun nc => length (dropna (numeric_values (snd nc))))
                       (columns (select_number
                                   (fst (etl parse_datetime raw)))))).
    { rewrite Counts, Forall_map, Forall_forall.
      intros [a c] I. cbn [snd]. destruct H as [K1 | H].
      - destruct (column_has_value c); lia.
      - rewrite (H a c I). lia. }
    rewrite Forall_map, Forall_forall in F.
    intros a c I. apply (F (a, c) I).
Qed.

End PipelineRun.

Lemma analyze_statistics_witness :
  exists s,
    analyze no_dates sample_sqrt sample_pow15 doubled_column_table = Some s /\
    match st_stats_df s with
    | NoNumericData => column_names (select_number doubled_column_table) = []
    | StatsFrame rows =>
        column_names (select_number doubled_column_table) <> [] /\
        map Column rows = column_names (select_number doubled_column_table)
    end.
Proof.
  eexists. split; [vm_compute; reflexivity |].
  apply (analyze_statistics no_dates sample_sqrt sample_pow15
           doubled_column_table).
  - apply well_formed_b_sound. reflexivity.
  - vm_compute. reflexivity.
Defined.

Lemma analyze_raises_witness :
  analyze no_dates sample_sqrt sample_pow15 single_row_table = None.
Proof.
  apply (analyze_raises no_dates sample_sqrt sample_pow15 single_row_table).
  - apply well_formed_b_sound. reflexivity.
  - discriminate.
  - discriminate.
  - left. reflexivity.
Defined.
